(** * fx_cast background scripts: device registry and cast-instance router

    A shallow embedding of [ext/src/background/deviceManager.ts] and
    [ext/src/background/castManager.ts] together with the message catalogue of
    [ext/src/messaging.ts].  Of [ext/src/background/index.ts] it has the
    listener of the browser action, which calls [loadSender].

    The two managers are singletons that live in one background page, so the
    model keeps one [State] record for both of them plus the part of the
    browser they talk to: the ports with their listener lists, the pending
    timers and a chronological log of every call that leaves the managers
    ([postMessage], [disconnect], [dispatchEvent], [executeScript], ...).

    - Handlers are written in a small state-and-exception monad.  An [await]
      whose answer comes from outside the two files is answered by the [Env]
      record, and the continuation runs in the same step: [step] follows
      each handler to its end without interleaving another handler.
    - [createInstance] is in addition modelled from [await] to [await]:
      [turn] lets a connection arrive while the calls of earlier connections
      wait, and lets the waiting calls go on in any order.
    - Cast instances are objects: they live in a heap and the [Set] of active
      instances holds references, so that a closure keeps its instance after
      the instance has left the set.
    - A message that arrives on a port is a freshly parsed JSON value.  The
      registry's assignments to the fields of a stored device are therefore
      modelled as the replacement of the table entry's value, at its place.
    - [dispatchEvent] is recorded in the log; what the listeners that
      [castManager.init] registers do with an event is [forwardDeviceEvent]. *)

From Stdlib Require Import Ascii.
From stdpp Require Import gmap strings list fin_maps pretty.


(** ** Identifiers *)

Definition PortId := nat.
Definition InstRef := nat.
Definition TabId := nat.
Definition FrameId := nat.

(** ** Receiver devices *)

(** The volume object and the application descriptors are carried around and
    never inspected by the managers; a number and a string stand for them. *)
Definition Volume := N.
Definition ReceiverApplication := string.

(** Modelled from the spec: [ReceiverStatus] is declared in [cast/sdk/types];
    section 3 lists its parts: active-input flag, standby flag, volume and the
    list of running applications.  A part that may be missing from the JSON
    object is an [option]. *)
Record ReceiverStatus := mkStatus {
  isActiveInput : option bool;
  isStandBy : option bool;
  volume : Volume;
  applications : option (list ReceiverApplication)
}.

(** Modelled from the spec: [ReceiverDevice] is declared in [types]; section 3
    gives it an opaque string [id] and a nullable [status]. *)
Record ReceiverDevice := mkDevice {
  id : string;
  status : option ReceiverStatus
}.

(** Modelled from the spec: the two enumerations of [types]
    ([ReceiverSelectionActionType], [ReceiverSelectorMediaType]). *)
Inductive ReceiverSelectionActionType := Cast | Stop.
Inductive ReceiverSelectorMediaType := App | Tab | Screen | File.

(** Modelled from the spec: [ReceiverSelection] is the union of a cast
    selection (device, media type, optional file path) and a stop selection
    (device), tagged by [actionType]. *)
Inductive ReceiverSelection :=
| ReceiverSelectionCast (receiverDevice : ReceiverDevice)
    (mediaType : ReceiverSelectorMediaType) (filePath : option string)
| ReceiverSelectionStop (receiverDevice : ReceiverDevice).

Definition actionType (sel : ReceiverSelection) : ReceiverSelectionActionType :=
  match sel with
  | ReceiverSelectionCast _ _ _ => Cast
  | ReceiverSelectionStop _ => Stop
  end.

Definition selectionDevice (sel : ReceiverSelection) : ReceiverDevice :=
  match sel with
  | ReceiverSelectionCast d _ _ => d
  | ReceiverSelectionStop d => d
  end.

(** Modelled from the spec: [BridgeInfo] of [lib/bridge] (section 6). *)
Record BridgeInfo := mkBridgeInfo {
  isVersionCompatible : bool;
  isVersionOlder : bool;
  expectedVersion : string
}.

(** ** Messages ([messaging.ts])

    A message is a JSON object with a [subject] and a [data] key.  [Payload]
    gives one shape to every entry of the two message tables that the managers
    read or build; every other payload is carried as [OtherData]. *)
Inductive Payload :=
| NoData
| InitializeCastData (appId : string)
| SelectReceiverData (sessionRequest : string)
| ReceiverDeviceData (receiverDevice : ReceiverDevice)
| ReceiverDeviceIdData (receiverDeviceId : string)
| SelectionData (selection : ReceiverSelection)
| BridgeInfoData (info : BridgeInfo)
| StartDiscoveryData (shouldWatchStatus : bool)
| DeviceUpData (deviceId : string) (deviceInfo : ReceiverDevice)
| DeviceDownData (deviceId : string)
| DeviceStatusData (deviceId : string) (status : ReceiverStatus)
| OtherData (json : string).

Record Message := mkMessage {
  subject : string;
  data : Payload
}.

(** [message.subject.split(":")[0]]: the text before the first colon, the
    whole subject when it has none. *)
Fixpoint destination (s : string) : string :=
  match s with
  | EmptyString => EmptyString
  | String c rest =>
      if Ascii.eqb c ":"%char then EmptyString else String c (destination rest)
  end.

(** ** Events of the device registry ([EventMap]) *)
Inductive DeviceEvent :=
| receiverDeviceUp (deviceInfo : ReceiverDevice)
| receiverDeviceDown (deviceId : string)
| receiverDeviceUpdated (deviceId : string) (status : ReceiverStatus).

(** ** Cast instances *)
Record CastInstance := mkInstance {
  bridgePort : PortId;
  contentPort : PortId;
  contentTabId : option TabId;
  contentFrameId : option FrameId;
  appId : option string
}.

(** ** Ports and listeners

    Every closure that the managers register on a port is named by the
    function it was created from and the instance it closes over. *)
Inductive Listener :=
| ContentPortMessageListener (instance : InstRef)
| BridgePortMessageListener (instance : InstRef)
| DisconnectListener (instance : InstRef)
| BgBridgeDisconnectListener (instance : InstRef)
| BgBridgeMessageListener (instance : InstRef)
| BgContentMessageListener (instance : InstRef)
| RegistryMessageListener
| RegistryDisconnectListener.

Global Instance Listener_eq_dec : EqDecision Listener.
Proof. solve_decision. Defined.

Inductive PortKind := RuntimePort | MessagePort.

(** [senderTabId] is [port.sender?.tab?.id], [senderFrameId] is
    [port.sender?.frameId]. *)
Record PortState := mkPort {
  kind : PortKind;
  name : string;
  senderTabId : option TabId;
  senderFrameId : option FrameId;
  connected : bool;
  onMessageListeners : list Listener;
  onDisconnectListeners : list Listener
}.

Inductive Injection :=
| InjectCode (selectedMedia : ReceiverSelectorMediaType) (selectedReceiver : ReceiverDevice)
| InjectFile (file : string).

Inductive TimerCallback := refreshCallback.

(** ** The log of outgoing calls *)
Inductive Effect :=
| EPostMessage (port : PortId) (m : Message)
| EDisconnect (port : PortId)
| EClose (port : PortId)
| EConnect (port : PortId)
| EDispatch (ev : DeviceEvent)
| ESetTimeout (delay : N)
| ELogError (msg : string)
| EExecuteScript (tabId : TabId) (frameId : option FrameId) (what : Injection)
| EMediaInit (mediaUrl : string) (receiver : ReceiverDevice)
| ESelectorClose.

(** ** State of the background page *)
Record State := mkState {
  (* deviceManager.ts *)
  receiverDevices : list (string * ReceiverDevice);
  dmBridgePort : option PortId;
  (* castManager.ts *)
  activeInstances : list InstRef;
  (* objects and browser *)
  heap : gmap InstRef CastInstance;
  nextRef : InstRef;
  ports : gmap PortId PortState;
  nextPort : PortId;
  now : N;
  timers : list (N * TimerCallback);
  log : list Effect
}.

Definition initialState : State :=
  mkState [] None [] ∅ 0 ∅ 0 0%N [] [].

Definition set_receiverDevices (v : list (string * ReceiverDevice)) (s : State) : State :=
  mkState v (dmBridgePort s) (activeInstances s) (heap s) (nextRef s)
    (ports s) (nextPort s) (now s) (timers s) (log s).
Definition set_dmBridgePort (v : option PortId) (s : State) : State :=
  mkState (receiverDevices s) v (activeInstances s) (heap s) (nextRef s)
    (ports s) (nextPort s) (now s) (timers s) (log s).
Definition set_activeInstances (v : list InstRef) (s : State) : State :=
  mkState (receiverDevices s) (dmBridgePort s) v (heap s) (nextRef s)
    (ports s) (nextPort s) (now s) (timers s) (log s).
Definition set_heap (v : gmap InstRef CastInstance) (s : State) : State :=
  mkState (receiverDevices s) (dmBridgePort s) (activeInstances s) v (nextRef s)
    (ports s) (nextPort s) (now s) (timers s) (log s).
Definition set_nextRef (v : InstRef) (s : State) : State :=
  mkState (receiverDevices s) (dmBridgePort s) (activeInstances s) (heap s) v
    (ports s) (nextPort s) (now s) (timers s) (log s).
Definition set_ports (v : gmap PortId PortState) (s : State) : State :=
  mkState (receiverDevices s) (dmBridgePort s) (activeInstances s) (heap s) (nextRef s)
    v (nextPort s) (now s) (timers s) (log s).
Definition set_nextPort (v : PortId) (s : State) : State :=
  mkState (receiverDevices s) (dmBridgePort s) (activeInstances s) (heap s) (nextRef s)
    (ports s) v (now s) (timers s) (log s).
Definition set_now (v : N) (s : State) : State :=
  mkState (receiverDevices s) (dmBridgePort s) (activeInstances s) (heap s) (nextRef s)
    (ports s) (nextPort s) v (timers s) (log s).
Definition set_timers (v : list (N * TimerCallback)) (s : State) : State :=
  mkState (receiverDevices s) (dmBridgePort s) (activeInstances s) (heap s) (nextRef s)
    (ports s) (nextPort s) (now s) v (log s).
Definition set_log (v : list Effect) (s : State) : State :=
  mkState (receiverDevices s) (dmBridgePort s) (activeInstances s) (heap s) (nextRef s)
    (ports s) (nextPort s) (now s) (timers s) v.

(** ** The handler monad: state plus [throw] *)
Inductive Result (A : Type) :=
| Ok (a : A)
| Throw (err : string).
Arguments Ok {A} a.
Arguments Throw {A} err.

Definition M (A : Type) : Type := State → Result A * State.

Definition ret {A} (a : A) : M A := λ s, (Ok a, s).
Definition bind {A B} (m : M A) (k : A → M B) : M B :=
  λ s, match m s with
       | (Ok a, s') => k a s'
       | (Throw e, s') => (Throw e, s')
       end.
Definition throw {A} (err : string) : M A := λ s, (Throw err, s).
Definition get : M State := λ s, (Ok s, s).
Definition modify (f : State → State) : M unit := λ s, (Ok tt, f s).

Global Instance M_ret : MRet M := @ret.
Global Instance M_bind : MBind M := λ A B k m, bind m k.

(** A promise nobody awaits: what the call does is kept, whether it is
    fulfilled or rejected is not looked at. *)
Definition notAwaited {A} (m : M A) : M unit :=
  λ s, (Ok tt, snd (m s)).

(** [try { m } catch (err) { h }]. *)
Definition tryCatch {A} (m : M A) (h : M A) : M A :=
  λ s, match m s with
       | (Ok a, s') => (Ok a, s')
       | (Throw _, s') => h s'
       end.

Fixpoint forEach {A} (l : list A) (body : A → M unit) : M unit :=
  match l with
  | [] => ret tt
  | x :: l' => body x ;; forEach l' body
  end.

Definition emit (e : Effect) : M unit :=
  modify (λ s, set_log (log s ++ [e]) s).

(** [logger.error(msg)] reports the message; the managers [throw] what it
    returns. *)
Definition logger_error (msg : string) : M unit := emit (ELogError msg).
Definition throw_logger_error {A} (msg : string) : M A :=
  logger_error msg ;; throw msg.

(** ** Port operations *)

Definition with_connected (b : bool) (p : PortState) : PortState :=
  mkPort (kind p) (name p) (senderTabId p) (senderFrameId p)
    b (onMessageListeners p) (onDisconnectListeners p).
Definition with_onMessage (l : list Listener) (p : PortState) : PortState :=
  mkPort (kind p) (name p) (senderTabId p) (senderFrameId p)
    (connected p) l (onDisconnectListeners p).
Definition with_onDisconnect (l : list Listener) (p : PortState) : PortState :=
  mkPort (kind p) (name p) (senderTabId p) (senderFrameId p)
    (connected p) (onMessageListeners p) l.

Definition alterPort (f : PortState → PortState) (p : PortId) : M unit :=
  modify (λ s, set_ports (alter f p (ports s)) s).

Definition postMessage (p : PortId) (m : Message) : M unit :=
  emit (EPostMessage p m).

(** [port.disconnect()]: closes the port from this side.  The port's own
    [onDisconnect] listeners are not run by it; they run when the browser
    delivers a disconnect event (see [deliverDisconnect]).  Disconnecting a
    port twice is allowed. *)
Definition disconnect (p : PortId) : M unit :=
  emit (EDisconnect p) ;; alterPort (with_connected false) p.

(** [MessagePort.close()]. *)
Definition close (p : PortId) : M unit :=
  emit (EClose p) ;; alterPort (with_connected false) p.

(** [event.addListener(l)] adds a listener once; [event.removeListener(l)]
    removes it and does nothing when it is not registered. *)
Definition addL (l : Listener) (ls : list Listener) : list Listener :=
  if decide (l ∈ ls) then ls else ls ++ [l].
Definition removeL (l : Listener) (ls : list Listener) : list Listener :=
  filter (λ x, x ≠ l) ls.

Definition onMessage_addListener (p : PortId) (l : Listener) : M unit :=
  alterPort (λ ps, with_onMessage (addL l (onMessageListeners ps)) ps) p.
Definition onMessage_removeListener (p : PortId) (l : Listener) : M unit :=
  alterPort (λ ps, with_onMessage (removeL l (onMessageListeners ps)) ps) p.
Definition onDisconnect_addListener (p : PortId) (l : Listener) : M unit :=
  alterPort (λ ps, with_onDisconnect (addL l (onDisconnectListeners ps)) ps) p.

(** A port object made by the browser; it gets the next free identifier. *)
Definition newPort (k : PortKind) (nm : string)
    (tab : option TabId) (frame : option FrameId) : M PortId :=
  s ← get;
  let p := nextPort s in
  modify (λ s, set_nextPort (S p)
                 (set_ports (<[p := mkPort k nm tab frame true [] []]> (ports s)) s)) ;;
  ret p.

(** [bridge.connect()]: resolves to a fresh port to the bridge. *)
Definition bridge_connect : M PortId :=
  p ← newPort RuntimePort "bridge" None None;
  emit (EConnect p) ;;
  ret p.

(** [window.setTimeout(cb, delay)]. *)
Definition setTimeout (cb : TimerCallback) (delay : N) : M unit :=
  emit (ESetTimeout delay) ;;
  modify (λ s, set_timers (timers s ++ [((now s + delay)%N, cb)]) s).

(** ** A JavaScript [Map] with string keys

    The entries are kept in insertion order, which is the order in which
    [values()] and [for ... of] visit them: [set] on a key that is present
    keeps the entry's place, [delete] takes the entry out. *)
Section JsMap.
Context {V : Type}.

Fixpoint Map_get (k : string) (m : list (string * V)) : option V :=
  match m with
  | [] => None
  | (k', v) :: m' => if decide (k' = k) then Some v else Map_get k m'
  end.

Fixpoint Map_set (k : string) (v : V) (m : list (string * V)) : list (string * V) :=
  match m with
  | [] => [(k, v)]
  | (k', v') :: m' =>
      if decide (k' = k) then (k, v) :: m' else (k', v') :: Map_set k v m'
  end.

Definition Map_has (k : string) (m : list (string * V)) : bool :=
  match Map_get k m with Some _ => true | None => false end.

Definition Map_delete (k : string) (m : list (string * V)) : list (string * V) :=
  filter (λ kv, kv.1 ≠ k) m.

Definition Map_values (m : list (string * V)) : list V := m.*2.

End JsMap.

(** * deviceManager.ts *)

(** [this.dispatchEvent(new CustomEvent(...))]. *)
Definition dispatchEvent (ev : DeviceEvent) : M unit := emit (EDispatch ev).

Definition refresh : M unit :=
  s ← get;
  match dmBridgePort s with
  | Some p => disconnect p
  | None => mret tt
  end ;;
  modify (set_receiverDevices []) ;;
  p ← bridge_connect;
  modify (set_dmBridgePort (Some p)) ;;
  onMessage_addListener p RegistryMessageListener ;;
  onDisconnect_addListener p RegistryDisconnectListener ;;
  postMessage p (mkMessage "bridge:startDiscovery" (StartDiscoveryData true)).

Definition init_deviceManager : M unit :=
  s ← get;
  match dmBridgePort s with
  | None => refresh
  | Some _ => mret tt
  end.

Definition getDevices (s : State) : list ReceiverDevice :=
  Map_values (receiverDevices s).

Definition stopReceiverApp (receiverDeviceId : string) : M unit :=
  s ← get;
  match dmBridgePort s with
  | None => logger_error "Failed to stop receiver device, no bridge connection"
  | Some p =>
      match Map_get receiverDeviceId (receiverDevices s) with
      | Some receiverDevice =>
          postMessage p (mkMessage "bridge:stopCastSession" (ReceiverDeviceData receiverDevice))
      | None => mret tt
      end
  end.

(** The status that the [main:receiverDeviceStatusUpdated] branch leaves on
    the stored device: the three scalar fields are assigned, [applications]
    only when the update has one; a device without a status object takes the
    incoming object as it is. *)
Definition updatedStatus (stored : option ReceiverStatus) (status : ReceiverStatus)
    : ReceiverStatus :=
  match stored with
  | Some old =>
      mkStatus (isActiveInput status) (isStandBy status) (volume status)
        (match applications status with
         | Some apps => Some apps
         | None => applications old
         end)
  | None => status
  end.

(** Reading a field of [message.data] when the message has no [data]. *)
Definition missing_data {A} : M A :=
  throw "TypeError: message.data is undefined".

(** A subject of the table comes with its own payload shape ([Message] in
    [messaging.ts]).  When the message has no [data] at all, the
    destructuring of [message.data] throws.  A payload that has the shape of
    another subject is not a message of the table; for it the model falls
    through. *)
Definition onBridgeMessage (message : Message) : M unit :=
  if String.eqb (subject message) "main:receiverDeviceUp" then
    match data message with
    | DeviceUpData deviceId deviceInfo =>
        modify (λ s, set_receiverDevices (Map_set deviceId deviceInfo (receiverDevices s)) s) ;;
        dispatchEvent (receiverDeviceUp deviceInfo)
    | NoData => missing_data
    | _ => mret tt
    end
  else if String.eqb (subject message) "main:receiverDeviceDown" then
    match data message with
    | DeviceDownData deviceId =>
        s ← get;
        (if Map_has deviceId (receiverDevices s)
         then modify (set_receiverDevices (Map_delete deviceId (receiverDevices s)))
         else mret tt) ;;
        dispatchEvent (receiverDeviceDown deviceId)
    | NoData => missing_data
    | _ => mret tt
    end
  else if String.eqb (subject message) "main:receiverDeviceStatusUpdated" then
    match data message with
    | DeviceStatusData deviceId update =>
        s ← get;
        match Map_get deviceId (receiverDevices s) with
        | None => mret tt
        | Some receiverDevice =>
            let status' := updatedStatus (status receiverDevice) update in
            modify (set_receiverDevices
                      (Map_set deviceId (mkDevice (id receiverDevice) (Some status'))
                         (receiverDevices s))) ;;
            dispatchEvent (receiverDeviceUpdated deviceId status')
        end
    | NoData => missing_data
    | _ => mret tt
    end
  else if String.eqb (subject message) "main:receiverDeviceMediaStatusUpdated" then
    mret tt
  else mret tt.

Definition onBridgeDisconnect : M unit :=
  s ← get;
  forEach (receiverDevices s)
    (λ entry, dispatchEvent (receiverDeviceDown (id entry.2))) ;;
  modify (set_receiverDevices []) ;;
  setTimeout refreshCallback 10000.

(** ** Timers *)

Definition runTimer (cb : TimerCallback) : M unit :=
  match cb with
  | refreshCallback => notAwaited refresh
  end.

(** The clock moves on to [t] and every timer that is due by then runs, in
    the order in which the timers were set. *)
Definition advanceTo (t : N) : M unit :=
  s ← get;
  let due := filter (λ tm, (tm.1 ≤ t)%N) (timers s) in
  let later := filter (λ tm, ¬ (tm.1 ≤ t)%N) (timers s) in
  modify (λ s, set_now (N.max (now s) t) (set_timers later s)) ;;
  forEach due (λ tm, runTimer tm.2).

(** * castManager.ts *)

(** ** What the collaborators answer

    The promise behind an [await] is either fulfilled with a value or
    rejected; a rejection is thrown at the [await]. *)
Inductive Answer (A : Type) :=
| Fulfilled (a : A)
| Rejected.
Arguments Fulfilled {A} a.
Arguments Rejected {A}.

Definition await {A} (a : Answer A) : M A :=
  match a with
  | Fulfilled v => mret v
  | Rejected => throw "rejected promise"
  end.

(** [selectorManager.getSelection], [selectorManager.getSelector().isOpen],
    [options.get("receiverSelectorWaitForConnection")], [bridge.getInfo],
    [browser.tabs.executeScript], the [URL] constructor and the module of the
    media sender are outside the two managers.  [newURL text] is the [href]
    of [new URL(text)], or [None] when the constructor throws because [text]
    is not a valid URL; [importMediaSender] is what the dynamic [import] of
    [cast/senders/media] resolves to. *)
Record Env := mkEnv {
  getSelection : TabId → FrameId → string → Answer (option ReceiverSelection);
  selectorIsOpen : bool;
  receiverSelectorWaitForConnection : bool;
  getInfo : Answer BridgeInfo;
  executeScript : TabId → option FrameId → Injection → Answer unit;
  newURL : string → option string;
  importMediaSender : Answer unit
}.

(** ** Objects and the [Set] of active instances *)

Definition getObj (i : InstRef) : M CastInstance :=
  s ← get;
  match heap s !! i with
  | Some instance => mret instance
  | None => throw "dangling instance reference"
  end.

Definition newObj (instance : CastInstance) : M InstRef :=
  s ← get;
  let i := nextRef s in
  modify (λ s, set_nextRef (S i) (set_heap (<[i := instance]> (heap s)) s)) ;;
  mret i.

Definition with_appId (a : option string) (c : CastInstance) : CastInstance :=
  mkInstance (bridgePort c) (contentPort c) (contentTabId c) (contentFrameId c) a.

Definition Set_add (i : InstRef) (l : list InstRef) : list InstRef :=
  if decide (i ∈ l) then l else l ++ [i].
Definition Set_delete (i : InstRef) (l : list InstRef) : list InstRef :=
  filter (λ x, x ≠ i) l.

(** The port object behind an identifier; an identifier that names no port
    reads as a port without sender. *)
Definition portInfo (p : PortId) (s : State) : PortState :=
  default (mkPort RuntimePort "" None None false [] []) (ports s !! p).

(** A JavaScript number used as a condition: absent and [0] are false. *)
Definition truthy (n : option nat) : bool :=
  match n with
  | Some (S _) => true
  | _ => false
  end.

(** ** getInstance *)
Fixpoint getInstance_from (h : gmap InstRef CastInstance)
    (tabId : TabId) (frameId : option FrameId) (l : list InstRef) : option InstRef :=
  match l with
  | [] => None
  | i :: l' =>
      match h !! i with
      | Some instance =>
          if decide (contentTabId instance = Some tabId) then
            if truthy frameId && bool_decide (contentFrameId instance ≠ frameId)
            then getInstance_from h tabId frameId l'
            else Some i
          else getInstance_from h tabId frameId l'
      | None => getInstance_from h tabId frameId l'
      end
  end.

Definition getInstance (tabId : TabId) (frameId : option FrameId) (s : State)
    : option InstRef :=
  getInstance_from (heap s) tabId frameId (activeInstances s).

(** ** Teardown closure of [createInstanceFromContent] *)
Definition onDisconnect (i : InstRef) : M unit :=
  instance ← getObj i;
  onMessage_removeListener (bridgePort instance) (BridgePortMessageListener i) ;;
  onMessage_removeListener (contentPort instance) (ContentPortMessageListener i) ;;
  disconnect (bridgePort instance) ;;
  disconnect (contentPort instance) ;;
  modify (λ s, set_activeInstances (Set_delete i (activeInstances s)) s).

(** ** createInstance *)

(** The loop that disconnects the bridge port of every active instance at
    the sender's tab and frame. *)
Definition disconnectExisting (tabId : TabId) (frameId : FrameId) : M unit :=
  s ← get;
  forEach (activeInstances s) (λ i,
    match heap s !! i with
    | Some instance =>
        if decide (contentTabId instance = Some tabId
                   ∧ contentFrameId instance = Some frameId)
        then disconnect (bridgePort instance)
        else mret tt
    | None => mret tt
    end).

Definition createInstanceFromContent (contentPort : PortId) : M InstRef :=
  s ← get;
  match senderTabId (portInfo contentPort s), senderFrameId (portInfo contentPort s) with
  | Some tabId, Some frameId =>
      disconnectExisting tabId frameId ;;
      bp ← bridge_connect;
      i ← newObj (mkInstance bp contentPort (Some tabId) (Some frameId) None);
      onDisconnect_addListener bp (DisconnectListener i) ;;
      onMessage_addListener bp (BridgePortMessageListener i) ;;
      onDisconnect_addListener contentPort (DisconnectListener i) ;;
      onMessage_addListener contentPort (ContentPortMessageListener i) ;;
      mret i
  | _, _ =>
      throw_logger_error
        "Cast instance created from content with an invalid port context."
  end.

Definition createInstanceFromBackground (contentPort : PortId) : M InstRef :=
  bp ← bridge_connect;
  i ← newObj (mkInstance bp contentPort None None None);
  onDisconnect_addListener bp (BgBridgeDisconnectListener i) ;;
  onMessage_addListener bp (BgBridgeMessageListener i) ;;
  onMessage_addListener contentPort (BgContentMessageListener i) ;;
  mret i.

(** [createInstance] with nothing else running between its [await]s; the
    stages between the [await]s are below, with [turn]. *)
Definition createInstance (env : Env) (port : PortId) : M InstRef :=
  s ← get;
  i ← match kind (portInfo port s) with
      | MessagePort => createInstanceFromBackground port
      | RuntimePort => createInstanceFromContent port
      end;
  modify (λ s, set_activeInstances (Set_add i (activeInstances s)) s) ;;
  instance ← getObj i;
  info ← await (getInfo env);
  postMessage (contentPort instance) (mkMessage "cast:initialized" (BridgeInfoData info)) ;;
  mret i.

(** The listener that [init] puts on [messaging.onConnect]. *)
Definition onConnect (env : Env) (port : PortId) : M unit :=
  s ← get;
  if String.eqb (name (portInfo port s)) "cast"
  then notAwaited (createInstance env port)
  else mret tt.

(** The two listeners that [init] puts on the device registry. *)
Definition forwardDeviceEvent (ev : DeviceEvent) : M unit :=
  s ← get;
  match ev with
  | receiverDeviceUp deviceInfo =>
      forEach (activeInstances s) (λ i,
        instance ← getObj i;
        postMessage (contentPort instance)
          (mkMessage "cast:receiverDeviceUp" (ReceiverDeviceData deviceInfo)))
  | receiverDeviceDown deviceId =>
      forEach (activeInstances s) (λ i,
        instance ← getObj i;
        postMessage (contentPort instance)
          (mkMessage "cast:receiverDeviceDown" (ReceiverDeviceIdData deviceId)))
  | receiverDeviceUpdated _ _ => mret tt
  end.

(** ** loadSender *)

Definition tabs_executeScript (env : Env)
    (tabId : TabId) (frameId : option FrameId) (what : Injection) : M unit :=
  emit (EExecuteScript tabId frameId what) ;;
  await (executeScript env tabId frameId what).

(** The text of an optional number inside a template literal. *)
Definition show_optional (n : option nat) : string :=
  match n with
  | Some k => pretty k
  | None => "undefined"
  end.

Definition show_optional_string (x : option string) : string :=
  match x with
  | Some v => v
  | None => "undefined"
  end.

(** [new URL(text)]: the constructor throws a [TypeError] when [text] does
    not parse. *)
Definition new_URL (env : Env) (text : string) : M string :=
  match newURL env text with
  | Some href => mret href
  | None => throw "TypeError: URL constructor: not a valid URL"
  end.

(** [EMediaInit href receiver] stands for the call of the media sender's
    [init]. *)
Definition loadSender (env : Env) (tabId : TabId) (frameId : option FrameId)
    (selection : option ReceiverSelection) : M unit :=
  match selection with
  | None => mret tt
  | Some (ReceiverSelectionStop _) => mret tt
  | Some (ReceiverSelectionCast receiverDevice mediaType filePath) =>
      match mediaType with
      | App =>
          s ← get;
          match getInstance tabId frameId s with
          | None =>
              throw_logger_error
                ("Cast instance not found at tabId " +:+ pretty tabId
                 +:+ " / frameId " +:+ show_optional frameId)
          | Some i =>
              instance ← getObj i;
              postMessage (contentPort instance)
                (mkMessage "cast:launchApp" (ReceiverDeviceData receiverDevice))
          end
      | Tab | Screen =>
          tabs_executeScript env tabId frameId (InjectCode mediaType receiverDevice) ;;
          tabs_executeScript env tabId frameId (InjectFile "cast/senders/mirroring.js")
      | File =>
          href ← new_URL env ("file://" +:+ show_optional_string filePath);
          await (importMediaSender env) ;;
          emit (EMediaInit href receiverDevice)
      end
  end.

(** ** handleContentMessage *)

Definition cancelled : Message :=
  mkMessage "cast:selectReceiver/cancelled" NoData.

(** The [switch] on [message.subject].  A subject of the table comes with
    its own payload shape ([Message] in [messaging.ts]).  When the message
    has no [data] at all, [message.data.appId] throws, and so does
    [message.data.sessionRequest], which is read inside the [try] block.  A
    payload that has the shape of another subject is not a message of the
    table; for it the model falls through. *)
Definition handleLocally (env : Env) (i : InstRef) (instance : CastInstance)
    (message : Message) : M unit :=
  if String.eqb (subject message) "main:initializeCast" then
    match data message with
    | InitializeCastData appId =>
        modify (λ s, set_heap (alter (with_appId (Some appId)) i (heap s)) s) ;;
        s ← get;
        forEach (getDevices s) (λ receiverDevice,
          postMessage (contentPort instance)
            (mkMessage "cast:receiverDeviceUp" (ReceiverDeviceData receiverDevice)))
    | NoData => missing_data
    | _ => mret tt
    end
  else if String.eqb (subject message) "main:selectReceiver" then
    match contentTabId instance, contentFrameId instance with
    | Some tabId, Some frameId =>
        match data message with
        | SelectReceiverData sessionRequest =>
            tryCatch
              (selection ← await (getSelection env tabId frameId sessionRequest);
               match selection with
               | None => postMessage (contentPort instance) cancelled
               | Some (ReceiverSelectionCast receiverDevice mediaType filePath as sel) =>
                   match mediaType with
                   | App =>
                       postMessage (contentPort instance)
                         (mkMessage "cast:selectReceiver/selected" (SelectionData sel))
                   | _ =>
                       postMessage (contentPort instance) cancelled ;;
                       notAwaited (loadSender env tabId (Some frameId) (Some sel))
                   end
               | Some (ReceiverSelectionStop _ as sel) =>
                   postMessage (contentPort instance)
                     (mkMessage "cast:selectReceiver/stopped" (SelectionData sel))
               end)
              (postMessage (contentPort instance) cancelled)
        | NoData =>
            tryCatch missing_data (postMessage (contentPort instance) cancelled)
        | _ => mret tt
        end
    | _, _ =>
        throw_logger_error
          "Cast instance associated with content sender missing tab/frame ID"
    end
  else if String.eqb (subject message) "main:closeReceiverSelector" then
    if selectorIsOpen env && receiverSelectorWaitForConnection env
    then emit ESelectorClose
    else mret tt
  else mret tt.

Definition handleContentMessage (env : Env) (i : InstRef) (message : Message) : M unit :=
  instance ← getObj i;
  (if String.eqb (destination (subject message)) "bridge"
   then postMessage (bridgePort instance) message
   else mret tt) ;;
  handleLocally env i instance message.

(** ** Listeners as they are called by the browser *)

Definition forwardToContent (i : InstRef) (message : Message) : M unit :=
  instance ← getObj i;
  postMessage (contentPort instance) message.

Definition runMessageListener (env : Env) (l : Listener) (message : Message) : M unit :=
  match l with
  | ContentPortMessageListener i => notAwaited (handleContentMessage env i message)
  | BgContentMessageListener i => notAwaited (handleContentMessage env i message)
  | BridgePortMessageListener i => forwardToContent i message
  | BgBridgeMessageListener i => forwardToContent i message
  | RegistryMessageListener => onBridgeMessage message
  | _ => mret tt
  end.

Definition runDisconnectListener (l : Listener) : M unit :=
  match l with
  | DisconnectListener i => onDisconnect i
  | BgBridgeDisconnectListener i =>
      instance ← getObj i;
      close (contentPort instance) ;;
      modify (λ s, set_activeInstances (Set_delete i (activeInstances s)) s)
  | RegistryDisconnectListener => onBridgeDisconnect
  | _ => mret tt
  end.

(** A message arrives on port [p]: its message listeners run in the order in
    which they were added.  An exception that leaves a listener is reported
    by the browser and does not stop the others. *)
Definition deliverMessage (env : Env) (p : PortId) (message : Message) : M unit :=
  s ← get;
  forEach (onMessageListeners (portInfo p s))
    (λ l, notAwaited (runMessageListener env l message)).

(** The other end of port [p] went away: the port is disconnected and its
    disconnect listeners run. *)
Definition deliverDisconnect (p : PortId) : M unit :=
  alterPort (with_connected false) p ;;
  s ← get;
  forEach (onDisconnectListeners (portInfo p s))
    (λ l, notAwaited (runDisconnectListener l)).

(** ** Runs of the background page *)
Inductive Event :=
| InitDeviceManager
| IncomingConnection (name : string) (tab : option TabId) (frame : option FrameId)
| BackgroundInstance
| PortMessage (p : PortId) (m : Message)
| PortDisconnected (p : PortId)
| ClockAdvances (t : N).

Definition step (env : Env) (ev : Event) : M unit :=
  match ev with
  | InitDeviceManager => notAwaited init_deviceManager
  | IncomingConnection nm tab frame =>
      p ← newPort RuntimePort nm tab frame;
      onConnect env p
  | BackgroundInstance =>
      p ← newPort MessagePort "" None None;
      notAwaited (createInstance env p)
  | PortMessage p m => deliverMessage env p m
  | PortDisconnected p => deliverDisconnect p
  | ClockAdvances t => advanceTo t
  end.

Definition exec {A} (m : M A) (s : State) : State := snd (m s).

Inductive reachable : State → Prop :=
| reachable_init : reachable initialState
| reachable_step env ev s : reachable s → reachable (exec (step env ev) s).

(** ** Calls of [createInstance] that overlap

    [createInstance], [createInstanceFromContent] and
    [createInstanceFromBackground] are [async]: a call runs up to its next
    [await] and gives the control back, and the browser may run any other
    handler, also the beginning of another call, before it goes on.  The
    calls have three [await]s on their way: [await bridge.connect()] in the
    two functions that make the instance, the [await] of the instance in
    [createInstance] before it is added to the live set, and
    [await bridge.getInfo()].  A call that has given the control back is a
    [Waiting] value: the [await] it is at, with the local variables that the
    rest of the function reads. *)
Inductive Waiting :=
| ContentAwaitsBridge (content bridge : PortId) (tabId : TabId) (frameId : FrameId)
| BackgroundAwaitsBridge (content bridge : PortId)
| AwaitsInstance (instance : InstRef)
| AwaitsInfo (instance : InstRef) (content : PortId).

(** [createInstanceFromContent] up to [await bridge.connect()]: the check of
    the sender, the loop over the live set and the call of [bridge.connect],
    which makes the port it will resolve to. *)
Definition createInstanceFromContent_begin (contentPort : PortId) : M Waiting :=
  s ← get;
  match senderTabId (portInfo contentPort s), senderFrameId (portInfo contentPort s) with
  | Some tabId, Some frameId =>
      disconnectExisting tabId frameId ;;
      bp ← bridge_connect;
      mret (ContentAwaitsBridge contentPort bp tabId frameId)
  | _, _ =>
      throw_logger_error
        "Cast instance created from content with an invalid port context."
  end.

(** [createInstanceFromContent] from the bridge port to [return instance]. *)
Definition createInstanceFromContent_rest (contentPort bp : PortId)
    (tabId : TabId) (frameId : FrameId) : M InstRef :=
  i ← newObj (mkInstance bp contentPort (Some tabId) (Some frameId) None);
  onDisconnect_addListener bp (DisconnectListener i) ;;
  onMessage_addListener bp (BridgePortMessageListener i) ;;
  onDisconnect_addListener contentPort (DisconnectListener i) ;;
  onMessage_addListener contentPort (ContentPortMessageListener i) ;;
  mret i.

Definition createInstanceFromBackground_begin (contentPort : PortId) : M Waiting :=
  bp ← bridge_connect;
  mret (BackgroundAwaitsBridge contentPort bp).

Definition createInstanceFromBackground_rest (contentPort bp : PortId) : M InstRef :=
  i ← newObj (mkInstance bp contentPort None None None);
  onDisconnect_addListener bp (BgBridgeDisconnectListener i) ;;
  onMessage_addListener bp (BgBridgeMessageListener i) ;;
  onMessage_addListener contentPort (BgContentMessageListener i) ;;
  mret i.

(** [createInstance] up to its first [await]. *)
Definition createInstance_begin (port : PortId) : M Waiting :=
  s ← get;
  match kind (portInfo port s) with
  | MessagePort => createInstanceFromBackground_begin port
  | RuntimePort => createInstanceFromContent_begin port
  end.

(** [createInstance] from the instance to [await bridge.getInfo()]: the
    instance joins the live set, and [instance.contentPort] is read for the
    call of [postMessage] whose argument is awaited. *)
Definition createInstance_add (i : InstRef) : M Waiting :=
  modify (λ s, set_activeInstances (Set_add i (activeInstances s)) s) ;;
  instance ← getObj i;
  mret (AwaitsInfo i (contentPort instance)).

(** [createInstance] from the answer of [bridge.getInfo()] to its end. *)
Definition createInstance_finish (env : Env) (i : InstRef) (cp : PortId) : M InstRef :=
  info ← await (getInfo env);
  postMessage cp (mkMessage "cast:initialized" (BridgeInfoData info)) ;;
  mret i.

(** A waiting call goes on to its next [await], or to its end. *)
Definition resume (env : Env) (w : Waiting) : M (list Waiting) :=
  match w with
  | ContentAwaitsBridge cp bp tabId frameId =>
      i ← createInstanceFromContent_rest cp bp tabId frameId;
      mret [AwaitsInstance i]
  | BackgroundAwaitsBridge cp bp =>
      i ← createInstanceFromBackground_rest cp bp;
      mret [AwaitsInstance i]
  | AwaitsInstance i =>
      w ← createInstance_add i;
      mret [w]
  | AwaitsInfo i cp =>
      createInstance_finish env i cp ;;
      mret []
  end.

(** The listener of [messaging.onConnect], up to the first [await] of the
    call of [createInstance] that it makes. *)
Definition onConnect_begin (port : PortId) : M (list Waiting) :=
  s ← get;
  if String.eqb (name (portInfo port s)) "cast"
  then w ← createInstance_begin port; mret [w]
  else mret [].

(** The background page with the calls of [createInstance] that wait. *)
Record Page := mkPage {
  st : State;
  waiting : list Waiting
}.

(** What the browser runs next: the handlers of an event, followed to their
    end as in [step]; a connection or a page of the extension that asks for
    an instance, handled up to the first [await] of [createInstance]; or the
    [n]-th waiting call, which goes on to its next [await]. *)
Inductive Turn :=
| Handles (ev : Event)
| ConnectionArrives (name : string) (tab : option TabId) (frame : option FrameId)
| BackgroundConnects
| Resumes (n : nat).

(** The page after [m] has run in place of one waiting call: the calls that
    [m] leaves waiting take the place between the others.  When [m] throws,
    its promise is rejected, which nobody looks at, and nothing waits in its
    place. *)
Definition settle (m : M (list Waiting)) (before after : list Waiting) (s : State) : Page :=
  match m s with
  | (Ok ws, s') => mkPage s' (before ++ ws ++ after)
  | (Throw _, s') => mkPage s' (before ++ after)
  end.

Definition turn (env : Env) (t : Turn) (pg : Page) : Page :=
  match t with
  | Handles ev => mkPage (exec (step env ev) (st pg)) (waiting pg)
  | ConnectionArrives nm tab frame =>
      settle (p ← newPort RuntimePort nm tab frame; onConnect_begin p)
        (waiting pg) [] (st pg)
  | BackgroundConnects =>
      settle (p ← newPort MessagePort "" None None;
              w ← createInstance_begin p;
              mret [w])
        (waiting pg) [] (st pg)
  | Resumes n =>
      match waiting pg !! n with
      | Some w => settle (resume env w) (take n (waiting pg)) (drop (S n) (waiting pg)) (st pg)
      | None => pg
      end
  end.

Definition turns (env : Env) (ts : list Turn) (pg : Page) : Page :=
  foldl (λ pg t, turn env t pg) pg ts.

(** The pages that a run of the background page leads to, whatever the order
    in which the browser lets the handlers and the waiting calls run.  The
    other [async] functions of the two managers ([refresh],
    [handleContentMessage], [loadSender]) are followed to their end by
    [Handles]: after their first [await] they touch neither the live set nor
    an instance nor the ports of an instance. *)
Inductive interleaved : Page → Prop :=
| interleaved_init : interleaved (mkPage initialState [])
| interleaved_turn env t pg : interleaved pg → interleaved (turn env t pg).

(** * index.ts *)

(** index.ts: the listener of [browser.browserAction.onClicked].  [tabId] is
    [tab.id]; [answer] is what [selectorManager.getSelection(tab.id)] resolves
    to. *)
Definition onBrowserActionClicked (env : Env) (tabId : option TabId)
    (answer : Answer (option ReceiverSelection)) : M unit :=
  match tabId with
  | None => logger_error "Tab ID not found in browser action handler."
  | Some tabId =>
      selection ← await answer;
      match selection with
      | Some _ => notAwaited (loadSender env tabId (Some 0) selection)
      | None => mret tt
      end
  end.

(** * Vocabulary of the statements *)

(** ** The registry against the merge rules of the specification *)

(** The events that the bridge reports to the registry. *)
Inductive RegistryUpdate :=
| DeviceUp (deviceId : string) (deviceInfo : ReceiverDevice)
| DeviceDown (deviceId : string)
| DeviceStatusUpdated (deviceId : string) (update : ReceiverStatus).

Definition message_of (u : RegistryUpdate) : Message :=
  match u with
  | DeviceUp deviceId deviceInfo =>
      mkMessage "main:receiverDeviceUp" (DeviceUpData deviceId deviceInfo)
  | DeviceDown deviceId =>
      mkMessage "main:receiverDeviceDown" (DeviceDownData deviceId)
  | DeviceStatusUpdated deviceId update =>
      mkMessage "main:receiverDeviceStatusUpdated" (DeviceStatusData deviceId update)
  end.

(** The registry handles the reported events one after the other. *)
Definition feed (us : list RegistryUpdate) : M unit :=
  forEach us (λ u, onBridgeMessage (message_of u)).

(** The merge rules as section 4.1 words them, on a finite map from device
    id to device: the three scalar fields are merged into the stored status,
    [applications] is replaced only when the update provides it and the prior
    list is kept otherwise. *)
Definition spec_mergeStatus (stored : option ReceiverStatus) (update : ReceiverStatus)
    : ReceiverStatus :=
  mkStatus (isActiveInput update) (isStandBy update) (volume update)
    (match applications update with
     | Some apps => Some apps
     | None => stored ≫= applications
     end).

Definition spec_rule (table : gmap string ReceiverDevice) (u : RegistryUpdate)
    : gmap string ReceiverDevice :=
  match u with
  | DeviceUp deviceId deviceInfo => <[deviceId := deviceInfo]> table
  | DeviceDown deviceId => delete deviceId table
  | DeviceStatusUpdated deviceId update =>
      match table !! deviceId with
      | Some device =>
          <[deviceId := mkDevice (id device)
                              (Some (spec_mergeStatus (status device) update))]> table
      | None => table
      end
  end.

Definition spec_replay (us : list RegistryUpdate) : gmap string ReceiverDevice :=
  foldl spec_rule ∅ us.

Definition table (s : State) : gmap string ReceiverDevice :=
  list_to_map (receiverDevices s).

(** ** Messages and logs *)

Definition stopCastSession (receiverDevice : ReceiverDevice) : Message :=
  mkMessage "bridge:stopCastSession" (ReceiverDeviceData receiverDevice).

Definition startDiscovery : Message :=
  mkMessage "bridge:startDiscovery" (StartDiscoveryData true).

Definition receiverDeviceUpMessage (receiverDevice : ReceiverDevice) : Message :=
  mkMessage "cast:receiverDeviceUp" (ReceiverDeviceData receiverDevice).

Definition launchApp (receiverDevice : ReceiverDevice) : Message :=
  mkMessage "cast:launchApp" (ReceiverDeviceData receiverDevice).

Definition initialized (info : BridgeInfo) : Message :=
  mkMessage "cast:initialized" (BridgeInfoData info).

Definition mirroringSender : Injection := InjectFile "cast/senders/mirroring.js".

(** The bridge ports opened so far, oldest first. *)
Definition opened (l : list Effect) : list PortId :=
  omap (λ e, match e with EConnect p => Some p | _ => None end) l.

(** What [loadSender] leaves in the log for a cast selection whose media type
    is not App. *)
Definition activation (env : Env) (tabId : TabId) (frameId : option FrameId)
    (device : ReceiverDevice) (mediaType : ReceiverSelectorMediaType)
    (filePath : option string) : list Effect :=
  match mediaType with
  | App => []
  | Tab | Screen =>
      EExecuteScript tabId frameId (InjectCode mediaType device)
      :: match executeScript env tabId frameId (InjectCode mediaType device) with
         | Fulfilled _ => [EExecuteScript tabId frameId mirroringSender]
         | Rejected => []
         end
  | File =>
      match newURL env ("file://" +:+ show_optional_string filePath),
            importMediaSender env with
      | Some href, Fulfilled _ => [EMediaInit href device]
      | _, _ => []
      end
  end.

Definition appSelection (device : ReceiverDevice) (filePath : option string)
    : option ReceiverSelection :=
  Some (ReceiverSelectionCast device App filePath).

Definition receiverDeviceDownMessage (deviceId : string) : Message :=
  mkMessage "cast:receiverDeviceDown" (ReceiverDeviceIdData deviceId).

Definition invalidPortContext : string :=
  "Cast instance created from content with an invalid port context.".

Definition missingTabOrFrame : string :=
  "Cast instance associated with content sender missing tab/frame ID".

Definition tabIdNotFound : string := "Tab ID not found in browser action handler.".

(** The objects of the live set, in the order of the set. *)
Definition liveInstances (s : State) : list CastInstance :=
  omap (λ i, heap s !! i) (activeInstances s).

(** The one reply to a [main:selectReceiver] request, by what the selection
    workflow resolves to. *)
Definition selectReceiver_reply (answer : Answer (option ReceiverSelection)) : Message :=
  match answer with
  | Fulfilled (Some (ReceiverSelectionCast _ App _ as selection)) =>
      mkMessage "cast:selectReceiver/selected" (SelectionData selection)
  | Fulfilled (Some (ReceiverSelectionStop _ as selection)) =>
      mkMessage "cast:selectReceiver/stopped" (SelectionData selection)
  | _ => cancelled
  end.

(** ** Three claims as the specification words them *)

(** The claim as the specification words it: a known device gets the stop
    request on the upstream port, an unknown one gets nothing sent and one
    error logged; the call returns and the table stays as it is. *)
Definition stopReceiverApp_as_specified (s : State) (deviceId : string) : Prop :=
  let s' := exec (stopReceiverApp deviceId) s in
  fst (stopReceiverApp deviceId s) = Ok tt
  ∧ receiverDevices s' = receiverDevices s
  ∧ match Map_get deviceId (receiverDevices s) with
    | Some device =>
        ∃ p, dmBridgePort s = Some p
             ∧ log s' = log s ++ [EPostMessage p (stopCastSession device)]
    | None => ∃ msg, log s' = log s ++ [ELogError msg]
    end.

(** Instance [i] is recorded at exactly the given tab id and frame id. *)
Definition recorded_at (s : State) (tabId : TabId) (frameId : option FrameId)
    (i : InstRef) : Prop :=
  ∃ instance, heap s !! i = Some instance
              ∧ contentTabId instance = Some tabId
              ∧ contentFrameId instance = frameId.

(** The App path as the specification words it: the instance of the live
    set whose recorded pair equals the given one gets [cast:launchApp]; when
    there is none, the call fails. *)
Definition loadSender_App_as_specified (env : Env) (s : State)
    (tabId : TabId) (frameId : option FrameId)
    (device : ReceiverDevice) (filePath : option string) : Prop :=
  let run := loadSender env tabId frameId (appSelection device filePath) s in
  ((∀ i, i ∈ activeInstances s → ¬ recorded_at s tabId frameId i) →
   ∃ msg, fst run = Throw msg)
  ∧ (∀ i, i ∈ activeInstances s → recorded_at s tabId frameId i →
     ∃ j instance, j ∈ activeInstances s ∧ recorded_at s tabId frameId j
                   ∧ heap s !! j = Some instance
                   ∧ run = (Ok tt, set_log (log s ++ [EPostMessage (contentPort instance)
                                                        (launchApp device)]) s)).

(** Instance [i] is recorded at tab [tabId], frame [frameId]. *)
Definition occupies (s : State) (tabId : TabId) (frameId : FrameId) (i : InstRef) : Prop :=
  ∃ instance, heap s !! i = Some instance
              ∧ contentTabId instance = Some tabId
              ∧ contentFrameId instance = Some frameId.

(** The invariant as the specification words it. *)
Definition one_instance_per_frame (s : State) : Prop :=
  ∀ i j tabId frameId,
    i ∈ activeInstances s → j ∈ activeInstances s →
    occupies s tabId frameId i → occupies s tabId frameId j → i = j.

(** ** The states that single functions lead to *)

(** The state in which [refresh] leaves the registry. *)
Definition refreshed (s : State) : State :=
  let p := nextPort s in
  let closed := match dmBridgePort s with
                | Some old => alter (with_connected false) old (ports s)
                | None => ports s
                end in
  set_log (log s
           ++ match dmBridgePort s with Some old => [EDisconnect old] | None => [] end
           ++ [EConnect p; EPostMessage p startDiscovery])
    (set_ports (<[p := mkPort RuntimePort "bridge" None None true
                         [RegistryMessageListener] [RegistryDisconnectListener]]> closed)
       (set_nextPort (S p)
          (set_dmBridgePort (Some p) (set_receiverDevices [] s)))).

Definition without_connection (p : PortState) : PortState := with_connected false p.

Definition without_listener (l : Listener) (p : PortState) : PortState :=
  with_onMessage (removeL l (onMessageListeners p)) p.

(** The ports after the teardown closure of instance [i] has run. *)
Definition torn_ports (i : InstRef) (instance : CastInstance)
    (m : gmap PortId PortState) : gmap PortId PortState :=
  alter without_connection (contentPort instance)
    (alter without_connection (bridgePort instance)
       (alter (without_listener (ContentPortMessageListener i)) (contentPort instance)
          (alter (without_listener (BridgePortMessageListener i)) (bridgePort instance) m))).

Definition torn_down (i : InstRef) (instance : CastInstance) (s : State) : State :=
  set_activeInstances (Set_delete i (activeInstances s))
    (set_ports (torn_ports i instance (ports s))
       (set_log (log s ++ [EDisconnect (bridgePort instance);
                           EDisconnect (contentPort instance)]) s)).

(** What the teardown of instance [i] does to the port named [p]. *)
Definition tear (i : InstRef) (instance : CastInstance) (p : PortId)
    (ps : PortState) : PortState :=
  let ps := if decide (bridgePort instance = p)
            then without_listener (BridgePortMessageListener i) ps else ps in
  let ps := if decide (contentPort instance = p)
            then without_listener (ContentPortMessageListener i) ps else ps in
  let ps := if decide (bridgePort instance = p) then without_connection ps else ps in
  if decide (contentPort instance = p) then without_connection ps else ps.

(** Instance [i] is at the given tab and, when a frame id is asked for, at
    that frame. *)
Definition located (s : State) (tabId : TabId) (frameId : option FrameId)
    (i : InstRef) : Prop :=
  ∃ instance, heap s !! i = Some instance
              ∧ contentTabId instance = Some tabId
              ∧ match frameId with
                | Some f => contentFrameId instance = Some f
                | None => True
                end.

(** The instances of the live set that are recorded at the given tab and
    frame, in the order of the set. *)
Definition occupants (s : State) (tabId : TabId) (frameId : FrameId) : list CastInstance :=
  filter (λ instance, contentTabId instance = Some tabId
                      ∧ contentFrameId instance = Some frameId)
    (omap (λ i, heap s !! i) (activeInstances s)).

Definition disconnected (p : PortId) (s : State) : State :=
  set_ports (alter without_connection p (ports s))
    (set_log (log s ++ [EDisconnect p]) s).

Definition all_disconnected (l : list CastInstance) (s : State) : State :=
  foldl (λ s instance, disconnected (bridgePort instance) s) s l.

(** The ports after [createInstanceFromContent] has made instance [i] with
    bridge port [bp] on content port [cp]. *)
Definition wired_ports (i : InstRef) (bp cp : PortId) (m : gmap PortId PortState)
    : gmap PortId PortState :=
  alter (λ ps, with_onMessage
                 (addL (ContentPortMessageListener i) (onMessageListeners ps)) ps) cp
    (alter (λ ps, with_onDisconnect
                    (addL (DisconnectListener i) (onDisconnectListeners ps)) ps) cp
       (alter (λ ps, with_onMessage
                       (addL (BridgePortMessageListener i) (onMessageListeners ps)) ps) bp
          (alter (λ ps, with_onDisconnect
                          (addL (DisconnectListener i) (onDisconnectListeners ps)) ps) bp
             (<[bp := mkPort RuntimePort "bridge" None None true [] []]> m)))).

(** The state in which [createInstance] leaves a content port with sender
    tab [tabId] and frame [frameId]. *)
Definition created_from_content (env : Env) (contentPort : PortId)
    (tabId : TabId) (frameId : FrameId) (s : State) : State :=
  let s0 := all_disconnected (occupants s tabId frameId) s in
  set_log (log s0 ++ EConnect (nextPort s)
             :: match getInfo env with
                | Fulfilled info => [EPostMessage contentPort (initialized info)]
                | Rejected => []
                end)
    (set_activeInstances (Set_add (nextRef s) (activeInstances s))
       (set_ports (wired_ports (nextRef s) (nextPort s) contentPort (ports s0))
          (set_nextPort (S (nextPort s))
             (set_nextRef (S (nextRef s))
                (set_heap (<[nextRef s := mkInstance (nextPort s) contentPort
                                            (Some tabId) (Some frameId) None]> (heap s))
                   s0))))).

Definition port_added (ps : PortState) (s : State) : State :=
  set_nextPort (S (nextPort s)) (set_ports (<[nextPort s := ps]> (ports s)) s).

(** The state in which [createInstance] leaves a [MessagePort]. *)
Definition created_from_background (env : Env) (cp : PortId) (s : State) : State :=
  let bp := nextPort s in
  let i := nextRef s in
  set_log (log s ++ EConnect bp
             :: match getInfo env with
                | Fulfilled info => [EPostMessage cp (initialized info)]
                | Rejected => []
                end)
    (set_activeInstances (Set_add i (activeInstances s))
       (set_ports
          (alter (λ ps, with_onMessage
                          (addL (BgContentMessageListener i) (onMessageListeners ps)) ps) cp
             (<[bp := mkPort RuntimePort "bridge" None None true
                        [BgBridgeMessageListener i] [BgBridgeDisconnectListener i]]>
                (ports s)))
          (set_nextPort (S bp)
             (set_nextRef (S i)
                (set_heap (<[i := mkInstance bp cp None None None]> (heap s)) s))))).

(** ** Well-formed states and steps that keep them *)

(** What every run from the initial state keeps true: identifiers beyond
    the two counters are unused, the live set has no duplicates and holds
    allocated instances whose ports are allocated, and each live instance
    made by [createInstanceFromContent] has its teardown closure as the one
    disconnect listener of both of its ports. *)
Record wf (s : State) : Prop := mk_wf {
  wf_ports_fresh : ∀ p, nextPort s ≤ p → ports s !! p = None;
  wf_heap_fresh : ∀ i, nextRef s ≤ i → heap s !! i = None;
  wf_nodup : NoDup (activeInstances s);
  wf_live : ∀ i, i ∈ activeInstances s → is_Some (heap s !! i);
  wf_instance_ports : ∀ i instance, heap s !! i = Some instance →
      bridgePort instance < nextPort s ∧ contentPort instance < nextPort s;
  wf_wired : ∀ i instance,
      i ∈ activeInstances s → heap s !! i = Some instance →
      is_Some (contentTabId instance) →
      onDisconnectListeners (portInfo (bridgePort instance) s) = [DisconnectListener i]
      ∧ onDisconnectListeners (portInfo (contentPort instance) s) = [DisconnectListener i]
}.

(** The fields of an instance that are set once, at its creation. *)
Definition shape (c : CastInstance) : PortId * PortId * option TabId * option FrameId :=
  (bridgePort c, contentPort c, contentTabId c, contentFrameId c).

(** [evolves s s']: from [s] to [s'] no port and no instance was made, no
    disconnect listener was added or removed, no instance changed its ports,
    tab or frame, and no instance joined the live set. *)
Record evolves (s s' : State) : Prop := mk_evolves {
  ev_nextPort : nextPort s' = nextPort s;
  ev_nextRef : nextRef s' = nextRef s;
  ev_ports : ∀ p, ports s' !! p = None ↔ ports s !! p = None;
  ev_listeners : ∀ p, onDisconnectListeners (portInfo p s')
                      = onDisconnectListeners (portInfo p s);
  ev_heap : ∀ i, shape <$> heap s' !! i = shape <$> heap s !! i;
  ev_live : activeInstances s' `sublist_of` activeInstances s
}.

Definition frames {A} (m : M A) : Prop := ∀ s, evolves s (m s).2.

Definition preserves {A} (P : State → Prop) (m : M A) : Prop :=
  ∀ s, P s → P (m s).2.

(** Which listener hears which port. *)
Record routed (s : State) : Prop := mk_routed {
  routed_registry : ∀ p, dmBridgePort s = Some p →
      p < nextPort s
      ∧ onMessageListeners (portInfo p s) = [RegistryMessageListener]
      ∧ onDisconnectListeners (portInfo p s) = [RegistryDisconnectListener];
  routed_content : ∀ i instance,
      i ∈ activeInstances s → heap s !! i = Some instance →
      is_Some (contentTabId instance) →
      onMessageListeners (portInfo (bridgePort instance) s) = [BridgePortMessageListener i]
      ∧ onMessageListeners (portInfo (contentPort instance) s)
        = [ContentPortMessageListener i];
  routed_background : ∀ i instance,
      heap s !! i = Some instance → contentTabId instance = None →
      onMessageListeners (portInfo (bridgePort instance) s) = [BgBridgeMessageListener i]
      ∧ onMessageListeners (portInfo (contentPort instance) s) = [BgContentMessageListener i]
      ∧ onDisconnectListeners (portInfo (bridgePort instance) s)
        = [BgBridgeDisconnectListener i]
}.

(** [still s s']: [s'] comes from [s] as [evolves] has it, and in addition
    the registry has kept its port and no message listener was added or
    removed. *)
Record still (s s' : State) : Prop := mk_still {
  still_evolves : evolves s s';
  still_registry : dmBridgePort s' = dmBridgePort s;
  still_listeners : ∀ p, onMessageListeners (portInfo p s')
                         = onMessageListeners (portInfo p s)
}.

Definition steady {A} (m : M A) : Prop := ∀ s, still s (m s).2.

(** A state that is well formed and in which every port has its listeners. *)
Definition sound (s : State) : Prop := wf s ∧ routed s.

(** [respects R m]: whatever the state, [m] leads to a state that [R]
    relates to it. *)
Definition respects (R : State → State → Prop) {A} (m : M A) : Prop :=
  ∀ s, R s (m s).2.

(** [s'] differs from [s] at most in the log, which has grown, and in the
    application ids of the instances. *)
Record same_but_log_and_appId (s s' : State) : Prop := mk_same_but_log_and_appId {
  sl_receiverDevices : receiverDevices s' = receiverDevices s;
  sl_dmBridgePort : dmBridgePort s' = dmBridgePort s;
  sl_activeInstances : activeInstances s' = activeInstances s;
  sl_nextRef : nextRef s' = nextRef s;
  sl_ports : ports s' = ports s;
  sl_nextPort : nextPort s' = nextPort s;
  sl_now : now s' = now s;
  sl_timers : timers s' = timers s;
  sl_heap : ∀ i, shape <$> heap s' !! i = shape <$> heap s !! i;
  sl_log : log s `prefix_of` log s'
}.

(** [s'] differs from [s] at most in the table of the registry and in the
    log, which has grown. *)
Record same_but_table_and_log (s s' : State) : Prop := mk_same_but_table_and_log {
  st_dmBridgePort : dmBridgePort s' = dmBridgePort s;
  st_activeInstances : activeInstances s' = activeInstances s;
  st_heap : heap s' = heap s;
  st_nextRef : nextRef s' = nextRef s;
  st_ports : ports s' = ports s;
  st_nextPort : nextPort s' = nextPort s;
  st_now : now s' = now s;
  st_timers : timers s' = timers s;
  st_log : log s `prefix_of` log s'
}.

(** An outgoing call that concerns the given instance alone: a message on
    one of its two ports, a script for its tab and frame, or a call that names
    no port and no tab at all. *)
Definition own_effect (instance : CastInstance) (e : Effect) : Prop :=
  match e with
  | EPostMessage p _ => p = bridgePort instance ∨ p = contentPort instance
  | EExecuteScript tabId frameId _ =>
      contentTabId instance = Some tabId ∧ contentFrameId instance = frameId
  | EMediaInit _ _ | ESelectorClose | ELogError _ => True
  | EDisconnect _ | EClose _ | EConnect _ | EDispatch _ | ESetTimeout _ => False
  end.

(** [s'] has the log of [s] followed by calls that all satisfy [P]. *)
Definition grows_by (P : Effect → Prop) (s s' : State) : Prop :=
  ∃ l, log s' = log s ++ l ∧ ∀ e, e ∈ l → P e.

(** ** Pages with waiting calls *)

(** The ports that a waiting call will put its disconnect listeners on, and
    that its instance will have. *)
Definition claims (w : Waiting) : list PortId :=
  match w with
  | ContentAwaitsBridge cp bp _ _ => [cp; bp]
  | BackgroundAwaitsBridge cp bp => [cp; bp]
  | AwaitsInstance _ | AwaitsInfo _ _ => []
  end.

(** What a waiting call finds when it goes on: the two ports of a content
    script's instance have no disconnect listener yet; an instance that was
    made is in the heap, and when it carries a tab id its teardown closure is
    the one disconnect listener of both of its ports. *)
Definition waits_well (s : State) (w : Waiting) : Prop :=
  match w with
  | ContentAwaitsBridge cp bp _ _ =>
      onDisconnectListeners (portInfo cp s) = []
      ∧ onDisconnectListeners (portInfo bp s) = []
  | BackgroundAwaitsBridge _ _ => True
  | AwaitsInstance i =>
      ∃ instance, heap s !! i = Some instance
        ∧ (is_Some (contentTabId instance) →
           onDisconnectListeners (portInfo (bridgePort instance) s) = [DisconnectListener i]
           ∧ onDisconnectListeners (portInfo (contentPort instance) s)
             = [DisconnectListener i])
  | AwaitsInfo _ _ => True
  end.

(** A well-formed page: the state is well formed, every waiting call finds
    what it relies on, and the ports that the waiting calls have claimed are
    there, are claimed once and belong to no instance. *)
Record page_wf (pg : Page) : Prop := mk_page_wf {
  pw_state : wf (st pg);
  pw_waiting : ∀ w, w ∈ waiting pg → waits_well (st pg) w;
  pw_allocated : ∀ p, p ∈ waiting pg ≫= claims → is_Some (ports (st pg) !! p);
  pw_apart : NoDup (waiting pg ≫= claims);
  pw_unused : ∀ p i instance, p ∈ waiting pg ≫= claims →
      heap (st pg) !! i = Some instance →
      bridgePort instance ≠ p ∧ contentPort instance ≠ p
}.

(** [extends s s']: from [s] to [s'] the ports that were there are still
    there with the disconnect listeners they had, the instances that were
    there have kept their ports, tab and frame, and an instance that was
    made has ports that were made as well. *)
Record extends (s s' : State) : Prop := mk_extends {
  ext_nextPort : nextPort s ≤ nextPort s';
  ext_ports : ∀ p, is_Some (ports s !! p) → is_Some (ports s' !! p);
  ext_listeners : ∀ p, p < nextPort s →
      onDisconnectListeners (portInfo p s') = onDisconnectListeners (portInfo p s);
  ext_heap : ∀ i instance, heap s !! i = Some instance →
      shape <$> heap s' !! i = Some (shape instance);
  ext_new : ∀ i instance, heap s !! i = None → heap s' !! i = Some instance →
      nextPort s ≤ bridgePort instance ∧ nextPort s ≤ contentPort instance
}.

(** A step that keeps a well-formed state well formed and extends it. *)
Definition carries_on (s s' : State) : Prop := wf s → wf s' ∧ extends s s'.

(** The state in which a connection from a content script leaves the page
    when [createInstance] waits for the bridge port: the new port is there,
    the bridge ports of the instances at the sender's tab and frame are
    disconnected, and the bridge port of the new instance is asked for. *)
Definition arrived (tabId : TabId) (frameId : FrameId) (s : State) : State :=
  let s1 := port_added (mkPort RuntimePort "cast" (Some tabId) (Some frameId) true [] []) s in
  let s2 := all_disconnected (occupants s1 tabId frameId) s1 in
  set_log (log s2 ++ [EConnect (nextPort s2)])
    (port_added (mkPort RuntimePort "bridge" None None true [] []) s2).

Definition is_no_disconnect (e : Effect) : Prop := ∀ p, e ≠ EDisconnect p.

(** Nobody has left the live set. *)
Definition keeps_live (s s' : State) : Prop :=
  ∀ i, i ∈ activeInstances s → i ∈ activeInstances s'.

(** ** Sample runs *)

Definition dev_a : ReceiverDevice :=
  mkDevice "a" (Some (mkStatus (Some true) (Some false) 5%N (Some ["YouTube"]))).
Definition dev_b : ReceiverDevice := mkDevice "b" None.

Definition sample_updates : list RegistryUpdate :=
  [DeviceUp "a" dev_a; DeviceUp "b" dev_b;
   DeviceStatusUpdated "a" (mkStatus (Some false) (Some true) 7%N None);
   DeviceStatusUpdated "c" (mkStatus None None 1%N None);
   DeviceDown "b"; DeviceDown "z"].

Definition state_with_bare_device : State :=
  exec (feed [DeviceUp "b" dev_b]) (exec refresh initialState).

Definition registry_with_two_devices : State :=
  exec (feed [DeviceUp "a" dev_a; DeviceUp "b" dev_b]) (exec refresh initialState).

Definition quiet_env : Env :=
  mkEnv (λ _ _ _, Fulfilled None) false false
        (Fulfilled (mkBridgeInfo true false "0.1.0")) (λ _ _ _, Fulfilled tt)
        (λ text, Some text) (Fulfilled tt).

Definition one_instance_in_frame_5 : State :=
  exec (step quiet_env (IncomingConnection "cast" (Some 1) (Some 5))) initialState.

Definition page_with_devices : State :=
  exec (step quiet_env (IncomingConnection "cast" (Some 1) (Some 5)))
    registry_with_two_devices.

Definition tv : ReceiverDevice := mkDevice "tv" None.

(** The user picks tab mirroring on [tv] in the receiver selector. *)
Definition tab_mirroring_env : Env :=
  mkEnv (λ _ _ _, Fulfilled (Some (ReceiverSelectionCast tv Tab None))) false false
        (Fulfilled (mkBridgeInfo true false "0.1.0")) (λ _ _ _, Fulfilled tt)
        (λ text, Some text) (Fulfilled tt).

(** A URL parser that takes a file URL with an empty host and an absolute
    path as it is and refuses every other text. *)
Definition file_urls_only (text : string) : option string :=
  if String.prefix "file:///" text then Some text else None.

(** The user picks a local file in the receiver selector: one with a
    relative path, one with an absolute path. *)
Definition relative_path_env : Env :=
  mkEnv (λ _ _ _, Fulfilled (Some (ReceiverSelectionCast tv File (Some "my videos/a.mp4"))))
        false false
        (Fulfilled (mkBridgeInfo true false "0.1.0")) (λ _ _ _, Fulfilled tt)
        file_urls_only (Fulfilled tt).

Definition absolute_path_env : Env :=
  mkEnv (λ _ _ _, Fulfilled (Some (ReceiverSelectionCast tv File (Some "/home/me/a.mp4"))))
        false false
        (Fulfilled (mkBridgeInfo true false "0.1.0")) (λ _ _ _, Fulfilled tt)
        file_urls_only (Fulfilled tt).

(** The registry after [init]. *)
Definition registry_connected : State :=
  exec (step quiet_env InitDeviceManager) initialState.

(** A cast instance made for the extension's own page. *)
Definition background_page : State :=
  exec (step quiet_env BackgroundInstance) initialState.

Definition mirroring_fails_env : Env :=
  mkEnv (λ _ _ _, Fulfilled None) false false
        (Fulfilled (mkBridgeInfo true false "0.1.0")) (λ _ _ _, Rejected)
        (λ text, Some text) (Fulfilled tt).

Definition no_status : ReceiverStatus := mkStatus None None 1%N None.

Definition sessionStopped : Message := mkMessage "cast:sessionStopped" (OtherData "{}").

(** Two content scripts connect from tab 1, frame 0, the second one before
    the bridge port of the first one has come; then the first call goes on to
    its end, and then the second one. *)
Definition overlapping_connections : Page :=
  turns quiet_env
    [ConnectionArrives "cast" (Some 1) (Some 0);
     ConnectionArrives "cast" (Some 1) (Some 0);
     Resumes 0; Resumes 0; Resumes 0;
     Resumes 0; Resumes 0; Resumes 0]
    (mkPage initialState []).

(** One instance lives at tab 1, frame 5, and a connection from another tab
    waits for its bridge port. *)
Definition page_with_a_waiting_call : Page :=
  turns quiet_env
    [Handles (IncomingConnection "cast" (Some 1) (Some 5));
     ConnectionArrives "cast" (Some 2) (Some 0)]
    (mkPage initialState []).

(** * Proofs *)

(** ** The monad *)

Lemma exec_bind {A B} (m : M A) (k : A → M B) s :
  exec (m ≫= k) s =
  match m s with
  | (Ok a, s') => exec (k a) s'
  | (Throw _, s') => s'
  end.
Proof. unfold exec, mbind, M_bind, bind. by destruct (m s) as [[a|e] s']. Qed.

Lemma forEach_emit {A} (f : A → Effect) (l : list A) s :
  forEach l (λ x, emit (f x)) s = (Ok tt, set_log (log s ++ map f l) s).
Proof.
  revert s. induction l as [|x l IH]; intros s.
  - simpl. rewrite app_nil_r. by destruct s.
  - simpl. unfold mbind, M_bind, bind, emit at 1, modify. rewrite IH.
    destruct s; simpl. unfold set_log; simpl. by rewrite <- app_assoc.
Qed.

(** ** The ordered map as a finite map *)
Section JsMapFacts.
Context {V : Type}.
Implicit Types (m : list (string * V)) (k : string) (v : V).

Lemma Map_get_lookup k m :
  Map_get k m = (list_to_map m : gmap string V) !! k.
Proof.
  induction m as [|[k' v'] m IH]; simpl; [by rewrite lookup_empty|].
  case_decide; subst.
  - by rewrite lookup_insert_eq.
  - by rewrite lookup_insert_ne.
Qed.

Lemma Map_set_insert k v m :
  (list_to_map (Map_set k v m) : gmap string V) = <[k := v]> (list_to_map m).
Proof.
  induction m as [|[k' v'] m IH]; simpl; [done|].
  case_decide; subst; simpl.
  - by rewrite insert_insert_eq.
  - rewrite IH. by apply insert_insert_ne.
Qed.

Lemma Map_delete_delete k m :
  (list_to_map (Map_delete k m) : gmap string V) = delete k (list_to_map m).
Proof.
  unfold Map_delete.
  induction m as [|[k' v'] m IH]; simpl; [by rewrite delete_empty|].
  rewrite filter_cons. simpl. case_decide; simpl.
  - rewrite IH. by rewrite delete_insert_ne.
  - subst k'. rewrite IH. by rewrite delete_insert_eq.
Qed.

Lemma Map_set_keys k v m :
  (Map_set k v m).*1 = if decide (k ∈ m.*1) then m.*1 else m.*1 ++ [k].
Proof.
  induction m as [|[k' v'] m IH]; [done|].
  cbn [Map_set]. rewrite fmap_cons. cbn [fst].
  destruct (decide (k' = k)) as [->|Hne].
  - rewrite fmap_cons. rewrite decide_True; [done | by left].
  - rewrite fmap_cons, IH. cbn [fst].
    destruct (decide (k ∈ m.*1)).
    + rewrite decide_True; [done | by right].
    + rewrite decide_False; [done | intros [?|?]%elem_of_cons; congruence].
Qed.

Lemma Map_set_NoDup k v m : NoDup m.*1 → NoDup (Map_set k v m).*1.
Proof.
  intros Hnd. rewrite Map_set_keys. case_decide; [done|].
  apply NoDup_app. split_and!; [done | | apply NoDup_singleton].
  intros x Hx ->%list_elem_of_singleton. done.
Qed.

Lemma Map_delete_NoDup k m : NoDup m.*1 → NoDup (Map_delete k m).*1.
Proof.
  unfold Map_delete. intros Hnd.
  refine (sublist_NoDup _ (m.*1) Hnd _).
  apply fmap_sublist, sublist_filter.
Qed.

Lemma Map_get_set_eq k v m : Map_get k (Map_set k v m) = Some v.
Proof. by rewrite Map_get_lookup, Map_set_insert, lookup_insert_eq. Qed.

Lemma Map_values_perm m :
  NoDup m.*1 →
  Map_values m ≡ₚ (map_to_list (list_to_map m : gmap string V)).*2.
Proof.
  intros Hnd. unfold Map_values.
  by rewrite (map_to_list_to_map m Hnd).
Qed.

End JsMapFacts.

(** ** The registry's table *)

Ltac run_monad :=
  repeat (unfold mbind, mret, M_bind, M_ret, bind, ret, get, modify, throw,
            emit, dispatchEvent, postMessage, logger_error; cbn).

Lemma updatedStatus_spec stored update :
  updatedStatus stored update = spec_mergeStatus stored update.
Proof.
  destruct stored as [old|], update as [a b c [apps|]]; reflexivity.
Qed.

Lemma onBridgeMessage_rule (u : RegistryUpdate) (s : State) :
  ∃ s', onBridgeMessage (message_of u) s = (Ok tt, s')
        ∧ table s' = spec_rule (table s) u
        ∧ (NoDup (receiverDevices s).*1 → NoDup (receiverDevices s').*1).
Proof.
  destruct u as [deviceId deviceInfo | deviceId | deviceId update];
    unfold onBridgeMessage, table; cbn.
  - eexists; split_and!; [reflexivity | apply Map_set_insert | apply Map_set_NoDup].
  - run_monad. unfold Map_has. rewrite Map_get_lookup.
    destruct (list_to_map (receiverDevices s) !! deviceId) as [d|] eqn:Hd; cbn.
    + eexists; split_and!;
        [reflexivity | apply Map_delete_delete | apply Map_delete_NoDup].
    + eexists; split_and!; [reflexivity | | done].
      cbn. by rewrite delete_id.
  - run_monad. rewrite Map_get_lookup.
    destruct (list_to_map (receiverDevices s) !! deviceId) as [d|] eqn:Hd; cbn.
    + eexists; split_and!; [reflexivity | | apply Map_set_NoDup].
      cbn. by rewrite Map_set_insert, updatedStatus_spec.
    + eexists; split_and!; [reflexivity | done | done].
Qed.

Lemma feed_replay (us : list RegistryUpdate) (s : State) :
  table (exec (feed us) s) = foldl spec_rule (table s) us
  ∧ (NoDup (receiverDevices s).*1 → NoDup (receiverDevices (exec (feed us) s)).*1).
Proof.
  revert s. induction us as [|u us IH]; intros s; [done|].
  destruct (onBridgeMessage_rule u s) as (s1 & Hrun & Htab & Hnd).
  unfold feed in *. cbn [forEach foldl]. rewrite exec_bind, Hrun.
  destruct (IH s1) as [IH1 IH2]. rewrite IH1, Htab. auto.
Qed.

(** C2: after any sequence of device-up, device-down and status-updated
    events fed to a registry whose table is empty, the table read as a finite
    map is the map that the merge rules of the specification build from the
    empty map, no key occurs twice in it, and [getDevices()] lists exactly
    the devices of that map (each once, in the table's own order). *)
Theorem getDevices_replays_merge_rules (us : list RegistryUpdate) (s : State) :
  receiverDevices s = [] →
  table (exec (feed us) s) = spec_replay us
  ∧ NoDup (receiverDevices (exec (feed us) s)).*1
  ∧ getDevices (exec (feed us) s) ≡ₚ (map_to_list (spec_replay us)).*2.
Proof.
  intros Hempty.
  destruct (feed_replay us s) as [Htab Hnd].
  assert (table s = ∅) as Hs by (unfold table; by rewrite Hempty).
  assert (NoDup (receiverDevices (exec (feed us) s)).*1) as Hnd'.
  { apply Hnd. rewrite Hempty. constructor. }
  rewrite Hs in Htab. split_and!; [done | done |].
  unfold getDevices. rewrite Map_values_perm by done.
  fold (table (exec (feed us) s)). by rewrite Htab.
Qed.

Lemma getDevices_replays_merge_rules_witness :
  table (exec (feed sample_updates) initialState) = spec_replay sample_updates
  ∧ NoDup (receiverDevices (exec (feed sample_updates) initialState)).*1
  ∧ getDevices (exec (feed sample_updates) initialState)
      ≡ₚ (map_to_list (spec_replay sample_updates)).*2.
Proof. apply (getDevices_replays_merge_rules sample_updates initialState). reflexivity. Defined.

Example sample_updates_run :
  getDevices (exec (feed sample_updates) initialState)
  = [mkDevice "a" (Some (mkStatus (Some false) (Some true) 7%N (Some ["YouTube"])))].
Proof. vm_compute. reflexivity. Qed.

(** C10: a status update for a known device that has no status object yet
    stores the incoming status as it is (so an update without an applications
    list leaves the stored status without one), and the updated event carries
    that very status. *)
Theorem status_update_without_stored_status
    (s : State) (deviceId : string) (device : ReceiverDevice) (update : ReceiverStatus) :
  Map_get deviceId (receiverDevices s) = Some device →
  status device = None →
  let s' := exec (onBridgeMessage
                    (mkMessage "main:receiverDeviceStatusUpdated"
                       (DeviceStatusData deviceId update))) s in
  Map_get deviceId (receiverDevices s') = Some (mkDevice (id device) (Some update))
  ∧ log s' = log s ++ [EDispatch (receiverDeviceUpdated deviceId update)]
  ∧ (applications update = None →
     ∀ stored, (Map_get deviceId (receiverDevices s') ≫= status) = Some stored →
               applications stored = None).
Proof.
  intros Hknown Hnone s'. subst s'.
  unfold onBridgeMessage, exec. run_monad. rewrite Hknown. run_monad.
  rewrite Hnone. cbn. rewrite Map_get_set_eq.
  split_and!; [done | done |].
  intros Hno stored [= <-]. exact Hno.
Qed.

Lemma status_update_without_stored_status_witness :
  let update := mkStatus (Some true) None 3%N None in
  let s' := exec (onBridgeMessage
                    (mkMessage "main:receiverDeviceStatusUpdated"
                       (DeviceStatusData "b" update))) state_with_bare_device in
  Map_get "b" (receiverDevices s') = Some (mkDevice "b" (Some update))
  ∧ log s' = log state_with_bare_device ++ [EDispatch (receiverDeviceUpdated "b" update)]
  ∧ (applications update = None →
     ∀ stored, (Map_get "b" (receiverDevices s') ≫= status) = Some stored →
               applications stored = None).
Proof.
  exact (status_update_without_stored_status state_with_bare_device "b" dev_b
           (mkStatus (Some true) None 3%N None) eq_refl eq_refl).
Defined.

(** ** stopReceiverApp *)

(** C9, as stated, fails: with an upstream port open and no device "tv" in
    the table, [stopReceiverApp "tv"] logs nothing at all. *)
Lemma stopReceiverApp_unknown_device_not_logged :
  ¬ stopReceiverApp_as_specified (exec refresh initialState) "tv".
Proof.
  intros (_ & _ & Hlog). vm_compute in Hlog.
  destruct Hlog as [msg Hlog]. discriminate Hlog.
Qed.

(** C9, amended: [stopReceiverApp] always returns normally and never changes
    the table.  With an upstream port, a known device gets exactly one
    [bridge:stopCastSession] request carrying it on that port, and an unknown
    device changes nothing (nothing sent, nothing logged).  Without an
    upstream port the only effect is one logged error, whether the device is
    known or not. *)
Theorem stopReceiverApp_effects (s : State) (deviceId : string) :
  fst (stopReceiverApp deviceId s) = Ok tt
  ∧ receiverDevices (exec (stopReceiverApp deviceId) s) = receiverDevices s
  ∧ exec (stopReceiverApp deviceId) s =
    match dmBridgePort s, Map_get deviceId (receiverDevices s) with
    | Some p, Some device =>
        set_log (log s ++ [EPostMessage p (stopCastSession device)]) s
    | Some p, None => s
    | None, _ =>
        set_log (log s ++ [ELogError "Failed to stop receiver device, no bridge connection"]) s
    end.
Proof.
  unfold stopReceiverApp, exec. run_monad.
  destruct (dmBridgePort s) as [p|]; [|done].
  destruct (Map_get deviceId (receiverDevices s)) as [device|]; done.
Qed.

(** ** Upstream disconnect and the reconnect timer *)

Lemma onBridgeDisconnect_run (s : State) :
  onBridgeDisconnect s =
  (Ok tt,
   set_timers (timers s ++ [((now s + 10000)%N, refreshCallback)])
     (set_log (log s ++ map (λ d, EDispatch (receiverDeviceDown (id d))) (getDevices s)
                     ++ [ESetTimeout 10000])
        (set_receiverDevices [] s))).
Proof.
  unfold onBridgeDisconnect, setTimeout, dispatchEvent.
  unfold mbind, M_bind, bind at 1. unfold get at 1.
  unfold bind at 1.
  rewrite (forEach_emit (λ entry : string * ReceiverDevice,
                           EDispatch (receiverDeviceDown (id entry.2)))).
  run_monad. unfold getDevices, Map_values.
  rewrite <- list_fmap_compose, <- app_assoc. by destruct s.
Qed.

Lemma refresh_refreshed s : refresh s = (Ok tt, refreshed s).
Proof.
  unfold refresh, refreshed, disconnect, bridge_connect, newPort, onMessage_addListener,
    onDisconnect_addListener, alterPort.
  run_monad. destruct (dmBridgePort s) as [old|]; cbn; f_equal;
    unfold set_log, set_ports; cbn; f_equal;
    rewrite <- ?app_assoc; try reflexivity;
    rewrite !alter_insert_eq; reflexivity.
Qed.

Lemma ports_refreshed s :
  ports (refreshed s)
  = <[nextPort s := mkPort RuntimePort "bridge" None None true
                      [RegistryMessageListener] [RegistryDisconnectListener]]>
      (match dmBridgePort s with
       | Some old => alter without_connection old (ports s)
       | None => ports s
       end).
Proof. reflexivity. Qed.

Lemma refresh_run (s : State) :
  ∃ s', refresh s = (Ok tt, s')
    ∧ log s' = log s
               ++ match dmBridgePort s with Some p => [EDisconnect p] | None => [] end
               ++ [EConnect (nextPort s); EPostMessage (nextPort s) startDiscovery]
    ∧ dmBridgePort s' = Some (nextPort s)
    ∧ receiverDevices s' = []
    ∧ timers s' = timers s
    ∧ ports s' !! nextPort s
      = Some (mkPort RuntimePort "bridge" None None true
                [RegistryMessageListener] [RegistryDisconnectListener]).
Proof.
  exists (refreshed s). split; [apply refresh_refreshed|].
  split_and!; try reflexivity.
  rewrite ports_refreshed. apply lookup_insert_eq.
Qed.

Lemma opened_app (l1 l2 : list Effect) : opened (l1 ++ l2) = opened l1 ++ opened l2.
Proof. apply omap_app. Qed.

Lemma opened_dispatch {A} (f : A → DeviceEvent) (l : list A) :
  opened (map (λ x, EDispatch (f x)) l) = [].
Proof. induction l as [|x l IH]; [done | exact IH]. Qed.

Lemma advanceTo_early (t due : N) (cb : TimerCallback) (s : State) :
  timers s = [(due, cb)] → (t < due)%N →
  advanceTo t s = (Ok tt, set_now (N.max (now s) t) s).
Proof.
  intros Ht Hlt. unfold advanceTo. run_monad. rewrite Ht.
  rewrite !filter_cons, !filter_nil. cbn.
  repeat case_decide; try lia. cbn.
  rewrite <- Ht. by destruct s.
Qed.

Lemma advanceTo_due (t due : N) (s : State) :
  timers s = [(due, refreshCallback)] → (due ≤ t)%N →
  exec (advanceTo t) s = exec refresh (set_now (N.max (now s) t) (set_timers [] s)).
Proof.
  intros Ht Hle. unfold advanceTo, exec. run_monad. rewrite Ht.
  rewrite !filter_cons, !filter_nil. cbn.
  repeat case_decide; try lia. cbn.
  unfold notAwaited. run_monad. reflexivity.
Qed.

(** C4: when the upstream port disconnects, the registry dispatches one
    [receiverDeviceDown] per device of the table, carrying that device's id,
    empties the table and sets one timer of 10000.  With no other timer
    pending, nothing happens while the clock stays below the delay; when it
    reaches it, [refresh] runs once: it disconnects the old port if there is
    one, leaves the table empty, opens exactly one new bridge port and posts
    [bridge:startDiscovery] with [shouldWatchStatus] on it. *)
Theorem upstream_disconnect_then_reconnect (s : State) :
  timers s = [] →
  let s1 := exec onBridgeDisconnect s in
  let s2 := exec (advanceTo (now s + 10000)) s1 in
  log s1 = log s
           ++ map (λ d, EDispatch (receiverDeviceDown (id d))) (getDevices s)
           ++ [ESetTimeout 10000]
  ∧ receiverDevices s1 = []
  ∧ timers s1 = [((now s + 10000)%N, refreshCallback)]
  ∧ (∀ t, (t < now s + 10000)%N →
          log (exec (advanceTo t) s1) = log s1
          ∧ timers (exec (advanceTo t) s1) = timers s1
          ∧ dmBridgePort (exec (advanceTo t) s1) = dmBridgePort s)
  ∧ log s2 = log s1
             ++ match dmBridgePort s with Some p => [EDisconnect p] | None => [] end
             ++ [EConnect (nextPort s); EPostMessage (nextPort s) startDiscovery]
  ∧ opened (log s2) = opened (log s) ++ [nextPort s]
  ∧ dmBridgePort s2 = Some (nextPort s)
  ∧ receiverDevices s2 = []
  ∧ timers s2 = [].
Proof.
  intros Hno s1 s2.
  assert (Hs1 : s1 = set_timers [((now s + 10000)%N, refreshCallback)]
     (set_log (log s ++ map (λ d, EDispatch (receiverDeviceDown (id d))) (getDevices s)
                     ++ [ESetTimeout 10000])
        (set_receiverDevices [] s))).
  { subst s1. unfold exec. rewrite onBridgeDisconnect_run, Hno. done. }
  assert (Ht1 : timers s1 = [((now s + 10000)%N, refreshCallback)]) by (by rewrite Hs1).
  assert (Hn1 : now s1 = now s) by (by rewrite Hs1).
  split_and!; try (rewrite Hs1; reflexivity).
  - intros t Hlt. unfold exec.
    rewrite (advanceTo_early t _ _ s1 Ht1 Hlt). rewrite Hs1. done.
  - subst s2. rewrite (advanceTo_due _ _ s1 Ht1) by lia.
    destruct (refresh_run (set_now (N.max (now s1) (now s + 10000)) (set_timers [] s1)))
      as (s' & Hrun & Hlog & _). unfold exec. rewrite Hrun. cbn.
    rewrite Hlog, Hs1. done.
  - subst s2. rewrite (advanceTo_due _ _ s1 Ht1) by lia.
    destruct (refresh_run (set_now (N.max (now s1) (now s + 10000)) (set_timers [] s1)))
      as (s' & Hrun & Hlog & _). unfold exec. rewrite Hrun. cbn.
    rewrite Hlog, Hs1. cbn. rewrite !opened_app.
    rewrite (opened_dispatch (λ d, receiverDeviceDown (id d))).
    destruct (dmBridgePort s); cbn; by rewrite ?app_nil_r.
  - subst s2. rewrite (advanceTo_due _ _ s1 Ht1) by lia.
    destruct (refresh_run (set_now (N.max (now s1) (now s + 10000)) (set_timers [] s1)))
      as (s' & Hrun & _ & Hport & _). unfold exec. rewrite Hrun. cbn.
    rewrite Hport, Hs1. done.
  - subst s2. rewrite (advanceTo_due _ _ s1 Ht1) by lia.
    destruct (refresh_run (set_now (N.max (now s1) (now s + 10000)) (set_timers [] s1)))
      as (s' & Hrun & _ & _ & Hdev & _). unfold exec. by rewrite Hrun.
  - subst s2. rewrite (advanceTo_due _ _ s1 Ht1) by lia.
    destruct (refresh_run (set_now (N.max (now s1) (now s + 10000)) (set_timers [] s1)))
      as (s' & Hrun & _ & _ & _ & Htm & _). unfold exec. rewrite Hrun. cbn.
    by rewrite Htm.
Qed.

Lemma upstream_disconnect_then_reconnect_witness :
  let s1 := exec onBridgeDisconnect registry_with_two_devices in
  let s2 := exec (advanceTo 10000) s1 in
  log s1 = log registry_with_two_devices
           ++ [EDispatch (receiverDeviceDown "a"); EDispatch (receiverDeviceDown "b");
               ESetTimeout 10000]
  ∧ receiverDevices s1 = []
  ∧ log s2 = log s1 ++ [EDisconnect 0; EConnect 1; EPostMessage 1 startDiscovery]
  ∧ opened (log s2) = [0; 1].
Proof.
  destruct (upstream_disconnect_then_reconnect registry_with_two_devices eq_refl)
    as (Hlog1 & Hdev & _ & _ & Hlog2 & Hopen & _).
  split_and!; [exact Hlog1 | exact Hdev | exact Hlog2 | exact Hopen].
Defined.

(** ** Routing of content messages *)

(** [destination] cuts the subject at its first colon. *)
Lemma destination_split (subj : string) :
  ∃ rest, subj = destination subj +:+ rest
          ∧ (rest = "" ∨ ∃ r, rest = String ":" r).
Proof.
  induction subj as [|c subj (rest & Hsplit & Hrest)]; [exists ""; auto|].
  cbn [destination]. destruct (Ascii.eqb c ":") eqn:Hc.
  - apply Ascii.eqb_eq in Hc as ->. exists (String ":" subj). split; [done|].
    right. by exists subj.
  - exists rest. split; [|done].
    change (String c subj = String c (destination subj +:+ rest)).
    by f_equal.
Qed.

Lemma destination_no_colon (subj a b : string) :
  destination subj ≠ a +:+ String ":" b.
Proof.
  revert a. induction subj as [|c subj IH]; intros a; cbn [destination].
  - by destruct a.
  - destruct (Ascii.eqb c ":") eqn:Hc; [by destruct a|].
    destruct a as [|c' a].
    + intros [= -> _]. by rewrite Ascii.eqb_refl in Hc.
    + intros [= _ Heq]. by apply (IH a).
Qed.

Lemma destination_bridge (subj : string) :
  destination subj = "bridge" ↔
  subj = "bridge" ∨ ∃ rest, subj = "bridge:" +:+ rest.
Proof.
  split.
  - intros H.
    do 6 (destruct subj as [|c subj]; [discriminate H|];
          cbn in H; destruct (Ascii.eqb c ":") eqn:?; [discriminate H|];
          injection H as -> H).
    destruct subj as [|c subj]; [by left|].
    cbn in H. destruct (Ascii.eqb c ":") eqn:Hc; [|discriminate H].
    apply Ascii.eqb_eq in Hc as ->. right. by exists subj.
  - intros [-> | [rest ->]]; reflexivity.
Qed.

Lemma handleLocally_bridge_subject env i instance message :
  destination (subject message) = "bridge" →
  handleLocally env i instance message = mret tt.
Proof.
  intros Hd. unfold handleLocally.
  destruct (String.eqb (subject message) "main:initializeCast") eqn:E1.
  { apply String.eqb_eq in E1. rewrite E1 in Hd. discriminate Hd. }
  destruct (String.eqb (subject message) "main:selectReceiver") eqn:E2.
  { apply String.eqb_eq in E2. rewrite E2 in Hd. discriminate Hd. }
  destruct (String.eqb (subject message) "main:closeReceiverSelector") eqn:E3.
  { apply String.eqb_eq in E3. rewrite E3 in Hd. discriminate Hd. }
  reflexivity.
Qed.

(** C1: a message whose subject has the prefix [bridge] before its first
    colon is posted unchanged on the instance's bridge port before the switch
    on the subject runs, and the switch runs on the resulting state whatever
    it does; no branch of the switch matches such a subject, so the forwarded
    message is the only effect. *)
Theorem bridge_messages_are_forwarded
    (env : Env) (s : State) (i : InstRef) (instance : CastInstance) (message : Message) :
  heap s !! i = Some instance →
  destination (subject message) = "bridge" →
  handleContentMessage env i message s
  = handleLocally env i instance message
      (set_log (log s ++ [EPostMessage (bridgePort instance) message]) s)
  ∧ handleContentMessage env i message s
    = (Ok tt, set_log (log s ++ [EPostMessage (bridgePort instance) message]) s).
Proof.
  intros Hi Hd.
  assert (handleContentMessage env i message s
          = handleLocally env i instance message
              (set_log (log s ++ [EPostMessage (bridgePort instance) message]) s)) as Hfwd.
  { unfold handleContentMessage, getObj. run_monad. rewrite Hi. run_monad.
    rewrite Hd. cbn. reflexivity. }
  split; [exact Hfwd|].
  rewrite Hfwd, handleLocally_bridge_subject by done. reflexivity.
Qed.

Lemma bridge_messages_are_forwarded_witness :
  handleContentMessage quiet_env 0 startDiscovery one_instance_in_frame_5
  = (Ok tt, set_log (log one_instance_in_frame_5 ++ [EPostMessage 1 startDiscovery])
              one_instance_in_frame_5).
Proof.
  apply (bridge_messages_are_forwarded quiet_env one_instance_in_frame_5 0
           (mkInstance 1 0 (Some 1) (Some 5) None) startDiscovery);
    vm_compute; reflexivity.
Defined.

(** ** main:initializeCast *)

(** C5: [main:initializeCast] records the application id on the instance and
    then posts one [cast:receiverDeviceUp] per device of the registry on the
    instance's content port, each carrying the whole device as the registry
    holds it; with n devices these are n messages. *)
Theorem initializeCast_reports_every_device
    (env : Env) (s : State) (i : InstRef) (instance : CastInstance) (appId : string) :
  heap s !! i = Some instance →
  let announce := map (λ d, EPostMessage (contentPort instance) (receiverDeviceUpMessage d))
                    (getDevices s) in
  handleContentMessage env i (mkMessage "main:initializeCast" (InitializeCastData appId)) s
  = (Ok tt, set_log (log s ++ announce)
              (set_heap (<[i := with_appId (Some appId) instance]> (heap s)) s))
  ∧ length announce = length (getDevices s).
Proof.
  intros Hi announce. split; [|apply length_map].
  unfold handleContentMessage, getObj. run_monad. rewrite Hi. run_monad.
  unfold handleLocally. cbn. run_monad.
  rewrite (forEach_emit (λ d, EPostMessage (contentPort instance) (receiverDeviceUpMessage d))).
  cbn. f_equal. unfold set_log, set_heap; cbn. f_equal.
  apply map_eq. intros j. rewrite lookup_alter, lookup_insert.
  case_decide; subst; [by rewrite Hi | done].
Qed.

Lemma initializeCast_reports_every_device_witness :
  handleContentMessage quiet_env 0
    (mkMessage "main:initializeCast" (InitializeCastData "CC1AD845")) page_with_devices
  = (Ok tt,
     set_log (log page_with_devices
              ++ [EPostMessage 1 (receiverDeviceUpMessage dev_a);
                  EPostMessage 1 (receiverDeviceUpMessage dev_b)])
       (set_heap (<[0 := mkInstance 2 1 (Some 1) (Some 5) (Some "CC1AD845")]>
                    (heap page_with_devices)) page_with_devices)).
Proof.
  apply (initializeCast_reports_every_device quiet_env page_with_devices 0
           (mkInstance 2 1 (Some 1) (Some 5) None) "CC1AD845").
  vm_compute. reflexivity.
Defined.

(** ** main:selectReceiver with a changed media type *)

(** [H : x ∈ [e1; ...; en]] where [x] differs from every [ei] by a
    constructor. *)
Ltac not_listed H :=
  repeat (apply elem_of_cons in H as [H | H]; [discriminate H|]);
  by apply elem_of_nil in H.

Lemma loadSender_not_App env tabId frameId device mediaType filePath s :
  mediaType ≠ App →
  exec (loadSender env tabId frameId (Some (ReceiverSelectionCast device mediaType filePath))) s
  = set_log (log s ++ activation env tabId frameId device mediaType filePath) s.
Proof.
  intros Hm.
  unfold exec, loadSender, tabs_executeScript, activation, mirroringSender, new_URL, await.
  destruct mediaType; [done | | | ]; run_monad.
  - destruct (executeScript env tabId frameId (InjectCode Tab device)) as [[]|]; cbn;
      [|done].
    destruct (executeScript env tabId frameId (InjectFile _)); cbn;
      unfold set_log; cbn; by rewrite <- app_assoc.
  - destruct (executeScript env tabId frameId (InjectCode Screen device)) as [[]|]; cbn;
      [|done].
    destruct (executeScript env tabId frameId (InjectFile _)); cbn;
      unfold set_log; cbn; by rewrite <- app_assoc.
  - destruct (newURL env _) as [href|]; cbn;
      [|destruct s; unfold set_log; cbn; by rewrite app_nil_r].
    destruct (importMediaSender env) as [[]|]; cbn; [done|].
    destruct s; unfold set_log; cbn; by rewrite app_nil_r.
Qed.

(** C6: when the selection workflow answers a [main:selectReceiver] request
    with a cast selection whose media type is not App, the router posts
    [cast:selectReceiver/cancelled] on the requesting content port and then
    runs [loadSender] for the instance's tab and frame with that selection;
    the request returns normally and nothing but the log changes.  For Tab
    and Screen [loadSender] injects the snippet that sets the selected media
    type and receiver and, once that injection is fulfilled, the mirroring
    sender, both into the instance's frame; when the first injection is
    rejected the second one is not made.  For File it starts the media
    sender with the [href] of the file URL, provided that the URL parses and
    the sender's module loads; otherwise it starts nothing.  In no case is
    [cast:launchApp] posted. *)
Theorem selection_with_changed_media_type
    (env : Env) (s : State) (i : InstRef) (instance : CastInstance)
    (tabId : TabId) (frameId : FrameId) (sessionRequest : string)
    (device : ReceiverDevice) (mediaType : ReceiverSelectorMediaType)
    (filePath : option string) :
  heap s !! i = Some instance →
  contentTabId instance = Some tabId →
  contentFrameId instance = Some frameId →
  getSelection env tabId frameId sessionRequest
    = Fulfilled (Some (ReceiverSelectionCast device mediaType filePath)) →
  mediaType ≠ App →
  let request := mkMessage "main:selectReceiver" (SelectReceiverData sessionRequest) in
  let notice := EPostMessage (contentPort instance)
                  (mkMessage "cast:selectReceiver/cancelled" NoData) in
  let s1 := set_log (log s ++ [notice]) s in
  let s' := exec (handleContentMessage env i request) s in
  handleContentMessage env i request s
  = (Ok tt, exec (loadSender env tabId (Some frameId)
                    (Some (ReceiverSelectionCast device mediaType filePath))) s1)
  ∧ s' = set_log (log s') s
  ∧ log s'
    = log s
      ++ notice
         :: match mediaType with
            | App => []
            | Tab | Screen =>
                EExecuteScript tabId (Some frameId) (InjectCode mediaType device)
                :: match executeScript env tabId (Some frameId)
                           (InjectCode mediaType device) with
                   | Fulfilled _ =>
                       [EExecuteScript tabId (Some frameId)
                          (InjectFile "cast/senders/mirroring.js")]
                   | Rejected => []
                   end
            | File =>
                match newURL env ("file://" +:+ match filePath with
                                               | Some path => path
                                               | None => "undefined"
                                               end),
                      importMediaSender env with
                | Some href, Fulfilled _ => [EMediaInit href device]
                | _, _ => []
                end
            end
  ∧ (∀ p d, EPostMessage p (mkMessage "cast:launchApp" d) ∉ drop (length (log s)) (log s'))
  ∧ ((mediaType = Tab ∨ mediaType = Screen) →
     executeScript env tabId (Some frameId) (InjectCode mediaType device) = Fulfilled tt →
     log s' = log s ++ [notice;
                        EExecuteScript tabId (Some frameId) (InjectCode mediaType device);
                        EExecuteScript tabId (Some frameId)
                          (InjectFile "cast/senders/mirroring.js")]).
Proof.
  intros Hi Htab Hframe Hsel Hm request notice s1 s'.
  assert (handleContentMessage env i request s
          = (Ok tt, exec (loadSender env tabId (Some frameId)
                            (Some (ReceiverSelectionCast device mediaType filePath))) s1))
    as Hrun.
  { unfold handleContentMessage, getObj. run_monad. rewrite Hi. run_monad.
    unfold handleLocally. cbn. rewrite Htab, Hframe.
    unfold tryCatch, await. run_monad. rewrite Hsel. cbn.
    destruct mediaType; [done | | | ]; reflexivity. }
  assert (s' = set_log (log s ++ notice
                          :: activation env tabId (Some frameId) device mediaType filePath) s)
    as Hs'.
  { subst s'. unfold exec at 1. rewrite Hrun. cbn [snd].
    rewrite loadSender_not_App by done. subst s1. cbn.
    by rewrite <- app_assoc. }
  assert (log s' = log s ++ notice
                      :: activation env tabId (Some frameId) device mediaType filePath)
    as Hlog by (by rewrite Hs').
  split_and!; [exact Hrun | by rewrite Hs' | exact Hlog | |].
  - intros p d. rewrite Hlog, drop_app_length.
    rewrite elem_of_cons. intros [Heq | Hin]; [discriminate Heq|].
    unfold activation in Hin.
    destruct mediaType; [done | | | ].
    + destruct (executeScript _ _ _ _); not_listed Hin.
    + destruct (executeScript _ _ _ _); not_listed Hin.
    + destruct (newURL env _); [destruct (importMediaSender env)|]; not_listed Hin.
  - intros Hmirror Hok. rewrite Hlog. unfold activation, mirroringSender.
    destruct Hmirror as [-> | ->]; by rewrite Hok.
Qed.

Lemma selection_with_changed_media_type_witness :
  log (exec (handleContentMessage tab_mirroring_env 0
               (mkMessage "main:selectReceiver" (SelectReceiverData "request")))
         one_instance_in_frame_5)
  = log one_instance_in_frame_5
    ++ [EPostMessage 0 (mkMessage "cast:selectReceiver/cancelled" NoData);
        EExecuteScript 1 (Some 5) (InjectCode Tab tv);
        EExecuteScript 1 (Some 5) (InjectFile "cast/senders/mirroring.js")]
  ∧ log (exec (handleContentMessage relative_path_env 0
                 (mkMessage "main:selectReceiver" (SelectReceiverData "request")))
           one_instance_in_frame_5)
    = log one_instance_in_frame_5
      ++ [EPostMessage 0 (mkMessage "cast:selectReceiver/cancelled" NoData)]
  ∧ log (exec (handleContentMessage absolute_path_env 0
                 (mkMessage "main:selectReceiver" (SelectReceiverData "request")))
           one_instance_in_frame_5)
    = log one_instance_in_frame_5
      ++ [EPostMessage 0 (mkMessage "cast:selectReceiver/cancelled" NoData);
          EMediaInit "file:///home/me/a.mp4" tv].
Proof.
  split_and!.
  - destruct (selection_with_changed_media_type tab_mirroring_env one_instance_in_frame_5 0
                (mkInstance 1 0 (Some 1) (Some 5) None) 1 5 "request" tv Tab None)
      as (_ & _ & _ & _ & Htab);
      [vm_compute; reflexivity | reflexivity | reflexivity | reflexivity | discriminate |].
    apply Htab; [by left | reflexivity].
  - destruct (selection_with_changed_media_type relative_path_env one_instance_in_frame_5 0
                (mkInstance 1 0 (Some 1) (Some 5) None) 1 5 "request" tv File
                (Some "my videos/a.mp4"))
      as (_ & _ & Hlog & _);
      [vm_compute; reflexivity | reflexivity | reflexivity | reflexivity | discriminate |].
    exact Hlog.
  - destruct (selection_with_changed_media_type absolute_path_env one_instance_in_frame_5 0
                (mkInstance 1 0 (Some 1) (Some 5) None) 1 5 "request" tv File
                (Some "/home/me/a.mp4"))
      as (_ & _ & Hlog & _);
      [vm_compute; reflexivity | reflexivity | reflexivity | reflexivity | discriminate |].
    exact Hlog.
Defined.

(** ** loadSender, App path *)

(** C7, as stated, fails: the only live instance is recorded at tab 1,
    frame 5; [loadSender] for tab 1 without a frame id finds no instance whose
    recorded pair equals the given one, yet it does not fail: it posts
    [cast:launchApp] to that instance. *)
Lemma loadSender_without_frame_takes_any_frame :
  ¬ loadSender_App_as_specified quiet_env one_instance_in_frame_5 1 None
      (mkDevice "tv" None) None.
Proof.
  intros [Hfail _].
  destruct Hfail as [msg Hmsg].
  - intros i Hi (instance & Hheap & _ & Hframe).
    vm_compute in Hi. apply list_elem_of_singleton in Hi as ->.
    vm_compute in Hheap. injection Hheap as <-. discriminate Hframe.
  - vm_compute in Hmsg. discriminate Hmsg.
Qed.

Section GetInstance.
Context (s : State) (tabId : TabId) (frameId : option FrameId).
Hypothesis frame_not_zero : frameId ≠ Some 0.

Lemma getInstance_from_skip i l :
  ¬ located s tabId frameId i →
  getInstance_from (heap s) tabId frameId (i :: l)
  = getInstance_from (heap s) tabId frameId l.
Proof.
  intros Hno. cbn [getInstance_from].
  destruct (heap s !! i) as [instance|] eqn:Hi; [|done].
  case_decide as Htab; [|done].
  destruct frameId as [[|f]|]; [done | |].
  - cbn. case_bool_decide as Hf; [done|].
    exfalso. apply Hno. exists instance. split_and!; [done | done |].
    by destruct (decide (contentFrameId instance = Some (S f))).
  - exfalso. apply Hno. by exists instance.
Qed.

Lemma getInstance_from_hit i l :
  located s tabId frameId i →
  getInstance_from (heap s) tabId frameId (i :: l) = Some i.
Proof.
  intros (instance & Hi & Htab & Hframe). cbn [getInstance_from].
  rewrite Hi. rewrite decide_True by done.
  destruct frameId as [[|f]|]; [done | | done].
  cbn. by rewrite bool_decide_false by (intros Hne; by apply Hne).
Qed.

Lemma getInstance_first before i after :
  activeInstances s = before ++ i :: after →
  (∀ j, j ∈ before → ¬ located s tabId frameId j) →
  located s tabId frameId i →
  getInstance tabId frameId s = Some i.
Proof.
  unfold getInstance. intros -> Hbefore Hi.
  induction before as [|j before IH]; cbn [app].
  - by apply getInstance_from_hit.
  - rewrite getInstance_from_skip by (apply Hbefore; by left).
    apply IH. intros k Hk. apply Hbefore. by right.
Qed.

Lemma getInstance_none :
  (∀ j, j ∈ activeInstances s → ¬ located s tabId frameId j) →
  getInstance tabId frameId s = None.
Proof.
  unfold getInstance. generalize (activeInstances s) as l.
  induction l as [|j l IH]; intros Hall; [done|].
  rewrite getInstance_from_skip by (apply Hall; by left).
  apply IH. intros k Hk. apply Hall. by right.
Qed.

End GetInstance.

(** C7, amended: [loadSender] does nothing when the selection is absent or
    is a stop selection.  For a cast selection with media type App and a
    frame id that is absent or not 0, it takes the first instance of the live
    set that is recorded at the given tab and, when a frame id is given, at
    that frame (without a frame id an instance of any frame of the tab is
    taken); when there is none it logs an error and fails with it, otherwise
    it posts [cast:launchApp] with the chosen receiver on that instance's
    content port. *)
Theorem loadSender_App_path
    (env : Env) (s : State) (tabId : TabId) (frameId : option FrameId)
    (device : ReceiverDevice) (filePath : option string) :
  frameId ≠ Some 0 →
  loadSender env tabId frameId None s = (Ok tt, s)
  ∧ (∀ d, loadSender env tabId frameId (Some (ReceiverSelectionStop d)) s = (Ok tt, s))
  ∧ ((∀ j, j ∈ activeInstances s → ¬ located s tabId frameId j) →
     ∃ msg, loadSender env tabId frameId (appSelection device filePath) s
            = (Throw msg, set_log (log s ++ [ELogError msg]) s))
  ∧ (∀ before i after instance,
       activeInstances s = before ++ i :: after →
       (∀ j, j ∈ before → ¬ located s tabId frameId j) →
       located s tabId frameId i →
       heap s !! i = Some instance →
       loadSender env tabId frameId (appSelection device filePath) s
       = (Ok tt, set_log (log s ++ [EPostMessage (contentPort instance) (launchApp device)]) s)).
Proof.
  intros Hframe. split_and!; [done | done | |].
  - intros Hnone. unfold loadSender, appSelection. run_monad.
    rewrite (getInstance_none s tabId frameId Hframe Hnone).
    unfold throw_logger_error. run_monad. eexists. reflexivity.
  - intros before i after instance Hsplit Hbefore Hi Hheap.
    unfold loadSender, appSelection. run_monad.
    rewrite (getInstance_first s tabId frameId Hframe before i after Hsplit Hbefore Hi).
    unfold getObj. run_monad. rewrite Hheap. reflexivity.
Qed.

Lemma loadSender_App_path_witness :
  loadSender quiet_env 1 (Some 5) (appSelection tv None) one_instance_in_frame_5
  = (Ok tt, set_log (log one_instance_in_frame_5 ++ [EPostMessage 0 (launchApp tv)])
              one_instance_in_frame_5)
  ∧ ∃ msg, loadSender quiet_env 1 (Some 6) (appSelection tv None) one_instance_in_frame_5
           = (Throw msg, set_log (log one_instance_in_frame_5 ++ [ELogError msg])
                           one_instance_in_frame_5).
Proof.
  split.
  - destruct (loadSender_App_path quiet_env one_instance_in_frame_5 1 (Some 5) tv None)
      as (_ & _ & _ & Hsend); [discriminate|].
    apply (Hsend [] 0 [] (mkInstance 1 0 (Some 1) (Some 5) None)).
    + reflexivity.
    + intros j Hj. by apply elem_of_nil in Hj.
    + eexists. split_and!; [vm_compute; reflexivity | reflexivity | reflexivity].
    + vm_compute. reflexivity.
  - destruct (loadSender_App_path quiet_env one_instance_in_frame_5 1 (Some 6) tv None)
      as (_ & _ & Hfail & _); [discriminate|].
    apply Hfail. intros j Hj (instance & Hheap & _ & Hframe).
    vm_compute in Hj. apply list_elem_of_singleton in Hj as ->.
    vm_compute in Hheap. injection Hheap as <-. discriminate Hframe.
Defined.

(** The frame id 0 of a top-level frame counts as no frame id in
    [getInstance]: asked for tab 1, frame 0, it answers with the instance of
    frame 5. *)
Example getInstance_frame_zero :
  getInstance 1 (Some 0) one_instance_in_frame_5 = Some 0
  ∧ getInstance 1 (Some 6) one_instance_in_frame_5 = None.
Proof. split; reflexivity. Qed.

(** ** Teardown of a cast instance *)

Lemma onDisconnect_run (s : State) (i : InstRef) (instance : CastInstance) :
  heap s !! i = Some instance →
  onDisconnect i s = (Ok tt, torn_down i instance s).
Proof.
  intros Hi. unfold onDisconnect, getObj, onMessage_removeListener, disconnect, alterPort.
  run_monad. rewrite Hi. run_monad.
  unfold torn_down, torn_ports. destruct s; cbn. unfold set_activeInstances; cbn.
  by rewrite <- app_assoc.
Qed.

Lemma removeL_idem (a : Listener) (l : list Listener) :
  removeL a (removeL a l) = removeL a l.
Proof.
  unfold removeL. rewrite list_filter_filter. apply list_filter_iff. tauto.
Qed.

Lemma removeL_comm (a b : Listener) (l : list Listener) :
  removeL a (removeL b l) = removeL b (removeL a l).
Proof.
  unfold removeL. rewrite !list_filter_filter. apply list_filter_iff. tauto.
Qed.

Lemma not_elem_of_removeL (a : Listener) (l : list Listener) : a ∉ removeL a l.
Proof. unfold removeL. rewrite list_elem_of_filter. tauto. Qed.

Lemma Set_delete_idem (i : InstRef) (l : list InstRef) :
  Set_delete i (Set_delete i l) = Set_delete i l.
Proof.
  unfold Set_delete. rewrite list_filter_filter. apply list_filter_iff. tauto.
Qed.

Lemma not_elem_of_Set_delete (i : InstRef) (l : list InstRef) : i ∉ Set_delete i l.
Proof. unfold Set_delete. rewrite list_elem_of_filter. tauto. Qed.

Lemma Set_delete_absent (i : InstRef) (l : list InstRef) :
  i ∉ l → Set_delete i l = l.
Proof.
  unfold Set_delete. induction l as [|j l IH]; intros Hin; [done|].
  apply not_elem_of_cons in Hin as [Hne Hin].
  rewrite filter_cons, decide_True by done. by rewrite IH.
Qed.

Lemma Set_delete_length (i : InstRef) (l : list InstRef) :
  NoDup l → i ∈ l → S (length (Set_delete i l)) = length l.
Proof.
  unfold Set_delete. induction 1 as [|j l Hj Hnd IH]; intros Hin.
  - by apply elem_of_nil in Hin.
  - rewrite filter_cons. apply elem_of_cons in Hin as [-> | Hin].
    + rewrite decide_False by (intros Hne; by apply Hne).
      fold (Set_delete j l). by rewrite Set_delete_absent.
    + rewrite decide_True by (intros ->; done). cbn. by rewrite IH.
Qed.

Lemma torn_ports_lookup i instance m p :
  torn_ports i instance m !! p = tear i instance p <$> m !! p.
Proof.
  unfold torn_ports, tear.
  destruct (decide (bridgePort instance = p)) as [Hb|Hb];
    destruct (decide (contentPort instance = p)) as [Hc|Hc];
    rewrite ?Hb, ?Hc;
    repeat (rewrite lookup_alter_eq || (rewrite lookup_alter_ne by done));
    by destruct (m !! p).
Qed.

Lemma without_connection_idem ps :
  without_connection (without_connection ps) = without_connection ps.
Proof. by destruct ps. Qed.

Lemma without_listener_connection a ps :
  without_listener a (without_connection ps) = without_connection (without_listener a ps).
Proof. by destruct ps. Qed.

Lemma without_listener_idem a ps :
  without_listener a (without_listener a ps) = without_listener a ps.
Proof.
  destruct ps. unfold without_listener, with_onMessage.
  cbn [kind name senderTabId senderFrameId connected onMessageListeners onDisconnectListeners].
  by rewrite removeL_idem.
Qed.

Lemma without_listener_comm a b ps :
  without_listener a (without_listener b ps) = without_listener b (without_listener a ps).
Proof.
  destruct ps. unfold without_listener, with_onMessage.
  cbn [kind name senderTabId senderFrameId connected onMessageListeners onDisconnectListeners].
  by rewrite removeL_comm.
Qed.

Ltac tear_cases i instance p :=
  unfold tear;
  destruct (decide (bridgePort instance = p)), (decide (contentPort instance = p));
  cbv beta iota zeta.

Lemma tear_idem i instance p ps :
  tear i instance p (tear i instance p ps) = tear i instance p ps.
Proof.
  tear_cases i instance p;
    rewrite ?without_listener_connection, ?without_connection_idem; [| | |done].
  - rewrite (without_listener_comm (BridgePortMessageListener i)
               (ContentPortMessageListener i)
               (without_listener (BridgePortMessageListener i) ps)).
    by rewrite !without_listener_idem.
  - by rewrite without_listener_idem.
  - by rewrite without_listener_idem.
Qed.

Lemma tear_after_event i instance p ps :
  p = bridgePort instance ∨ p = contentPort instance →
  tear i instance p (without_connection ps) = tear i instance p ps.
Proof.
  intros Hp. tear_cases i instance p;
    rewrite ?without_listener_connection, ?without_connection_idem; try done.
  destruct Hp; congruence.
Qed.

Lemma torn_ports_idem i instance m :
  torn_ports i instance (torn_ports i instance m) = torn_ports i instance m.
Proof.
  apply map_eq. intros p. rewrite !torn_ports_lookup.
  destruct (m !! p) as [ps|]; [|done]. cbn [fmap option_fmap option_map].
  by rewrite tear_idem.
Qed.

Lemma torn_ports_after_event i instance m p :
  p = bridgePort instance ∨ p = contentPort instance →
  torn_ports i instance (alter without_connection p m) = torn_ports i instance m.
Proof.
  intros Hp. apply map_eq. intros q. rewrite !torn_ports_lookup.
  destruct (decide (p = q)) as [<-|Hq]; [|by rewrite lookup_alter_ne].
  rewrite lookup_alter_eq.
  destruct (m !! p) as [ps|]; [|done]. cbn [fmap option_fmap option_map].
  by rewrite tear_after_event.
Qed.

Lemma torn_down_portInfo i instance s p :
  portInfo p (torn_down i instance s) = tear i instance p (portInfo p s).
Proof.
  unfold portInfo, torn_down. cbn [ports set_activeInstances set_ports].
  rewrite torn_ports_lookup.
  destruct (ports s !! p) as [ps|]; [done|]. cbn [fmap option_fmap option_map default].
  unfold tear.
  by destruct (decide (bridgePort instance = p)), (decide (contentPort instance = p)).
Qed.

Lemma deliverDisconnect_teardown (s : State) (i : InstRef) (instance : CastInstance)
    (p : PortId) :
  heap s !! i = Some instance →
  p = bridgePort instance ∨ p = contentPort instance →
  onDisconnectListeners (portInfo p s) = [DisconnectListener i] →
  deliverDisconnect p s = (Ok tt, torn_down i instance s).
Proof.
  intros Hi Hp Hl.
  assert (onDisconnectListeners
            (portInfo p (set_ports (alter (with_connected false) p (ports s)) s))
          = [DisconnectListener i]) as Hl'.
  { rewrite <- Hl. unfold portInfo. cbn. rewrite lookup_alter_eq.
    by destruct (ports s !! p). }
  unfold deliverDisconnect, alterPort. run_monad. rewrite Hl'. cbn. run_monad.
  unfold notAwaited. cbn.
  rewrite (onDisconnect_run _ i instance) by done. cbn.
  f_equal. unfold torn_down. cbn.
  fold without_connection. by rewrite torn_ports_after_event.
Qed.

Lemma tear_onDisconnectListeners i instance p ps :
  onDisconnectListeners (tear i instance p ps) = onDisconnectListeners ps.
Proof. tear_cases i instance p; by destruct ps. Qed.

Lemma tear_connected i instance p ps :
  p = bridgePort instance ∨ p = contentPort instance →
  connected (tear i instance p ps) = false.
Proof.
  intros Hp. tear_cases i instance p; try (by destruct ps).
  destruct Hp; congruence.
Qed.

Lemma tear_bridge_listener i instance ps :
  BridgePortMessageListener i
    ∉ onMessageListeners (tear i instance (bridgePort instance) ps).
Proof.
  tear_cases i instance (bridgePort instance); try done; destruct ps;
    cbn [without_connection without_listener with_connected with_onMessage
         onMessageListeners].
  - rewrite removeL_comm. apply not_elem_of_removeL.
  - apply not_elem_of_removeL.
Qed.

Lemma tear_content_listener i instance ps :
  ContentPortMessageListener i
    ∉ onMessageListeners (tear i instance (contentPort instance) ps).
Proof.
  tear_cases i instance (contentPort instance); try done; destruct ps;
    cbn [without_connection without_listener with_connected with_onMessage
         onMessageListeners];
    apply not_elem_of_removeL.
Qed.

(** The teardown of an instance whose closure is the disconnect listener of
    both of its ports, with the two disconnect events in either order. *)
Lemma teardown_twice
    (s : State) (i : InstRef) (instance : CastInstance) (first second : PortId) :
  heap s !! i = Some instance →
  NoDup (activeInstances s) →
  i ∈ activeInstances s →
  onDisconnectListeners (portInfo (bridgePort instance) s) = [DisconnectListener i] →
  onDisconnectListeners (portInfo (contentPort instance) s) = [DisconnectListener i] →
  (first = bridgePort instance ∧ second = contentPort instance)
  ∨ (first = contentPort instance ∧ second = bridgePort instance) →
  let s1 := exec (deliverDisconnect first) s in
  let s2 := exec (deliverDisconnect second) s1 in
  let calls := [EDisconnect (bridgePort instance); EDisconnect (contentPort instance)] in
  onDisconnect i s = (Ok tt, s1)
  ∧ (BridgePortMessageListener i ∉ onMessageListeners (portInfo (bridgePort instance) s1))
  ∧ (ContentPortMessageListener i ∉ onMessageListeners (portInfo (contentPort instance) s1))
  ∧ connected (portInfo (bridgePort instance) s1) = false
  ∧ connected (portInfo (contentPort instance) s1) = false
  ∧ log s1 = log s ++ calls
  ∧ activeInstances s1 = Set_delete i (activeInstances s)
  ∧ (i ∉ activeInstances s1)
  ∧ S (length (activeInstances s1)) = length (activeInstances s)
  ∧ onDisconnect i s1 = (Ok tt, s2)
  ∧ s2 = set_log (log s1 ++ calls) s1
  ∧ activeInstances s2 = activeInstances s1.
Proof.
  intros Hi Hnd Hin Hlb Hlc Horder s1 s2 calls.
  assert (Hfirst : first = bridgePort instance ∨ first = contentPort instance)
    by (destruct Horder as [[-> _] | [-> _]]; auto).
  assert (Hsecond : second = bridgePort instance ∨ second = contentPort instance)
    by (destruct Horder as [[_ ->] | [_ ->]]; auto).
  assert (Hs1 : s1 = torn_down i instance s).
  { subst s1. unfold exec.
    rewrite (deliverDisconnect_teardown s i instance first); [done | done | done |].
    by destruct Hfirst as [-> | ->]. }
  assert (Hi1 : heap s1 !! i = Some instance) by (by rewrite Hs1).
  assert (Hagain : torn_down i instance s1 = set_log (log s1 ++ calls) s1).
  { rewrite Hs1. unfold torn_down at 1.
    change (activeInstances (torn_down i instance s))
      with (Set_delete i (activeInstances s)).
    change (ports (torn_down i instance s)) with (torn_ports i instance (ports s)).
    by rewrite Set_delete_idem, torn_ports_idem. }
  assert (Hs2 : s2 = set_log (log s1 ++ calls) s1).
  { subst s2. unfold exec.
    rewrite (deliverDisconnect_teardown s1 i instance second); [done | done | done |].
    rewrite Hs1, torn_down_portInfo, tear_onDisconnectListeners.
    by destruct Hsecond as [-> | ->]. }
  split_and!.
  - rewrite Hs1. by apply onDisconnect_run.
  - rewrite Hs1, torn_down_portInfo. apply tear_bridge_listener.
  - rewrite Hs1, torn_down_portInfo. apply tear_content_listener.
  - rewrite Hs1, torn_down_portInfo. apply tear_connected. by left.
  - rewrite Hs1, torn_down_portInfo. apply tear_connected. by right.
  - by rewrite Hs1.
  - by rewrite Hs1.
  - rewrite Hs1. apply not_elem_of_Set_delete.
  - rewrite Hs1. cbn. by apply Set_delete_length.
  - rewrite Hs2, <- Hagain. by apply onDisconnect_run.
  - exact Hs2.
  - by rewrite Hs2.
Qed.

(** ** The loop over the live set *)

Lemma disconnect_run p s : disconnect p s = (Ok tt, disconnected p s).
Proof. reflexivity. Qed.

Lemma all_disconnected_frame l s :
  let s' := all_disconnected l s in
  receiverDevices s' = receiverDevices s ∧ dmBridgePort s' = dmBridgePort s
  ∧ activeInstances s' = activeInstances s ∧ heap s' = heap s
  ∧ nextRef s' = nextRef s ∧ nextPort s' = nextPort s
  ∧ now s' = now s ∧ timers s' = timers s
  ∧ log s' = log s ++ map (λ instance, EDisconnect (bridgePort instance)) l.
Proof.
  revert s. induction l as [|instance l IH]; intros s.
  - cbn. by rewrite app_nil_r.
  - cbv zeta.
    change (all_disconnected (instance :: l) s)
      with (all_disconnected l (disconnected (bridgePort instance) s)).
    destruct (IH (disconnected (bridgePort instance) s))
      as (-> & -> & -> & -> & -> & -> & -> & -> & ->).
    cbn. by rewrite <- app_assoc.
Qed.

Lemma all_disconnected_portInfo l s p :
  portInfo p (all_disconnected l s)
  = if decide (p ∈ bridgePort <$> l) then without_connection (portInfo p s)
    else portInfo p s.
Proof.
  revert s. induction l as [|instance l IH]; intros s; [done|].
  change (all_disconnected (instance :: l) s)
    with (all_disconnected l (disconnected (bridgePort instance) s)).
  rewrite IH, fmap_cons.
  assert (portInfo p (disconnected (bridgePort instance) s)
          = if decide (bridgePort instance = p) then without_connection (portInfo p s)
            else portInfo p s) as ->.
  { unfold portInfo, disconnected. cbn.
    destruct (decide (bridgePort instance = p)) as [->|Hne].
    - rewrite lookup_alter_eq. by destruct (ports s !! p).
    - by rewrite lookup_alter_ne. }
  destruct (decide (bridgePort instance = p)) as [Heq|Hne].
  - rewrite (decide_True (P := p ∈ bridgePort instance :: (bridgePort <$> l)))
      by (rewrite Heq; by left).
    case_decide; [by rewrite without_connection_idem | done].
  - destruct (decide (p ∈ bridgePort <$> l)).
    + rewrite (decide_True (P := p ∈ bridgePort instance :: (bridgePort <$> l)))
        by (by right).
      done.
    + rewrite (decide_False (P := p ∈ bridgePort instance :: (bridgePort <$> l)));
        [done|].
      intros [?|?]%elem_of_cons; congruence.
Qed.

Lemma disconnectExisting_run tabId frameId s :
  disconnectExisting tabId frameId s
  = (Ok tt, all_disconnected (occupants s tabId frameId) s).
Proof.
  unfold disconnectExisting, occupants. run_monad.
  generalize (heap s) as h. intros h.
  generalize s at 2 4 as s'.
  induction (activeInstances s) as [|i l IH]; intros s'; [done|].
  cbn [forEach omap list_omap]. run_monad.
  destruct (h !! i) as [instance|]; [|apply IH].
  rewrite filter_cons.
  destruct (decide (contentTabId instance = Some tabId
                    ∧ contentFrameId instance = Some frameId)); [|apply IH].
  rewrite disconnect_run. cbn. apply IH.
Qed.

(** ** Creation of ports and instances *)

Lemma createInstance_content_run env s contentPort tabId frameId :
  kind (portInfo contentPort s) = RuntimePort →
  senderTabId (portInfo contentPort s) = Some tabId →
  senderFrameId (portInfo contentPort s) = Some frameId →
  exec (createInstance env contentPort) s
  = created_from_content env contentPort tabId frameId s.
Proof.
  intros Hkind Htab Hframe.
  pose proof (all_disconnected_frame (occupants s tabId frameId) s) as Hfr.
  cbv zeta in Hfr.
  destruct Hfr as (_ & _ & Hact & Hheap & Href & Hport & _ & _ & Hlog).
  unfold created_from_content, wired_ports.
  set (s0 := all_disconnected (occupants s tabId frameId) s) in *.
  unfold exec, createInstance. run_monad. rewrite Hkind.
  unfold createInstanceFromContent. run_monad. rewrite Htab, Hframe.
  run_monad. rewrite disconnectExisting_run. fold s0.
  unfold bridge_connect, newPort, newObj, onDisconnect_addListener,
    onMessage_addListener, alterPort, getObj, await. run_monad.
  rewrite Href, Hport, Hheap, Hact, lookup_insert_eq. cbn.
  destruct (getInfo env) as [info|]; cbn; unfold set_log; cbn;
    rewrite <- ?app_assoc; reflexivity.
Qed.

Lemma wired_ports_other i bp cp m q :
  q ≠ bp → q ≠ cp → wired_ports i bp cp m !! q = m !! q.
Proof.
  intros Hb Hc. unfold wired_ports.
  rewrite !lookup_alter_ne by done. by rewrite lookup_insert_ne.
Qed.

Lemma elem_of_Set_add_old (i j : InstRef) (l : list InstRef) :
  j ∈ l → j ∈ Set_add i l.
Proof.
  intros Hj. unfold Set_add. case_decide; [done|].
  apply elem_of_app. by left.
Qed.

Lemma elem_of_Set_add_new (i : InstRef) (l : list InstRef) : i ∈ Set_add i l.
Proof.
  unfold Set_add. case_decide; [done|].
  apply elem_of_app. right. by left.
Qed.

(** [createInstance] for a content port with a sender: the bridge ports of
    the instances recorded at the sender's tab and frame are disconnected
    before the new bridge port is opened, and nobody leaves the live set. *)
Lemma createInstance_at_occupied_frame
    (env : Env) (s : State) (contentPort : PortId) (tabId : TabId) (frameId : FrameId) :
  kind (portInfo contentPort s) = RuntimePort →
  senderTabId (portInfo contentPort s) = Some tabId →
  senderFrameId (portInfo contentPort s) = Some frameId →
  let s' := exec (createInstance env contentPort) s in
  let new := mkInstance (nextPort s) contentPort (Some tabId) (Some frameId) None in
  log s' = log s
           ++ map (λ old, EDisconnect (bridgePort old)) (occupants s tabId frameId)
           ++ EConnect (nextPort s)
              :: match getInfo env with
                 | Fulfilled info => [EPostMessage contentPort (initialized info)]
                 | Rejected => []
                 end
  ∧ heap s' = <[nextRef s := new]> (heap s)
  ∧ activeInstances s' = Set_add (nextRef s) (activeInstances s)
  ∧ (∀ j, j ∈ activeInstances s → j ∈ activeInstances s')
  ∧ nextRef s ∈ activeInstances s'
  ∧ (∀ old, old ∈ occupants s tabId frameId →
            bridgePort old ≠ nextPort s →
            connected (portInfo (bridgePort old) s') = false).
Proof.
  intros Hkind Htab Hframe s' new.
  pose proof (all_disconnected_frame (occupants s tabId frameId) s) as Hfr.
  cbv zeta in Hfr.
  destruct Hfr as (_ & _ & _ & _ & _ & _ & _ & _ & Hlog).
  assert (Hs' : s' = created_from_content env contentPort tabId frameId s)
    by (by apply createInstance_content_run).
  split_and!.
  - rewrite Hs'. cbn. rewrite Hlog. by rewrite <- app_assoc.
  - by rewrite Hs'.
  - by rewrite Hs'.
  - intros j Hj. rewrite Hs'. cbn. by apply elem_of_Set_add_old.
  - rewrite Hs'. cbn. apply elem_of_Set_add_new.
  - intros old Hold Hfresh. rewrite Hs'.
    unfold portInfo, created_from_content.
    cbn [ports set_log set_activeInstances set_ports].
    set (s0 := all_disconnected (occupants s tabId frameId) s).
    pose proof (all_disconnected_portInfo (occupants s tabId frameId) s (bridgePort old))
      as Hinfo.
    rewrite decide_True in Hinfo by (by apply list_elem_of_fmap_2).
    fold s0 in Hinfo. unfold portInfo in Hinfo.
    assert (connected (default (mkPort RuntimePort "" None None false [] [])
                         (ports s0 !! bridgePort old)) = false) as Hc.
    { rewrite Hinfo. by destruct (default _ _). }
    destruct (decide (contentPort = bridgePort old)) as [->|Hne].
    + unfold wired_ports. rewrite !lookup_alter_eq. rewrite !lookup_alter_ne by done.
      rewrite lookup_insert_ne by done.
      destruct (ports s0 !! bridgePort old) as [[]|]; cbn in *; done.
    + by rewrite wired_ports_other.
Qed.

(** ** Well-formed states *)

Lemma evolves_refl s : evolves s s.
Proof. by split. Qed.

Lemma evolves_trans s1 s2 s3 : evolves s1 s2 → evolves s2 s3 → evolves s1 s3.
Proof.
  intros [A1 A2 A3 A4 A5 A6] [B1 B2 B3 B4 B5 B6]. split.
  - by rewrite B1.
  - by rewrite B2.
  - intros p. by rewrite B3.
  - intros p. by rewrite B4.
  - intros i. by rewrite B5.
  - by etrans.
Qed.

Lemma evolves_wf s s' : evolves s s' → wf s → wf s'.
Proof.
  intros [E1 E2 E3 E4 E5 E6] [H1 H2 H3 H4 H5 H6].
  assert (∀ i, i ∈ activeInstances s' → i ∈ activeInstances s) as Hin.
  { intros i Hi. by eapply elem_of_sublist. }
  assert (∀ i instance', heap s' !! i = Some instance' →
            ∃ instance, heap s !! i = Some instance ∧ shape instance' = shape instance)
    as Hback.
  { intros i instance' Hi. specialize (E5 i). rewrite Hi in E5.
    destruct (heap s !! i) as [instance|]; [|done].
    exists instance. split; [done|].
    cbn [fmap option_fmap option_map] in E5. congruence. }
  split.
  - intros p Hp. apply E3, H1. by rewrite <- E1.
  - intros i Hi. specialize (E5 i). rewrite H2 in E5 by (by rewrite <- E2).
    by apply fmap_None in E5.
  - by eapply sublist_NoDup.
  - intros i Hi. destruct (H4 i (Hin i Hi)) as [instance Hsome].
    specialize (E5 i). rewrite Hsome in E5.
    apply fmap_Some in E5 as (instance' & Hsome' & _). by exists instance'.
  - intros i instance' Hi. destruct (Hback i instance' Hi) as (instance & Hsome & Hshape).
    injection Hshape as -> -> _ _. rewrite E1. by apply (H5 i).
  - intros i instance' Hlive Hi Htab.
    destruct (Hback i instance' Hi) as (instance & Hsome & Hshape).
    injection Hshape as Hb Hc Ht _. rewrite Hb, Hc, !E4.
    apply H6; [by apply Hin | done | by rewrite <- Ht].
Qed.

Section Frames.

Lemma frames_ret {A} (a : A) : frames (mret a).
Proof. intros s. apply evolves_refl. Qed.

Lemma frames_throw {A} (e : string) : frames (throw (A := A) e).
Proof. intros s. apply evolves_refl. Qed.

Lemma frames_get : frames get.
Proof. intros s. apply evolves_refl. Qed.

Lemma frames_bind {A B} (m : M A) (k : A → M B) :
  frames m → (∀ a, frames (k a)) → frames (m ≫= k).
Proof.
  intros Hm Hk s. unfold mbind, M_bind, bind.
  specialize (Hm s). destruct (m s) as [[a|e] s1]; [|done].
  eapply evolves_trans; [exact Hm | apply Hk].
Qed.

Lemma frames_forEach {A} (l : list A) (body : A → M unit) :
  (∀ x, frames (body x)) → frames (forEach l body).
Proof.
  intros Hbody. induction l as [|x l IH]; [apply frames_ret|].
  cbn [forEach]. apply frames_bind; [apply Hbody | intros _; apply IH].
Qed.

Lemma frames_notAwaited {A} (m : M A) : frames m → frames (notAwaited m).
Proof. intros Hm s. apply (Hm s). Qed.

Lemma frames_tryCatch {A} (m h : M A) : frames m → frames h → frames (tryCatch m h).
Proof.
  intros Hm Hh s. unfold tryCatch.
  specialize (Hm s). destruct (m s) as [[a|e] s1]; [done|].
  eapply evolves_trans; [exact Hm | apply Hh].
Qed.

Lemma frames_await {A} (a : Answer A) : frames (await a).
Proof. destruct a; [apply frames_ret | apply frames_throw]. Qed.

(** A change of the registry's fields, the clock, the timers or the log. *)
Lemma frames_modify_outside (f : State → State) :
  (∀ s, nextPort (f s) = nextPort s ∧ nextRef (f s) = nextRef s
        ∧ ports (f s) = ports s ∧ heap (f s) = heap s
        ∧ activeInstances (f s) = activeInstances s) →
  frames (modify f).
Proof.
  intros Hf s. destruct (Hf s) as (H1 & H2 & H3 & H4 & H5). cbn. split.
  - done.
  - done.
  - intros p. by rewrite H3.
  - intros p. unfold portInfo. by rewrite H3.
  - intros i. by rewrite H4.
  - by rewrite H5.
Qed.

Lemma frames_emit (e : Effect) : frames (emit e).
Proof. apply frames_modify_outside. intros s. by split_and!. Qed.

Lemma frames_alterPort (f : PortState → PortState) (p : PortId) :
  (∀ ps, onDisconnectListeners (f ps) = onDisconnectListeners ps) →
  frames (alterPort f p).
Proof.
  intros Hf s. cbn. split; cbn; try done.
  - intros q. destruct (decide (p = q)) as [->|Hne].
    + rewrite lookup_alter_eq. apply fmap_None.
    + by rewrite lookup_alter_ne.
  - intros q. unfold portInfo. cbn. destruct (decide (p = q)) as [->|Hne].
    + rewrite lookup_alter_eq. destruct (ports s !! q); cbn; [apply Hf | done].
    + by rewrite lookup_alter_ne.
Qed.

Lemma frames_set_appId (a : option string) (i : InstRef) :
  frames (modify (λ s, set_heap (alter (with_appId a) i (heap s)) s)).
Proof.
  intros s. cbn. split; cbn; try done.
  intros j. destruct (decide (i = j)) as [->|Hne].
  - rewrite lookup_alter_eq. by destruct (heap s !! j).
  - by rewrite lookup_alter_ne.
Qed.

Lemma frames_Set_delete (i : InstRef) :
  frames (modify (λ s, set_activeInstances (Set_delete i (activeInstances s)) s)).
Proof.
  intros s. cbn. split; cbn; try done. apply sublist_filter.
Qed.

End Frames.

Ltac frames_step :=
  lazymatch goal with
  | |- frames (_ ≫= _) => apply frames_bind; [|intros ?]
  | |- frames (forEach _ _) => apply frames_forEach; intros ?
  | |- frames (notAwaited _) => apply frames_notAwaited
  | |- frames (tryCatch _ _) => apply frames_tryCatch
  | |- frames (await _) => apply frames_await
  | |- frames (mret _) => apply frames_ret
  | |- frames (throw _) => apply frames_throw
  | |- frames get => apply frames_get
  | |- frames (emit _) => apply frames_emit
  | |- frames (postMessage _ _) => apply frames_emit
  | |- frames (dispatchEvent _) => apply frames_emit
  | |- frames (logger_error _) => apply frames_emit
  | |- frames (match ?x with _ => _ end) => destruct x
  end.

Ltac frames_auto := repeat frames_step.

Lemma frames_throw_logger_error {A} (msg : string) :
  frames (throw_logger_error (A := A) msg).
Proof. unfold throw_logger_error. frames_auto. Qed.

Lemma frames_disconnect (p : PortId) : frames (disconnect p).
Proof.
  unfold disconnect. frames_auto. apply frames_alterPort. by intros [].
Qed.

Lemma frames_close (p : PortId) : frames (close p).
Proof.
  unfold close. frames_auto. apply frames_alterPort. by intros [].
Qed.

Lemma frames_onMessage_removeListener (p : PortId) (l : Listener) :
  frames (onMessage_removeListener p l).
Proof. apply frames_alterPort. by intros []. Qed.

Lemma frames_setTimeout (cb : TimerCallback) (delay : N) : frames (setTimeout cb delay).
Proof.
  unfold setTimeout. frames_auto.
  apply frames_modify_outside. intros s. by split_and!.
Qed.

Lemma frames_getObj (i : InstRef) : frames (getObj i).
Proof. unfold getObj. frames_auto. Qed.

Lemma frames_onBridgeMessage (message : Message) : frames (onBridgeMessage message).
Proof.
  unfold onBridgeMessage. frames_auto;
    apply frames_modify_outside; intros s; by split_and!.
Qed.

Lemma frames_onBridgeDisconnect : frames onBridgeDisconnect.
Proof.
  unfold onBridgeDisconnect. frames_auto.
  - apply frames_modify_outside. intros s. by split_and!.
  - apply frames_setTimeout.
Qed.

Lemma frames_onDisconnect (i : InstRef) : frames (onDisconnect i).
Proof.
  unfold onDisconnect. frames_auto;
    auto using frames_getObj, frames_onMessage_removeListener, frames_disconnect,
      frames_Set_delete.
Qed.

Lemma frames_tabs_executeScript env tabId frameId what :
  frames (tabs_executeScript env tabId frameId what).
Proof. unfold tabs_executeScript. frames_auto. Qed.

Lemma frames_new_URL env text : frames (new_URL env text).
Proof. unfold new_URL. frames_auto. Qed.

Lemma frames_loadSender env tabId frameId selection :
  frames (loadSender env tabId frameId selection).
Proof.
  unfold loadSender. frames_auto;
    auto using frames_getObj, frames_tabs_executeScript, frames_throw_logger_error,
      frames_new_URL.
Qed.

Lemma frames_missing_data {A} : frames (missing_data (A := A)).
Proof. apply frames_throw. Qed.

Lemma frames_handleLocally env i instance message :
  frames (handleLocally env i instance message).
Proof.
  unfold handleLocally. frames_auto;
    auto using frames_set_appId, frames_loadSender, frames_throw_logger_error,
      frames_missing_data.
Qed.

Lemma frames_handleContentMessage env i message :
  frames (handleContentMessage env i message).
Proof.
  unfold handleContentMessage. frames_auto;
    auto using frames_getObj, frames_handleLocally.
Qed.

Lemma frames_runMessageListener env l message :
  frames (runMessageListener env l message).
Proof.
  unfold runMessageListener, forwardToContent. frames_auto;
    auto using frames_getObj, frames_handleContentMessage, frames_onBridgeMessage.
Qed.

Lemma frames_runDisconnectListener l : frames (runDisconnectListener l).
Proof.
  unfold runDisconnectListener. frames_auto;
    auto using frames_getObj, frames_onDisconnect, frames_close, frames_Set_delete,
      frames_onBridgeDisconnect.
Qed.

Lemma frames_deliverMessage env p message : frames (deliverMessage env p message).
Proof. unfold deliverMessage. frames_auto. apply frames_runMessageListener. Qed.

Lemma frames_deliverDisconnect p : frames (deliverDisconnect p).
Proof.
  unfold deliverDisconnect. frames_auto.
  - apply frames_alterPort. by intros [].
  - apply frames_runDisconnectListener.
Qed.

Lemma newPort_run k nm tab frame s :
  newPort k nm tab frame s
  = (Ok (nextPort s), port_added (mkPort k nm tab frame true [] []) s).
Proof. reflexivity. Qed.

Lemma portInfo_port_added_old ps s q :
  q ≠ nextPort s → portInfo q (port_added ps s) = portInfo q s.
Proof. intros Hq. unfold portInfo, port_added. cbn. by rewrite lookup_insert_ne. Qed.

Lemma portInfo_port_added_new ps s : portInfo (nextPort s) (port_added ps s) = ps.
Proof. unfold portInfo, port_added. cbn. by rewrite lookup_insert_eq. Qed.

Lemma wf_port_added ps s : wf s → wf (port_added ps s).
Proof.
  intros [H1 H2 H3 H4 H5 H6]. split; cbn; try done.
  - intros q Hq. rewrite lookup_insert_ne by lia. apply H1. lia.
  - intros i instance Hi. destruct (H5 i instance Hi). lia.
  - intros i instance Hlive Hi Htab. destruct (H5 i instance Hi).
    rewrite !portInfo_port_added_old by lia. by apply H6.
Qed.

Lemma NoDup_Set_add (i : InstRef) (l : list InstRef) : NoDup l → NoDup (Set_add i l).
Proof.
  intros Hnd. unfold Set_add. case_decide; [done|].
  apply NoDup_app. split_and!; [done | | apply NoDup_singleton].
  intros j Hj ->%list_elem_of_singleton. done.
Qed.

Lemma elem_of_Set_add (i j : InstRef) (l : list InstRef) :
  j ∈ Set_add i l ↔ j = i ∨ j ∈ l.
Proof.
  unfold Set_add. case_decide.
  - split; [by right | by intros [->|?]].
  - rewrite elem_of_app, list_elem_of_singleton. tauto.
Qed.

Lemma frames_disconnectExisting tabId frameId : frames (disconnectExisting tabId frameId).
Proof. unfold disconnectExisting. frames_auto. apply frames_disconnect. Qed.

Lemma evolves_all_disconnected s tabId frameId :
  evolves s (all_disconnected (occupants s tabId frameId) s).
Proof.
  pose proof (frames_disconnectExisting tabId frameId s) as H.
  by rewrite disconnectExisting_run in H.
Qed.

Lemma wired_ports_bridge i bp cp m :
  bp ≠ cp →
  onDisconnectListeners <$> wired_ports i bp cp m !! bp = Some [DisconnectListener i].
Proof.
  intros Hne. unfold wired_ports.
  rewrite !(lookup_alter_ne _ _ cp bp) by done.
  rewrite !lookup_alter_eq, lookup_insert_eq. reflexivity.
Qed.

Lemma wired_ports_content i bp cp m ps :
  bp ≠ cp → m !! cp = Some ps → onDisconnectListeners ps = [] →
  onDisconnectListeners <$> wired_ports i bp cp m !! cp = Some [DisconnectListener i].
Proof.
  intros Hne Hps Hl. unfold wired_ports.
  rewrite !lookup_alter_eq. rewrite !lookup_alter_ne by done.
  rewrite lookup_insert_ne by done. rewrite Hps. destruct ps. cbn in *. by rewrite Hl.
Qed.

Lemma wf_created_from_content env cp tabId frameId s :
  wf s →
  is_Some (ports s !! cp) →
  onDisconnectListeners (portInfo cp s) = [] →
  (∀ i instance, heap s !! i = Some instance →
     bridgePort instance ≠ cp ∧ contentPort instance ≠ cp) →
  wf (created_from_content env cp tabId frameId s).
Proof.
  intros Hwf [ps Hps] Hquiet Hunused.
  pose proof (evolves_all_disconnected s tabId frameId) as Hev.
  pose proof (evolves_wf _ _ Hev Hwf) as Hwf1.
  destruct Hev as [E1 E2 E3 E4 E5 E6]. destruct Hwf as [H1 H2 H3 H4 H5 H6].
  pose proof (all_disconnected_frame (occupants s tabId frameId) s) as Hfr.
  cbv zeta in Hfr. destruct Hfr as (_ & _ & Hact & Hheap & _).
  set (s1 := all_disconnected (occupants s tabId frameId) s) in *.
  assert (cp < nextPort s) as Hcp.
  { destruct (decide (cp < nextPort s)) as [|Hge]; [done|].
    rewrite H1 in Hps by lia. done. }
  assert (nextPort s ≠ cp) as Hne by lia.
  destruct (ports s1 !! cp) as [ps1|] eqn:Hps1;
    [|apply E3 in Hps1; congruence].
  assert (onDisconnectListeners ps1 = []) as Hquiet1.
  { specialize (E4 cp). unfold portInfo in E4.
    rewrite Hps1 in E4. cbn in E4. by rewrite E4. }
  unfold created_from_content. fold s1. split; cbn.
  - intros q Hq. rewrite wired_ports_other by lia. apply E3, H1. lia.
  - intros i Hi. rewrite lookup_insert_ne by lia. apply H2. lia.
  - by apply NoDup_Set_add.
  - intros i [->|Hi]%elem_of_Set_add.
    + rewrite lookup_insert_eq. by eexists.
    + destruct (H4 i Hi) as [instance Hsome].
      destruct (decide (nextRef s = i)) as [<-|Hni].
      * rewrite H2 in Hsome by lia. done.
      * rewrite lookup_insert_ne by done. by eexists.
  - intros i instance Hi. destruct (decide (nextRef s = i)) as [<-|Hni].
    + rewrite lookup_insert_eq in Hi. injection Hi as <-. cbn. lia.
    + rewrite lookup_insert_ne in Hi by done. destruct (H5 i instance Hi). lia.
  - intros i instance Hlive Hi Htab. unfold portInfo. cbn.
    destruct (decide (nextRef s = i)) as [<-|Hni].
    + rewrite lookup_insert_eq in Hi. injection Hi as <-. cbn.
      pose proof (wired_ports_bridge (nextRef s) (nextPort s) cp (ports s1) Hne)
        as Hb.
      pose proof (wired_ports_content (nextRef s) (nextPort s) cp (ports s1) ps1
                    Hne Hps1 Hquiet1) as Hc.
      apply fmap_Some in Hb as (pb & -> & Hb). apply fmap_Some in Hc as (pc & -> & Hc).
      cbn. by rewrite <- Hb, <- Hc.
    + rewrite lookup_insert_ne in Hi by done.
      destruct (H5 i instance Hi) as [Hb Hc]. destruct (Hunused i instance Hi) as [Hb' Hc'].
      rewrite !wired_ports_other by (done || lia).
      apply elem_of_Set_add in Hlive as [->|Hlive]; [done|].
      specialize (H6 i instance Hlive Hi Htab). unfold portInfo in H6.
      pose proof (E4 (bridgePort instance)) as Eb.
      pose proof (E4 (contentPort instance)) as Ec.
      unfold portInfo in Eb, Ec. by rewrite Eb, Ec.
Qed.

(** A step that allocates ports, leaves the instances and the live set
    alone and does not touch the disconnect listeners of the ports that were
    there keeps a state well formed. *)
Lemma wf_ports_allocated (s s' : State) :
  wf s →
  nextPort s ≤ nextPort s' → nextRef s' = nextRef s →
  heap s' = heap s → activeInstances s' = activeInstances s →
  (∀ q, nextPort s' ≤ q → ports s' !! q = None) →
  (∀ q, q < nextPort s →
        onDisconnectListeners (portInfo q s') = onDisconnectListeners (portInfo q s)) →
  wf s'.
Proof.
  intros [H1 H2 H3 H4 H5 H6] Hnp Hnr Hheap Hact Hfresh Hold. split.
  - done.
  - intros i Hi. rewrite Hheap. apply H2. by rewrite <- Hnr.
  - by rewrite Hact.
  - intros i Hi. rewrite Hheap. apply H4. by rewrite <- Hact.
  - intros i instance Hi. rewrite Hheap in Hi. destruct (H5 i instance Hi). lia.
  - intros i instance Hlive Hi Htab. rewrite Hheap in Hi. rewrite Hact in Hlive.
    destruct (H5 i instance Hi). rewrite !Hold by done. by apply H6.
Qed.

Lemma listeners_without_connection (d : PortState) (o : option PortState) :
  onDisconnectListeners (default d (without_connection <$> o))
  = onDisconnectListeners (default d o).
Proof. by destruct o as [[]|]. Qed.

Lemma listeners_with_onMessage (d : PortState) (f : PortState → list Listener)
    (o : option PortState) :
  onDisconnectListeners (default d ((λ ps, with_onMessage (f ps) ps) <$> o))
  = onDisconnectListeners (default d o).
Proof. by destruct o as [[]|]. Qed.

Lemma wf_refreshed s : wf s → wf (refreshed s).
Proof.
  intros Hwf. apply (wf_ports_allocated s); try done.
  - cbn. lia.
  - intros q Hq. rewrite ports_refreshed. rewrite lookup_insert_ne by (cbn in Hq; lia).
    destruct (dmBridgePort s) as [old|].
    + apply lookup_alter_None, (wf_ports_fresh s Hwf). cbn in Hq. lia.
    + apply (wf_ports_fresh s Hwf). cbn in Hq. lia.
  - intros q Hq. unfold portInfo. rewrite ports_refreshed.
    rewrite lookup_insert_ne by lia.
    destruct (dmBridgePort s) as [old|]; [|done].
    destruct (decide (old = q)) as [->|Hne].
    + rewrite lookup_alter_eq. apply listeners_without_connection.
    + by rewrite lookup_alter_ne.
Qed.

Lemma createInstance_background_run env s cp :
  kind (portInfo cp s) = MessagePort →
  exec (createInstance env cp) s = created_from_background env cp s.
Proof.
  intros Hkind. unfold created_from_background.
  unfold exec, createInstance. run_monad. rewrite Hkind.
  unfold createInstanceFromBackground, bridge_connect, newPort, newObj,
    onDisconnect_addListener, onMessage_addListener, alterPort, getObj, await.
  run_monad. rewrite lookup_insert_eq. cbn.
  rewrite !alter_insert_eq. cbn.
  destruct (getInfo env) as [info|]; cbn; unfold set_log; cbn;
    rewrite <- ?app_assoc; reflexivity.
Qed.

Lemma listeners_created_from_background env cp s q :
  q < nextPort s →
  onDisconnectListeners (portInfo q (created_from_background env cp s))
  = onDisconnectListeners (portInfo q s).
Proof.
  intros Hq. unfold portInfo, created_from_background.
  cbn [ports set_log set_activeInstances set_ports].
  destruct (decide (cp = q)) as [->|Hne].
  - rewrite lookup_alter_eq, lookup_insert_ne by lia.
    apply (listeners_with_onMessage _
             (λ ps, addL (BgContentMessageListener (nextRef s)) (onMessageListeners ps))).
  - rewrite lookup_alter_ne by done. by rewrite lookup_insert_ne by lia.
Qed.

Lemma wf_created_from_background env cp s :
  wf s → cp < nextPort s → wf (created_from_background env cp s).
Proof.
  intros [H1 H2 H3 H4 H5 H6] Hcp. split.
  - cbn. intros q Hq. rewrite lookup_alter_ne by lia. rewrite lookup_insert_ne by lia.
    apply H1. lia.
  - cbn. intros i Hi. rewrite lookup_insert_ne by lia. apply H2. lia.
  - cbn. by apply NoDup_Set_add.
  - cbn. intros i [->|Hi]%elem_of_Set_add.
    + rewrite lookup_insert_eq. by eexists.
    + destruct (H4 i Hi) as [instance Hsome].
      destruct (decide (nextRef s = i)) as [<-|Hni].
      * rewrite H2 in Hsome by lia. done.
      * rewrite lookup_insert_ne by done. by eexists.
  - cbn. intros i instance Hi. destruct (decide (nextRef s = i)) as [<-|Hni].
    + rewrite lookup_insert_eq in Hi. injection Hi as <-. cbn. lia.
    + rewrite lookup_insert_ne in Hi by done. destruct (H5 i instance Hi). lia.
  - intros i instance Hlive Hi Htab.
    change (activeInstances (created_from_background env cp s))
      with (Set_add (nextRef s) (activeInstances s)) in Hlive.
    change (heap (created_from_background env cp s))
      with (<[nextRef s := mkInstance (nextPort s) cp None None None]> (heap s)) in Hi.
    destruct (decide (nextRef s = i)) as [<-|Hni].
    + rewrite lookup_insert_eq in Hi. injection Hi as <-. by destruct Htab.
    + rewrite lookup_insert_ne in Hi by done.
      apply elem_of_Set_add in Hlive as [->|Hlive]; [done|].
      destruct (H5 i instance Hi) as [Hb Hc].
      rewrite !listeners_created_from_background by done. by apply H6.
Qed.

(** ** Every reachable state is well formed *)

Lemma preserves_bind {A B} (P : State → Prop) (m : M A) (k : A → M B) :
  preserves P m → (∀ a, preserves P (k a)) → preserves P (m ≫= k).
Proof.
  intros Hm Hk s Hs. unfold mbind, M_bind, bind.
  specialize (Hm s Hs). destruct (m s) as [[a|e] s1]; [|done].
  by apply Hk.
Qed.

Lemma preserves_forEach {A} (P : State → Prop) (l : list A) (body : A → M unit) :
  (∀ x, preserves P (body x)) → preserves P (forEach l body).
Proof.
  intros Hbody. induction l as [|x l IH]; [by intros s|].
  cbn [forEach]. apply preserves_bind; [apply Hbody | intros _; apply IH].
Qed.

Lemma frames_preserves_wf {A} (m : M A) : frames m → preserves wf m.
Proof. intros Hm s Hs. apply (evolves_wf s); [apply Hm | done]. Qed.

Lemma wf_initialState : wf initialState.
Proof.
  split; cbn.
  - intros p _. apply lookup_empty.
  - intros i _. apply lookup_empty.
  - constructor.
  - intros i Hi. by apply elem_of_nil in Hi.
  - intros i instance Hi. by rewrite lookup_empty in Hi.
  - intros i instance Hi. by apply elem_of_nil in Hi.
Qed.

Lemma preserves_wf_refresh : preserves wf refresh.
Proof. intros s Hs. rewrite refresh_refreshed. by apply wf_refreshed. Qed.

Lemma preserves_wf_advanceTo t : preserves wf (advanceTo t).
Proof.
  unfold advanceTo. apply preserves_bind; [by intros s|]. intros s0.
  apply preserves_bind.
  - apply frames_preserves_wf, frames_modify_outside. intros s. by split_and!.
  - intros _. apply preserves_forEach. intros [due []]. apply preserves_wf_refresh.
Qed.

Lemma preserves_wf_init_deviceManager : preserves wf init_deviceManager.
Proof.
  unfold init_deviceManager. apply preserves_bind; [by intros s|]. intros s0.
  destruct (dmBridgePort s0); [by intros s | apply preserves_wf_refresh].
Qed.

Lemma createInstance_without_sender env cp s :
  kind (portInfo cp s) = RuntimePort →
  senderTabId (portInfo cp s) = None ∨ senderFrameId (portInfo cp s) = None →
  evolves s (exec (createInstance env cp) s).
Proof.
  intros Hkind Hsender.
  assert (exec (createInstance env cp) s
          = (throw_logger_error (A := InstRef)
               "Cast instance created from content with an invalid port context." s).2)
    as ->.
  { unfold exec, createInstance. run_monad. rewrite Hkind.
    unfold createInstanceFromContent. run_monad.
    destruct Hsender as [-> | ->]; [done|].
    by destruct (senderTabId (portInfo cp s)). }
  apply frames_throw_logger_error.
Qed.

Lemma wf_incoming_connection env nm tab frame s :
  wf s → wf (exec (step env (IncomingConnection nm tab frame)) s).
Proof.
  intros Hwf.
  set (s1 := port_added (mkPort RuntimePort nm tab frame true [] []) s).
  assert (wf s1) as Hwf1 by (by apply wf_port_added).
  assert (portInfo (nextPort s) s1 = mkPort RuntimePort nm tab frame true [] []) as Hinfo
    by apply portInfo_port_added_new.
  assert (exec (step env (IncomingConnection nm tab frame)) s
          = if String.eqb nm "cast" then exec (createInstance env (nextPort s)) s1 else s1)
    as ->.
  { unfold exec, step. cbn [mbind M_bind bind]. unfold mbind, M_bind, bind.
    rewrite newPort_run. fold s1. unfold onConnect. run_monad. rewrite Hinfo. cbn.
    by destruct (String.eqb nm "cast"). }
  destruct (String.eqb nm "cast"); [|done].
  destruct tab as [tabId|], frame as [frameId|];
    [| apply (evolves_wf s1); [|done]; apply createInstance_without_sender;
       rewrite Hinfo; auto ..].
  rewrite (createInstance_content_run env s1 (nextPort s) tabId frameId)
    by (by rewrite Hinfo).
  apply wf_created_from_content; [done | | by rewrite Hinfo |].
  - subst s1. unfold port_added. cbn. rewrite lookup_insert_eq. by eexists.
  - intros i instance Hi. destruct (wf_instance_ports s Hwf i instance Hi). lia.
Qed.

Lemma wf_background_instance env s :
  wf s → wf (exec (step env BackgroundInstance) s).
Proof.
  intros Hwf.
  set (s1 := port_added (mkPort MessagePort "" None None true [] []) s).
  assert (wf s1) as Hwf1 by (by apply wf_port_added).
  assert (exec (step env BackgroundInstance) s
          = exec (createInstance env (nextPort s)) s1) as ->.
  { unfold exec, step. unfold mbind, M_bind, bind. by rewrite newPort_run. }
  rewrite createInstance_background_run
    by (subst s1; by rewrite portInfo_port_added_new).
  apply wf_created_from_background; [done|]. cbn. lia.
Qed.

Lemma step_wf env ev s : wf s → wf (exec (step env ev) s).
Proof.
  intros Hwf. destruct ev as [| nm tab frame | | p m | p | t].
  - by apply (preserves_wf_init_deviceManager s).
  - by apply wf_incoming_connection.
  - by apply wf_background_instance.
  - by apply (frames_preserves_wf _ (frames_deliverMessage env p m)).
  - by apply (frames_preserves_wf _ (frames_deliverDisconnect p)).
  - by apply (preserves_wf_advanceTo t).
Qed.

Theorem reachable_wf s : reachable s → wf s.
Proof.
  induction 1 as [|env ev s _ IH]; [apply wf_initialState | by apply step_wf].
Qed.

(** ** Teardown, over every reachable state *)

(** C8: in every reachable state, for a live instance made by
    [createInstanceFromContent] (it carries a tab id), the disconnect events
    of its two ports may come in either order.  The first one runs the
    teardown closure: it removes the two message listeners, calls
    [disconnect] on both ports (so the other one is disconnected too) and
    takes the instance out of the live set, which loses exactly that one
    member.  The second one runs the same closure again: it returns
    normally, repeats the two [disconnect] calls, and leaves the live set and
    the ports as they are. *)
Theorem teardown_is_idempotent
    (s : State) (i : InstRef) (instance : CastInstance) (first second : PortId) :
  reachable s →
  i ∈ activeInstances s →
  heap s !! i = Some instance →
  is_Some (contentTabId instance) →
  (first = bridgePort instance ∧ second = contentPort instance)
  ∨ (first = contentPort instance ∧ second = bridgePort instance) →
  let s1 := exec (deliverDisconnect first) s in
  let s2 := exec (deliverDisconnect second) s1 in
  let calls := [EDisconnect (bridgePort instance); EDisconnect (contentPort instance)] in
  onDisconnect i s = (Ok tt, s1)
  ∧ (BridgePortMessageListener i ∉ onMessageListeners (portInfo (bridgePort instance) s1))
  ∧ (ContentPortMessageListener i ∉ onMessageListeners (portInfo (contentPort instance) s1))
  ∧ connected (portInfo (bridgePort instance) s1) = false
  ∧ connected (portInfo (contentPort instance) s1) = false
  ∧ log s1 = log s ++ calls
  ∧ activeInstances s1 = Set_delete i (activeInstances s)
  ∧ (i ∉ activeInstances s1)
  ∧ S (length (activeInstances s1)) = length (activeInstances s)
  ∧ onDisconnect i s1 = (Ok tt, s2)
  ∧ s2 = set_log (log s1 ++ calls) s1
  ∧ activeInstances s2 = activeInstances s1.
Proof.
  intros Hreach Hlive Hi Htab Horder.
  pose proof (reachable_wf s Hreach) as Hwf.
  destruct (wf_wired s Hwf i instance Hlive Hi Htab) as [Hb Hc].
  pose proof (wf_nodup s Hwf) as Hnd.
  by apply teardown_twice.
Qed.

Lemma teardown_is_idempotent_witness :
  let s1 := exec (deliverDisconnect 1) one_instance_in_frame_5 in
  let s2 := exec (deliverDisconnect 0) s1 in
  activeInstances one_instance_in_frame_5 = [0]
  ∧ activeInstances s1 = []
  ∧ onDisconnect 0 s1 = (Ok tt, s2)
  ∧ activeInstances s2 = []
  ∧ log s2 = log one_instance_in_frame_5
             ++ [EDisconnect 1; EDisconnect 0; EDisconnect 1; EDisconnect 0].
Proof.
  destruct (teardown_is_idempotent one_instance_in_frame_5 0
              (mkInstance 1 0 (Some 1) (Some 5) None) 1 0)
    as (_ & _ & _ & _ & _ & Hlog1 & Hact1 & _ & _ & Hagain & Hs2 & Hact2).
  - apply (reachable_step quiet_env _ initialState reachable_init).
  - by left.
  - vm_compute. reflexivity.
  - by eexists.
  - left. split; reflexivity.
  - split_and!.
    + reflexivity.
    + exact Hact1.
    + exact Hagain.
    + rewrite Hact2. exact Hact1.
    + rewrite Hs2. cbn [log set_log]. rewrite Hlog1. by rewrite <- app_assoc.
Defined.

(** * More of deviceManager.ts *)

(** ** The ordered map, once more *)

Section JsMapMore.
Context {V : Type}.
Implicit Types (m : list (string * V)) (k : string) (v : V).

Lemma Map_get_elem_of k v m : Map_get k m = Some v → (k, v) ∈ m.
Proof.
  induction m as [|[k' v'] m IH]; [done|]. cbn [Map_get].
  case_decide as Hk.
  - intros [= ->]. subst k'. by left.
  - intros Hm. right. by apply IH.
Qed.

Lemma Map_delete_absent k m : Map_get k m = None → Map_delete k m = m.
Proof.
  induction m as [|[k' v'] m IH]; [done|]. cbn [Map_get].
  case_decide as Hk; [done|]. intros Hm.
  unfold Map_delete in *. rewrite filter_cons_True by done. by rewrite IH.
Qed.

Lemma Map_delete_set k v m : Map_delete k (Map_set k v m) = Map_delete k m.
Proof.
  unfold Map_delete. induction m as [|[k' v'] m IH]; cbn [Map_set].
  - by rewrite filter_cons_False by (cbn; intros H; by apply H).
  - case_decide as Hk.
    + subst k'. by rewrite !filter_cons_False by (cbn; intros H; by apply H).
    + rewrite !filter_cons_True by done. by rewrite IH.
Qed.

Lemma Map_get_delete_eq k m : Map_get k (Map_delete k m) = None.
Proof.
  unfold Map_delete. induction m as [|[k' v'] m IH]; [done|].
  destruct (decide (k' = k)) as [->|Hne].
  - by rewrite filter_cons_False by (cbn; intros H; by apply H).
  - rewrite filter_cons_True by done. cbn [Map_get]. by rewrite decide_False.
Qed.

Lemma Map_set_set k v v' m : Map_set k v (Map_set k v' m) = Map_set k v m.
Proof.
  induction m as [|[k0 v0] m IH]; cbn [Map_set].
  - by rewrite decide_True.
  - case_decide as Hk; cbn [Map_set].
    + by rewrite decide_True.
    + rewrite decide_False by done. by rewrite IH.
Qed.

Lemma Map_get_set_ne k k' v m : k ≠ k' → Map_get k' (Map_set k v m) = Map_get k' m.
Proof.
  intros Hne. induction m as [|[k0 v0] m IH]; cbn [Map_set Map_get].
  - by rewrite decide_False.
  - destruct (decide (k0 = k)) as [->|Hk]; cbn [Map_get].
    + by rewrite !decide_False.
    + by rewrite IH.
Qed.

Lemma Map_set_values_at {B} (f : V → B) k v v' m :
  Map_get k m = Some v' → f v = f v' →
  f <$> Map_values (Map_set k v m) = f <$> Map_values m.
Proof.
  intros Hget Hf. unfold Map_values.
  induction m as [|[k0 v0] m IH]; [done|]. cbn [Map_get Map_set] in *.
  case_decide as Hk.
  - injection Hget as <-. cbn. by rewrite Hf.
  - cbn. f_equal. by apply IH.
Qed.

End JsMapMore.

Ltac fields :=
  cbn [fst snd receiverDevices dmBridgePort activeInstances heap nextRef ports nextPort
       now timers log set_receiverDevices set_dmBridgePort set_activeInstances set_heap
       set_nextRef set_ports set_nextPort set_now set_timers set_log].

Lemma updatedStatus_again stored update :
  updatedStatus (Some (updatedStatus stored update)) update = updatedStatus stored update.
Proof. destruct stored as [old|], update as [a b c [apps|]]; reflexivity. Qed.

Lemma deviceUp_run s deviceId deviceInfo :
  onBridgeMessage (message_of (DeviceUp deviceId deviceInfo)) s
  = (Ok tt, set_log (log s ++ [EDispatch (receiverDeviceUp deviceInfo)])
              (set_receiverDevices (Map_set deviceId deviceInfo (receiverDevices s)) s)).
Proof. reflexivity. Qed.

Lemma deviceDown_run s deviceId :
  onBridgeMessage (message_of (DeviceDown deviceId)) s
  = (Ok tt, set_log (log s ++ [EDispatch (receiverDeviceDown deviceId)])
              (set_receiverDevices (Map_delete deviceId (receiverDevices s)) s)).
Proof.
  unfold onBridgeMessage. cbn. run_monad. unfold Map_has.
  destruct (Map_get deviceId (receiverDevices s)) as [d|] eqn:Hd; cbn; [done|].
  rewrite Map_delete_absent by done. by destruct s.
Qed.

Lemma deviceStatus_run s deviceId update :
  onBridgeMessage (message_of (DeviceStatusUpdated deviceId update)) s
  = (Ok tt,
     match Map_get deviceId (receiverDevices s) with
     | Some device =>
         let status' := updatedStatus (status device) update in
         set_log (log s ++ [EDispatch (receiverDeviceUpdated deviceId status')])
           (set_receiverDevices
              (Map_set deviceId (mkDevice (id device) (Some status')) (receiverDevices s)) s)
     | None => s
     end).
Proof.
  unfold onBridgeMessage. cbn. run_monad.
  by destruct (Map_get deviceId (receiverDevices s)).
Qed.

Lemma feed_cons u us s :
  exec (feed (u :: us)) s = exec (feed us) (exec (onBridgeMessage (message_of u)) s).
Proof.
  unfold feed. cbn [forEach]. rewrite exec_bind.
  destruct (onBridgeMessage_rule u s) as (s1 & Hrun & _). unfold exec at 3. by rewrite Hrun.
Qed.

Lemma feed_nil s : exec (feed []) s = s.
Proof. reflexivity. Qed.

(** X1: a device that is announced and then withdrawn leaves the table as the
    withdrawal alone would: the device is gone, the entries of the other
    devices keep their values and their order, and when the device was not in
    the table before, the table is exactly what it was.  Both events are
    dispatched, the up event first. *)
Theorem device_up_then_down (s : State) (deviceId : string) (deviceInfo : ReceiverDevice) :
  let s' := exec (feed [DeviceUp deviceId deviceInfo; DeviceDown deviceId]) s in
  receiverDevices s' = Map_delete deviceId (receiverDevices s)
  ∧ (Map_get deviceId (receiverDevices s) = None → receiverDevices s' = receiverDevices s)
  ∧ Map_get deviceId (receiverDevices s') = None
  ∧ log s' = log s ++ [EDispatch (receiverDeviceUp deviceInfo);
                       EDispatch (receiverDeviceDown deviceId)].
Proof.
  intros s'. subst s'. rewrite !feed_cons, feed_nil.
  unfold exec. rewrite deviceUp_run. cbn [snd]. rewrite deviceDown_run. fields.
  rewrite Map_delete_set. split_and!.
  - done.
  - apply Map_delete_absent.
  - apply Map_get_delete_eq.
  - by rewrite <- app_assoc.
Qed.

(** X2: a message of the bridge that arrives twice in a row changes the table
    no more than it did the first time; the events that the first one
    dispatched are dispatched once more. *)
Theorem repeated_update_keeps_table (s : State) (u : RegistryUpdate) :
  let s1 := exec (feed [u]) s in
  let s2 := exec (feed [u; u]) s in
  receiverDevices s2 = receiverDevices s1
  ∧ ∃ events, log s1 = log s ++ events ∧ log s2 = log s ++ events ++ events.
Proof.
  intros s1 s2. subst s1 s2. rewrite !feed_cons, !feed_nil. unfold exec.
  destruct u as [deviceId deviceInfo | deviceId | deviceId update].
  - rewrite !deviceUp_run. fields. rewrite Map_set_set. split; [done|].
    eexists. split; [done|]. by rewrite <- app_assoc.
  - rewrite !deviceDown_run. fields. split.
    + rewrite Map_delete_absent; [done | apply Map_get_delete_eq].
    + eexists. split; [done|]. by rewrite <- app_assoc.
  - rewrite !deviceStatus_run. cbn [snd].
    destruct (Map_get deviceId (receiverDevices s)) as [device|] eqn:Hd.
    + fields. rewrite Map_get_set_eq. fields. cbn [status id].
      rewrite updatedStatus_again, Map_set_set.
      split; [done|]. eexists. split; [done|]. by rewrite <- app_assoc.
    + rewrite Hd. split; [done|]. exists []. by rewrite !app_nil_r.
Qed.

(** X3: a status update changes neither the keys of the table nor their
    order nor the id of any device, it leaves the entry of every other key as
    it is, and for a device that is not in the table it changes nothing at
    all. *)
Theorem status_update_touches_one_device
    (s : State) (deviceId : string) (update : ReceiverStatus) :
  let s' := exec (onBridgeMessage (message_of (DeviceStatusUpdated deviceId update))) s in
  (receiverDevices s').*1 = (receiverDevices s).*1
  ∧ id <$> getDevices s' = id <$> getDevices s
  ∧ (∀ k, k ≠ deviceId → Map_get k (receiverDevices s') = Map_get k (receiverDevices s))
  ∧ (Map_get deviceId (receiverDevices s) = None → s' = s).
Proof.
  intros s'. subst s'. unfold exec. rewrite deviceStatus_run. cbn [snd].
  destruct (Map_get deviceId (receiverDevices s)) as [device|] eqn:Hd; [|done].
  fields. split_and!.
  - rewrite Map_set_keys. rewrite decide_True; [done|].
    apply list_elem_of_fmap. exists (deviceId, device). split; [done|].
    by apply Map_get_elem_of.
  - unfold getDevices. fields. by apply (Map_set_values_at id _ _ device).
  - intros k Hk. by apply Map_get_set_ne.
  - done.
Qed.

(** ** init, refresh and what the registry does not know *)

(** X4: [init] does what [refresh] does when the registry has no bridge port
    and nothing when it has one.  After [init] the registry has a port, a
    second [init] changes nothing, and [init] opens one bridge port at
    most. *)
Theorem init_connects_once (s : State) :
  let s1 := exec init_deviceManager s in
  (dmBridgePort s = None → init_deviceManager s = refresh s)
  ∧ (is_Some (dmBridgePort s) → init_deviceManager s = (Ok tt, s))
  ∧ is_Some (dmBridgePort s1)
  ∧ init_deviceManager s1 = (Ok tt, s1)
  ∧ opened (log s1)
    = opened (log s) ++ match dmBridgePort s with Some _ => [] | None => [nextPort s] end.
Proof.
  intros s1. subst s1. unfold exec, init_deviceManager. run_monad.
  destruct (dmBridgePort s) as [p|] eqn:Hp.
  - cbn. rewrite Hp. split_and!; [done | done | by eexists | done | by rewrite app_nil_r].
  - rewrite refresh_refreshed. cbn [snd]. split_and!.
    + done.
    + by intros [? ?].
    + by eexists.
    + done.
    + unfold refreshed. fields. rewrite Hp, opened_app. done.
Qed.

(** X5: [refresh] empties the table without dispatching any event, whatever
    the table held; the only message it posts is [bridge:startDiscovery], on
    the port it has just opened. *)
Theorem refresh_forgets_silently (s : State) :
  let s' := exec refresh s in
  getDevices s' = []
  ∧ (∀ ev, EDispatch ev ∉ drop (length (log s)) (log s'))
  ∧ (∀ p m, EPostMessage p m ∈ drop (length (log s)) (log s') →
            p = nextPort s ∧ m = startDiscovery).
Proof.
  intros s'. subst s'. unfold exec. rewrite refresh_refreshed. cbn [snd].
  unfold refreshed. fields. rewrite drop_app_length. split_and!.
  - done.
  - intros ev Hin. destruct (dmBridgePort s); not_listed Hin.
  - intros p m Hin.
    destruct (dmBridgePort s); cbn [app] in Hin;
      repeat (apply elem_of_cons in Hin as [Hin | Hin]; [try discriminate Hin|]);
      try (by apply elem_of_nil in Hin); by injection Hin as -> ->.
Qed.

(** X6: for a device id that is not in the table, [main:receiverDeviceDown]
    still dispatches [receiverDeviceDown] and leaves the table alone, and
    [main:receiverDeviceStatusUpdated] does nothing: no entry is made and no
    event is dispatched. *)
Theorem update_for_unknown_device (s : State) (deviceId : string) (update : ReceiverStatus) :
  Map_get deviceId (receiverDevices s) = None →
  onBridgeMessage (mkMessage "main:receiverDeviceDown" (DeviceDownData deviceId)) s
  = (Ok tt, set_log (log s ++ [EDispatch (receiverDeviceDown deviceId)]) s)
  ∧ onBridgeMessage (mkMessage "main:receiverDeviceStatusUpdated"
                       (DeviceStatusData deviceId update)) s
    = (Ok tt, s).
Proof.
  intros Hno. split.
  - unfold onBridgeMessage. cbn. run_monad. unfold Map_has. by rewrite Hno.
  - unfold onBridgeMessage. cbn. run_monad. by rewrite Hno.
Qed.

Lemma update_for_unknown_device_witness :
  onBridgeMessage (mkMessage "main:receiverDeviceDown" (DeviceDownData "tv"))
    registry_with_two_devices
  = (Ok tt, set_log (log registry_with_two_devices ++ [EDispatch (receiverDeviceDown "tv")])
              registry_with_two_devices)
  ∧ onBridgeMessage (mkMessage "main:receiverDeviceStatusUpdated"
                       (DeviceStatusData "tv" no_status)) registry_with_two_devices
    = (Ok tt, registry_with_two_devices).
Proof.
  apply (update_for_unknown_device registry_with_two_devices "tv" no_status).
  vm_compute. reflexivity.
Defined.

(** X7: a message whose subject is none of [main:receiverDeviceUp],
    [main:receiverDeviceDown] and [main:receiverDeviceStatusUpdated] (the
    media status update, and every subject that is meant for somebody else)
    leaves the registry as it is. *)
Theorem registry_ignores_other_subjects (s : State) (message : Message) :
  subject message ≠ "main:receiverDeviceUp" →
  subject message ≠ "main:receiverDeviceDown" →
  subject message ≠ "main:receiverDeviceStatusUpdated" →
  onBridgeMessage message s = (Ok tt, s).
Proof.
  intros H1 H2 H3. unfold onBridgeMessage.
  rewrite (proj2 (String.eqb_neq _ _) H1), (proj2 (String.eqb_neq _ _) H2),
    (proj2 (String.eqb_neq _ _) H3).
  by destruct (String.eqb _ _).
Qed.

Lemma registry_ignores_other_subjects_witness :
  onBridgeMessage (mkMessage "main:receiverDeviceMediaStatusUpdated" (OtherData "{}"))
    registry_with_two_devices
  = (Ok tt, registry_with_two_devices).
Proof.
  apply (registry_ignores_other_subjects registry_with_two_devices
           (mkMessage "main:receiverDeviceMediaStatusUpdated" (OtherData "{}")));
    discriminate.
Defined.

(** X8: [onBridgeDisconnect] keeps the port that has just gone in
    [bridgePort].  Until the timer runs [refresh], [init] therefore does not
    reconnect, and [stopReceiverApp] neither sends anything (the table is
    empty) nor logs that the connection is missing. *)
Theorem dead_port_is_kept (s : State) (p : PortId) (deviceId : string) :
  dmBridgePort s = Some p →
  let s1 := exec onBridgeDisconnect s in
  dmBridgePort s1 = Some p
  ∧ init_deviceManager s1 = (Ok tt, s1)
  ∧ stopReceiverApp deviceId s1 = (Ok tt, s1).
Proof.
  intros Hp s1. subst s1. unfold exec. rewrite onBridgeDisconnect_run. cbn [snd].
  split_and!.
  - done.
  - unfold init_deviceManager. run_monad. by rewrite Hp.
  - unfold stopReceiverApp. run_monad. by rewrite Hp.
Qed.

Lemma dead_port_is_kept_witness :
  let s1 := exec onBridgeDisconnect registry_with_two_devices in
  dmBridgePort s1 = Some 0
  ∧ init_deviceManager s1 = (Ok tt, s1)
  ∧ stopReceiverApp "a" s1 = (Ok tt, s1).
Proof.
  apply (dead_port_is_kept registry_with_two_devices 0 "a"). reflexivity.
Defined.

(** * More of castManager.ts *)

(** ** Connections, device events and main:selectReceiver *)

Lemma incoming_connection_run env nm tab frame s :
  let s1 := port_added (mkPort RuntimePort nm tab frame true [] []) s in
  step env (IncomingConnection nm tab frame) s
  = (Ok tt, if String.eqb nm "cast" then exec (createInstance env (nextPort s)) s1 else s1).
Proof.
  intros s1.
  assert (portInfo (nextPort s) s1 = mkPort RuntimePort nm tab frame true [] []) as Hinfo
    by apply portInfo_port_added_new.
  unfold step. unfold mbind, M_bind, bind.
  rewrite newPort_run. fold s1. unfold onConnect. run_monad. rewrite Hinfo. cbn.
  by destruct (String.eqb nm "cast").
Qed.

(** X9: a connection whose port is not named [cast] makes no instance: the
    live set, the objects and the log stay as they are, no bridge port is
    opened and no listener is put on the port. *)
Theorem other_connections_are_ignored
    (env : Env) (s : State) (nm : string) (tab : option TabId) (frame : option FrameId) :
  nm ≠ "cast" →
  let s' := exec (step env (IncomingConnection nm tab frame)) s in
  s' = port_added (mkPort RuntimePort nm tab frame true [] []) s
  ∧ activeInstances s' = activeInstances s
  ∧ heap s' = heap s
  ∧ log s' = log s
  ∧ onMessageListeners (portInfo (nextPort s) s') = []
  ∧ onDisconnectListeners (portInfo (nextPort s) s') = [].
Proof.
  intros Hnm s'. subst s'. unfold exec. rewrite incoming_connection_run. cbn [snd].
  rewrite (proj2 (String.eqb_neq _ _) Hnm).
  split_and!; try reflexivity; by rewrite portInfo_port_added_new.
Qed.

Lemma other_connections_are_ignored_witness :
  let s' := exec (step quiet_env (IncomingConnection "popup" (Some 1) (Some 0)))
              one_instance_in_frame_5 in
  activeInstances s' = [0] ∧ log s' = log one_instance_in_frame_5.
Proof.
  destruct (other_connections_are_ignored quiet_env one_instance_in_frame_5
              "popup" (Some 1) (Some 0)) as (_ & Hact & _ & Hlog & _);
    [discriminate|].
  split; [exact Hact | exact Hlog].
Defined.

Lemma createInstance_invalid_context env cp s :
  kind (portInfo cp s) = RuntimePort →
  senderTabId (portInfo cp s) = None ∨ senderFrameId (portInfo cp s) = None →
  createInstance env cp s
  = (Throw invalidPortContext, set_log (log s ++ [ELogError invalidPortContext]) s).
Proof.
  intros Hkind Hsender. unfold createInstance. run_monad. rewrite Hkind.
  unfold createInstanceFromContent. run_monad.
  destruct Hsender as [-> | ->]; [done|].
  by destruct (senderTabId (portInfo cp s)).
Qed.

(** X10: a [cast] connection whose port has no sender tab or no sender frame
    id is refused: [createInstance] logs the error and fails with it before
    anything is made, so the live set stays as it is and no bridge port is
    opened; the [onConnect] listener itself returns normally. *)
Theorem connection_without_sender_is_refused
    (env : Env) (s : State) (tab : option TabId) (frame : option FrameId) :
  tab = None ∨ frame = None →
  let s1 := port_added (mkPort RuntimePort "cast" tab frame true [] []) s in
  let s' := exec (step env (IncomingConnection "cast" tab frame)) s in
  createInstance env (nextPort s) s1
  = (Throw invalidPortContext, set_log (log s ++ [ELogError invalidPortContext]) s1)
  ∧ fst (step env (IncomingConnection "cast" tab frame) s) = Ok tt
  ∧ s' = set_log (log s ++ [ELogError invalidPortContext]) s1
  ∧ activeInstances s' = activeInstances s
  ∧ opened (log s') = opened (log s).
Proof.
  intros Hsender s1 s'.
  assert (portInfo (nextPort s) s1 = mkPort RuntimePort "cast" tab frame true [] [])
    as Hinfo by apply portInfo_port_added_new.
  assert (createInstance env (nextPort s) s1
          = (Throw invalidPortContext, set_log (log s ++ [ELogError invalidPortContext]) s1))
    as Hrun.
  { apply (createInstance_invalid_context env (nextPort s) s1); rewrite Hinfo;
      [done | exact Hsender]. }
  assert (s' = set_log (log s ++ [ELogError invalidPortContext]) s1) as Hs'.
  { subst s'. unfold exec at 1. rewrite incoming_connection_run. cbn [snd String.eqb].
    fold s1. cbn. unfold exec. by rewrite Hrun. }
  split_and!; [exact Hrun | by rewrite incoming_connection_run | exact Hs' | |].
  - by rewrite Hs'.
  - rewrite Hs'. fields. rewrite opened_app. cbn. by rewrite app_nil_r.
Qed.

Lemma connection_without_sender_is_refused_witness :
  let s' := exec (step quiet_env (IncomingConnection "cast" None (Some 0))) initialState in
  log s' = [ELogError invalidPortContext] ∧ activeInstances s' = [] ∧ opened (log s') = [].
Proof.
  destruct (connection_without_sender_is_refused quiet_env initialState None (Some 0))
    as (_ & _ & Hs' & Hact & Hopen); [by left|].
  split_and!; [by rewrite Hs' | exact Hact | exact Hopen].
Defined.

Lemma forEach_post (message : Message) (l : list InstRef) (s : State) :
  (∀ i, i ∈ l → is_Some (heap s !! i)) →
  forEach l (λ i, instance ← getObj i; postMessage (contentPort instance) message) s
  = (Ok tt, set_log (log s ++ map (λ instance, EPostMessage (contentPort instance) message)
                                (omap (λ i, heap s !! i) l)) s).
Proof.
  set (body := λ i : InstRef,
                 instance ← getObj i; postMessage (contentPort instance) message).
  revert s. induction l as [|i l IH]; intros s Hall.
  - cbn. rewrite app_nil_r. by destruct s.
  - destruct (Hall i) as [instance Hi]; [by left|].
    cbn [forEach omap list_omap]. rewrite Hi. cbn [map].
    assert (body i s
            = (Ok tt, set_log (log s ++ [EPostMessage (contentPort instance) message]) s))
      as Hbody.
    { subst body. cbv beta. unfold getObj. run_monad. by rewrite Hi. }
    unfold mbind, M_bind, bind. rewrite Hbody.
    rewrite IH by (intros j Hj; apply Hall; by right).
    fields. unfold set_log. fields. by rewrite <- app_assoc.
Qed.

(** X11: in every reachable state the listeners that [init] puts on the
    registry forward a [receiverDeviceUp] or [receiverDeviceDown] event to
    every live instance, one message on its content port each, in the order
    of the live set; [receiverDeviceUpdated] events are not forwarded. *)
Theorem device_events_reach_every_instance
    (s : State) (deviceInfo : ReceiverDevice) (deviceId : string) (status : ReceiverStatus) :
  reachable s →
  forwardDeviceEvent (receiverDeviceUp deviceInfo) s
  = (Ok tt, set_log (log s ++ map (λ instance, EPostMessage (contentPort instance)
                                                 (receiverDeviceUpMessage deviceInfo))
                                (liveInstances s)) s)
  ∧ forwardDeviceEvent (receiverDeviceDown deviceId) s
    = (Ok tt, set_log (log s ++ map (λ instance, EPostMessage (contentPort instance)
                                                   (receiverDeviceDownMessage deviceId))
                                  (liveInstances s)) s)
  ∧ forwardDeviceEvent (receiverDeviceUpdated deviceId status) s = (Ok tt, s)
  ∧ length (liveInstances s) = length (activeInstances s).
Proof.
  intros Hreach. pose proof (reachable_wf s Hreach) as Hwf.
  pose proof (wf_live s Hwf) as Hlive.
  unfold forwardDeviceEvent, liveInstances. run_monad. split_and!.
  - by apply forEach_post.
  - by apply forEach_post.
  - done.
  - clear -Hlive. induction (activeInstances s) as [|i l IH]; [done|].
    destruct (Hlive i) as [instance Hi]; [by left|].
    cbn [omap list_omap]. rewrite Hi. cbn. f_equal. apply IH.
    intros j Hj. apply Hlive. by right.
Qed.

Lemma device_events_reach_every_instance_witness :
  forwardDeviceEvent (receiverDeviceUp tv) one_instance_in_frame_5
  = (Ok tt, set_log (log one_instance_in_frame_5
                     ++ [EPostMessage 0 (receiverDeviceUpMessage tv)])
              one_instance_in_frame_5)
  ∧ forwardDeviceEvent (receiverDeviceUpdated "tv" no_status) one_instance_in_frame_5
    = (Ok tt, one_instance_in_frame_5).
Proof.
  destruct (device_events_reach_every_instance one_instance_in_frame_5 tv "tv" no_status)
    as (Hup & _ & Hupdated & _);
    [apply (reachable_step quiet_env _ initialState reachable_init)|].
  split; [exact Hup | exact Hupdated].
Defined.

(** X12: [main:selectReceiver] from an instance without a tab id or without a
    frame id (an instance made from a [MessagePort]) logs an error and fails
    with it; no reply is posted. *)
Theorem selectReceiver_needs_tab_and_frame
    (env : Env) (s : State) (i : InstRef) (instance : CastInstance) (payload : Payload) :
  heap s !! i = Some instance →
  contentTabId instance = None ∨ contentFrameId instance = None →
  handleContentMessage env i (mkMessage "main:selectReceiver" payload) s
  = (Throw missingTabOrFrame, set_log (log s ++ [ELogError missingTabOrFrame]) s).
Proof.
  intros Hi Hmissing. unfold handleContentMessage, getObj. run_monad. rewrite Hi. run_monad.
  unfold handleLocally. cbn.
  destruct Hmissing as [-> | ->]; [done|].
  by destruct (contentTabId instance).
Qed.

Lemma selectReceiver_needs_tab_and_frame_witness :
  handleContentMessage quiet_env 0
    (mkMessage "main:selectReceiver" (SelectReceiverData "request")) background_page
  = (Throw missingTabOrFrame,
     set_log (log background_page ++ [ELogError missingTabOrFrame]) background_page).
Proof.
  apply (selectReceiver_needs_tab_and_frame quiet_env background_page 0
           (mkInstance 1 0 None None None) (SelectReceiverData "request"));
    [vm_compute; reflexivity | by left].
Defined.

(** X13: [main:selectReceiver] from an instance with a tab and a frame id
    never fails and is answered by exactly one message on the instance's
    content port: [selected] for a cast selection of media type App,
    [stopped] for a stop selection, [cancelled] otherwise, also when the
    selection workflow rejects.  No other message is posted; what follows the
    reply is the activation of another sender, and only for a cast selection
    whose media type is not App. *)
Theorem selectReceiver_is_answered_once
    (env : Env) (s : State) (i : InstRef) (instance : CastInstance)
    (tabId : TabId) (frameId : FrameId) (sessionRequest : string) :
  heap s !! i = Some instance →
  contentTabId instance = Some tabId →
  contentFrameId instance = Some frameId →
  let answer := getSelection env tabId frameId sessionRequest in
  let request := mkMessage "main:selectReceiver" (SelectReceiverData sessionRequest) in
  ∃ rest,
    handleContentMessage env i request s
    = (Ok tt, set_log (log s ++ EPostMessage (contentPort instance) (selectReceiver_reply answer)
                               :: rest) s)
    ∧ (∀ p m, EPostMessage p m ∉ rest)
    ∧ (rest ≠ [] → ∃ device mediaType filePath,
         answer = Fulfilled (Some (ReceiverSelectionCast device mediaType filePath))
         ∧ mediaType ≠ App).
Proof.
  intros Hi Htab Hframe answer request.
  assert (handleContentMessage env i request s
          = tryCatch
              (selection ← await answer;
               match selection with
               | None => postMessage (contentPort instance) cancelled
               | Some (ReceiverSelectionCast receiverDevice mediaType filePath as sel) =>
                   match mediaType with
                   | App =>
                       postMessage (contentPort instance)
                         (mkMessage "cast:selectReceiver/selected" (SelectionData sel))
                   | _ =>
                       postMessage (contentPort instance) cancelled ;;
                       notAwaited (loadSender env tabId (Some frameId) (Some sel))
                   end
               | Some (ReceiverSelectionStop _ as sel) =>
                   postMessage (contentPort instance)
                     (mkMessage "cast:selectReceiver/stopped" (SelectionData sel))
               end)
              (postMessage (contentPort instance) cancelled) s) as ->.
  { unfold handleContentMessage, getObj. run_monad. rewrite Hi. run_monad.
    unfold handleLocally. cbn. by rewrite Htab, Hframe. }
  unfold tryCatch, await.
  destruct answer as [[[device mediaType filePath | device]|]|] eqn:Hanswer.
  - assert (∀ mt st, mt ≠ App →
              notAwaited (loadSender env tabId (Some frameId)
                            (Some (ReceiverSelectionCast device mt filePath))) st
              = (Ok tt, set_log (log st ++ activation env tabId (Some frameId)
                                             device mt filePath) st)) as Hload.
    { intros mt st Hmt. unfold notAwaited. f_equal.
      by apply (loadSender_not_App env tabId (Some frameId) device mt filePath). }
    assert (∀ mt p m, mt ≠ App →
              EPostMessage p m ∉ activation env tabId (Some frameId) device mt filePath)
      as Hquiet.
    { intros mt p m Hmt Hin. unfold activation in Hin.
      destruct mt; [done | | | ].
      - destruct (executeScript _ _ _ _); not_listed Hin.
      - destruct (executeScript _ _ _ _); not_listed Hin.
      - destruct (newURL env _); [destruct (importMediaSender env)|]; not_listed Hin. }
    assert (∀ mt, mt ≠ App →
              (let (r, s') :=
                 let (r, s') := postMessage (contentPort instance) cancelled s in
                 match r with
                 | Ok _ => notAwaited (loadSender env tabId (Some frameId)
                                         (Some (ReceiverSelectionCast device mt filePath))) s'
                 | Throw e => (Throw e, s')
                 end in
               match r with
               | Ok a => (Ok a, s')
               | Throw _ => postMessage (contentPort instance) cancelled s'
               end)
              = (Ok tt, set_log (log s ++ EPostMessage (contentPort instance) cancelled
                                   :: activation env tabId (Some frameId) device mt filePath) s))
      as Hrun.
    { intros mt Hmt. unfold postMessage, emit, modify. rewrite Hload by done.
      fields. unfold set_log. fields. by rewrite <- app_assoc. }
    destruct mediaType; unfold mbind, M_bind, bind, mret, M_ret, ret; cbn [postMessage].
    + exists []. split_and!; [done | by intros p m H%elem_of_nil | done].
    + exists (activation env tabId (Some frameId) device Tab filePath). split_and!.
      * by apply Hrun.
      * intros p m. by apply Hquiet.
      * intros _. by exists device, Tab, filePath.
    + exists (activation env tabId (Some frameId) device Screen filePath). split_and!.
      * by apply Hrun.
      * intros p m. by apply Hquiet.
      * intros _. by exists device, Screen, filePath.
    + exists (activation env tabId (Some frameId) device File filePath). split_and!.
      * by apply Hrun.
      * intros p m. by apply Hquiet.
      * intros _. by exists device, File, filePath.
  - exists []. split_and!; [done | by intros p m H%elem_of_nil | done].
  - exists []. split_and!; [done | by intros p m H%elem_of_nil | done].
  - exists []. split_and!; [done | by intros p m H%elem_of_nil | done].
Qed.

Lemma selectReceiver_is_answered_once_witness :
  ∃ rest,
    handleContentMessage tab_mirroring_env 0
      (mkMessage "main:selectReceiver" (SelectReceiverData "request")) one_instance_in_frame_5
    = (Ok tt, set_log (log one_instance_in_frame_5 ++ EPostMessage 0 cancelled :: rest)
                one_instance_in_frame_5)
    ∧ ∀ p m, EPostMessage p m ∉ rest.
Proof.
  destruct (selectReceiver_is_answered_once tab_mirroring_env one_instance_in_frame_5 0
              (mkInstance 1 0 (Some 1) (Some 5) None) 1 5 "request")
    as (rest & Hrun & Hquiet & _);
    [vm_compute; reflexivity | reflexivity | reflexivity |].
  exists rest. split; [exact Hrun | exact Hquiet].
Defined.

(** ** Other subjects, frame 0 and the browser action *)

(** X14: a message whose subject does not have the destination [bridge] is not
    forwarded to the bridge, it is handled by the switch alone; when its
    subject is, in addition, none of the three that the switch knows, nothing
    happens at all. *)
Theorem other_subjects_stay_local
    (env : Env) (s : State) (i : InstRef) (instance : CastInstance) (message : Message) :
  heap s !! i = Some instance →
  destination (subject message) ≠ "bridge" →
  handleContentMessage env i message s = handleLocally env i instance message s
  ∧ (subject message ≠ "main:initializeCast" →
     subject message ≠ "main:selectReceiver" →
     subject message ≠ "main:closeReceiverSelector" →
     handleContentMessage env i message s = (Ok tt, s)).
Proof.
  intros Hi Hd.
  assert (handleContentMessage env i message s = handleLocally env i instance message s)
    as Hlocal.
  { unfold handleContentMessage, getObj. run_monad. rewrite Hi. run_monad.
    by rewrite (proj2 (String.eqb_neq _ _) Hd). }
  split; [exact Hlocal|]. intros H1 H2 H3. rewrite Hlocal. unfold handleLocally.
  by rewrite (proj2 (String.eqb_neq _ _) H1), (proj2 (String.eqb_neq _ _) H2),
    (proj2 (String.eqb_neq _ _) H3).
Qed.

Lemma other_subjects_stay_local_witness :
  handleContentMessage quiet_env 0 sessionStopped one_instance_in_frame_5
  = (Ok tt, one_instance_in_frame_5).
Proof.
  destruct (other_subjects_stay_local quiet_env one_instance_in_frame_5 0
              (mkInstance 1 0 (Some 1) (Some 5) None) sessionStopped) as [_ Hdrop];
    [vm_compute; reflexivity | discriminate |].
  apply Hdrop; discriminate.
Defined.

Lemma getInstance_from_frame_0 h tabId l :
  getInstance_from h tabId (Some 0) l = getInstance_from h tabId None l.
Proof.
  induction l as [|i l IH]; [done|]. cbn [getInstance_from truthy andb].
  by rewrite IH.
Qed.

(** X15: [getInstance] with frame id 0 answers as it does without a frame id
    ([frameId && ...] is false for 0): it finds the first live instance at
    the tab, whatever its frame. *)
Theorem getInstance_frame_0_is_any_frame (s : State) (tabId : TabId) :
  getInstance tabId (Some 0) s = getInstance tabId None s
  ∧ ∀ before i after,
      activeInstances s = before ++ i :: after →
      (∀ j, j ∈ before → ¬ located s tabId None j) →
      located s tabId None i →
      getInstance tabId (Some 0) s = Some i.
Proof.
  assert (getInstance tabId (Some 0) s = getInstance tabId None s) as Hzero
    by apply getInstance_from_frame_0.
  split; [exact Hzero|]. intros before i after Hsplit Hbefore Hi.
  rewrite Hzero. by apply (getInstance_first s tabId None) with before after.
Qed.

(** X16: a click on the browser action that ends in a cast selection of media
    type App posts [cast:launchApp] to the first live instance of the clicked
    tab, whatever its frame, because [loadSender] is called with frame id 0.
    Without an instance at the tab the error of [loadSender] is logged and
    the listener still returns normally; a cancelled selection does nothing,
    and a tab without id only logs an error. *)
Theorem browser_action_launches_in_any_frame
    (env : Env) (s : State) (tabId : TabId) (device : ReceiverDevice)
    (filePath : option string) :
  let click := onBrowserActionClicked env (Some tabId)
                 (Fulfilled (appSelection device filePath)) in
  (∀ before i after instance,
     activeInstances s = before ++ i :: after →
     (∀ j, j ∈ before → ¬ located s tabId None j) →
     heap s !! i = Some instance →
     contentTabId instance = Some tabId →
     click s
     = (Ok tt, set_log (log s ++ [EPostMessage (contentPort instance) (launchApp device)]) s))
  ∧ ((∀ j, j ∈ activeInstances s → ¬ located s tabId None j) →
     ∃ msg, click s = (Ok tt, set_log (log s ++ [ELogError msg]) s))
  ∧ onBrowserActionClicked env (Some tabId) (Fulfilled None) s = (Ok tt, s)
  ∧ (∀ answer, onBrowserActionClicked env None answer s
               = (Ok tt, set_log (log s ++ [ELogError tabIdNotFound]) s)).
Proof.
  intros click. subst click. split_and!; [| | done | done].
  - intros before i after instance Hsplit Hbefore Hi Htab.
    assert (getInstance tabId (Some 0) s = Some i) as Hfound.
    { unfold getInstance. rewrite getInstance_from_frame_0.
      apply (getInstance_first s tabId None) with before after; [done | done | done |].
      by exists instance. }
    unfold onBrowserActionClicked, appSelection, await, notAwaited, loadSender.
    run_monad. rewrite Hfound. unfold getObj. run_monad. by rewrite Hi.
  - intros Hnone.
    assert (getInstance tabId (Some 0) s = None) as Hfound.
    { unfold getInstance. rewrite getInstance_from_frame_0.
      by apply (getInstance_none s tabId None). }
    unfold onBrowserActionClicked, appSelection, await, notAwaited, loadSender.
    run_monad. rewrite Hfound. unfold throw_logger_error. run_monad.
    eexists. reflexivity.
Qed.

Lemma browser_action_launches_in_any_frame_witness :
  onBrowserActionClicked quiet_env (Some 1) (Fulfilled (appSelection tv None))
    one_instance_in_frame_5
  = (Ok tt, set_log (log one_instance_in_frame_5 ++ [EPostMessage 0 (launchApp tv)])
              one_instance_in_frame_5).
Proof.
  destruct (browser_action_launches_in_any_frame quiet_env one_instance_in_frame_5 1 tv None)
    as (Hfound & _).
  apply (Hfound [] 0 [] (mkInstance 1 0 (Some 1) (Some 5) None)).
  - reflexivity.
  - intros j Hj. by apply elem_of_nil in Hj.
  - vm_compute. reflexivity.
  - reflexivity.
Defined.

(** X17: a click on the browser action that ends in a cast selection of media
    type Tab or Screen injects the snippet with the selected media type and
    receiver into frame 0 of the clicked tab and, once that injection is
    fulfilled, the mirroring sender into the same frame; when the first
    injection is rejected, the second one is not made.  The listener returns
    normally in both cases. *)
Theorem browser_action_mirrors_top_frame
    (env : Env) (s : State) (tabId : TabId) (device : ReceiverDevice)
    (mediaType : ReceiverSelectorMediaType) (filePath : option string) :
  mediaType = Tab ∨ mediaType = Screen →
  let click := onBrowserActionClicked env (Some tabId)
                 (Fulfilled (Some (ReceiverSelectionCast device mediaType filePath))) in
  let first := EExecuteScript tabId (Some 0) (InjectCode mediaType device) in
  fst (click s) = Ok tt
  ∧ (executeScript env tabId (Some 0) (InjectCode mediaType device) = Fulfilled tt →
     exec click s
     = set_log (log s ++ [first; EExecuteScript tabId (Some 0) mirroringSender]) s)
  ∧ (executeScript env tabId (Some 0) (InjectCode mediaType device) = Rejected →
     exec click s = set_log (log s ++ [first]) s).
Proof.
  intros Hm click first.
  assert (click s
          = (Ok tt, set_log (log s ++ activation env tabId (Some 0) device mediaType filePath)
                      s)) as Hrun.
  { subst click. unfold onBrowserActionClicked, await. run_monad. unfold notAwaited.
    f_equal. apply (loadSender_not_App env tabId (Some 0) device mediaType filePath).
    by destruct Hm as [-> | ->]. }
  unfold exec. rewrite Hrun. cbn [fst snd]. unfold activation.
  split_and!; [done | |]; intros Hanswer; destruct Hm as [-> | ->]; by rewrite Hanswer.
Qed.

Lemma browser_action_mirrors_top_frame_witness :
  exec (onBrowserActionClicked quiet_env (Some 1)
          (Fulfilled (Some (ReceiverSelectionCast tv Screen None)))) initialState
  = set_log [EExecuteScript 1 (Some 0) (InjectCode Screen tv);
             EExecuteScript 1 (Some 0) mirroringSender] initialState
  ∧ exec (onBrowserActionClicked mirroring_fails_env (Some 1)
            (Fulfilled (Some (ReceiverSelectionCast tv Tab None)))) initialState
    = set_log [EExecuteScript 1 (Some 0) (InjectCode Tab tv)] initialState.
Proof.
  split.
  - destruct (browser_action_mirrors_top_frame quiet_env initialState 1 tv Screen None)
      as (_ & Hok & _); [by right|].
    apply Hok. reflexivity.
  - destruct (browser_action_mirrors_top_frame mirroring_fails_env initialState 1 tv Tab None)
      as (_ & _ & Hfail); [by left|].
    apply Hfail. reflexivity.
Defined.

(** ** Instances of the extension's own pages *)

Lemma background_instance_run env s :
  exec (step env BackgroundInstance) s
  = created_from_background env (nextPort s)
      (port_added (mkPort MessagePort "" None None true [] []) s).
Proof.
  unfold exec, step. unfold mbind, M_bind, bind. rewrite newPort_run.
  unfold notAwaited. cbn [snd].
  apply createInstance_background_run. by rewrite portInfo_port_added_new.
Qed.

Lemma Set_delete_last (i : InstRef) (l : list InstRef) :
  i ∉ l → Set_delete i (l ++ [i]) = l.
Proof.
  intros Hi. unfold Set_delete. rewrite filter_app, filter_cons_False, filter_nil, app_nil_r
    by (intros H; by apply H).
  apply Set_delete_absent in Hi. exact Hi.
Qed.

Lemma deliverDisconnect_background (s : State) (i : InstRef) (instance : CastInstance) :
  heap s !! i = Some instance →
  onDisconnectListeners (portInfo (bridgePort instance) s) = [BgBridgeDisconnectListener i] →
  deliverDisconnect (bridgePort instance) s
  = (Ok tt,
     set_activeInstances (Set_delete i (activeInstances s))
       (set_ports (alter (with_connected false) (contentPort instance)
                     (alter (with_connected false) (bridgePort instance) (ports s)))
          (set_log (log s ++ [EClose (contentPort instance)]) s))).
Proof.
  intros Hi Hl.
  assert (onDisconnectListeners
            (portInfo (bridgePort instance)
               (set_ports (alter (with_connected false) (bridgePort instance) (ports s)) s))
          = [BgBridgeDisconnectListener i]) as Hl'.
  { rewrite <- Hl. unfold portInfo. cbn. rewrite lookup_alter_eq.
    by destruct (ports s !! bridgePort instance). }
  unfold deliverDisconnect, alterPort. run_monad. rewrite Hl'. cbn. run_monad.
  unfold notAwaited, getObj, close, alterPort. run_monad. rewrite Hi. run_monad.
  reflexivity.
Qed.

(** X18: in every reachable state, [createInstance] for a [MessagePort] opens
    a bridge port, puts an instance without tab and frame id at the end of the
    live set and posts [cast:initialized] on the message port when
    [bridge.getInfo] is fulfilled.  When that bridge port disconnects, the
    message port is closed and the live set is what it was before. *)
Theorem background_instance_round_trip (env : Env) (s : State) :
  reachable s →
  let cp := nextPort s in
  let bp : PortId := S (nextPort s) in
  let i := nextRef s in
  let s1 := exec (step env BackgroundInstance) s in
  let s2 := exec (step env (PortDisconnected bp)) s1 in
  heap s1 !! i = Some (mkInstance bp cp None None None)
  ∧ activeInstances s1 = activeInstances s ++ [i]
  ∧ log s1 = log s ++ EConnect bp
                      :: match getInfo env with
                         | Fulfilled info => [EPostMessage cp (initialized info)]
                         | Rejected => []
                         end
  ∧ onMessageListeners (portInfo bp s1) = [BgBridgeMessageListener i]
  ∧ onMessageListeners (portInfo cp s1) = [BgContentMessageListener i]
  ∧ log s2 = log s1 ++ [EClose cp]
  ∧ activeInstances s2 = activeInstances s
  ∧ connected (portInfo cp s2) = false
  ∧ connected (portInfo bp s2) = false.
Proof.
  intros Hreach cp bp i s1 s2. pose proof (reachable_wf s Hreach) as Hwf.
  assert (i ∉ activeInstances s) as Hfresh.
  { intros Hin. destruct (wf_live s Hwf _ Hin) as [instance Hsome].
    rewrite (wf_heap_fresh s Hwf) in Hsome by (subst i; lia). done. }
  assert (Hs1 : s1 = created_from_background env cp
                       (port_added (mkPort MessagePort "" None None true [] []) s))
    by apply background_instance_run.
  assert (Hact1 : activeInstances s1 = activeInstances s ++ [i]).
  { rewrite Hs1. unfold created_from_background, port_added. fields.
    unfold Set_add. by rewrite decide_False. }
  assert (Hheap1 : heap s1 !! i = Some (mkInstance bp cp None None None)).
  { rewrite Hs1. unfold created_from_background, port_added. fields.
    apply lookup_insert_eq. }
  assert (Hbp : ports s1 !! bp
                = Some (mkPort RuntimePort "bridge" None None true
                          [BgBridgeMessageListener i] [BgBridgeDisconnectListener i])).
  { rewrite Hs1. unfold created_from_background, port_added. fields.
    rewrite lookup_alter_ne by (subst cp bp; lia). apply lookup_insert_eq. }
  assert (Hcp : ports s1 !! cp
                = Some (mkPort MessagePort "" None None true [BgContentMessageListener i] [])).
  { rewrite Hs1. unfold created_from_background, port_added. fields.
    rewrite lookup_alter_eq, lookup_insert_ne by (subst cp; lia).
    by rewrite lookup_insert_eq. }
  assert (Hs2 : s2 = set_activeInstances (Set_delete i (activeInstances s1))
                       (set_ports (alter (with_connected false) cp
                                     (alter (with_connected false) bp (ports s1)))
                          (set_log (log s1 ++ [EClose cp]) s1))).
  { subst s2. unfold exec, step.
    pose proof (deliverDisconnect_background s1 i (mkInstance bp cp None None None) Hheap1)
      as Hrun.
    cbn [bridgePort contentPort] in Hrun. rewrite Hrun; [done|].
    unfold portInfo. by rewrite Hbp. }
  split_and!.
  - exact Hheap1.
  - exact Hact1.
  - by rewrite Hs1.
  - unfold portInfo. by rewrite Hbp.
  - unfold portInfo. by rewrite Hcp.
  - by rewrite Hs2.
  - rewrite Hs2. fields. rewrite Hact1. by apply Set_delete_last.
  - rewrite Hs2. unfold portInfo. fields. by rewrite lookup_alter_eq, lookup_alter_ne, Hcp
      by (subst cp bp; lia).
  - rewrite Hs2. unfold portInfo. fields. by rewrite lookup_alter_ne, lookup_alter_eq, Hbp
      by (subst cp bp; lia).
Qed.

Lemma background_instance_round_trip_witness :
  let s1 := exec (step quiet_env BackgroundInstance) initialState in
  let s2 := exec (step quiet_env (PortDisconnected 1)) s1 in
  activeInstances s1 = [0]
  ∧ log s2 = [EConnect 1; EPostMessage 0 (initialized (mkBridgeInfo true false "0.1.0"));
              EClose 0]
  ∧ activeInstances s2 = [].
Proof.
  destruct (background_instance_round_trip quiet_env initialState reachable_init)
    as (_ & Hact1 & Hlog1 & _ & _ & Hlog2 & Hact2 & _).
  split_and!; [exact Hact1 | | exact Hact2].
  refine (eq_trans Hlog2 _). rewrite Hlog1. reflexivity.
Defined.

(** * Which listener hears which port *)

(** ** Steps that keep the listeners *)

Lemma still_refl s : still s s.
Proof. split; [apply evolves_refl | done | done]. Qed.

Lemma still_trans s1 s2 s3 : still s1 s2 → still s2 s3 → still s1 s3.
Proof.
  intros [A1 A2 A3] [B1 B2 B3]. split.
  - by eapply evolves_trans.
  - by rewrite B2.
  - intros p. by rewrite B3.
Qed.

Lemma evolves_shape s s' i instance' :
  evolves s s' → heap s' !! i = Some instance' →
  ∃ instance, heap s !! i = Some instance ∧ shape instance' = shape instance.
Proof.
  intros Hev Hi. pose proof (ev_heap s s' Hev i) as E. rewrite Hi in E.
  destruct (heap s !! i) as [instance|]; [|done].
  exists instance. split; [done|].
  cbn [fmap option_fmap option_map] in E. congruence.
Qed.

Lemma still_routed s s' : still s s' → routed s → routed s'.
Proof.
  intros [Hev Hreg Hmsg] [R1 R2 R3].
  pose proof (ev_listeners s s' Hev) as Hdis.
  split.
  - intros p Hp. rewrite Hreg in Hp. destruct (R1 p Hp) as (Hlt & Hm & Hd).
    rewrite (ev_nextPort s s' Hev), Hmsg, Hdis. done.
  - intros i instance' Hlive Hi Htab.
    destruct (evolves_shape s s' i instance' Hev Hi) as (instance & Hsome & Hshape).
    injection Hshape as Hb Hc Ht _. rewrite Hb, Hc, !Hmsg.
    apply R2; [|done | by rewrite <- Ht].
    eapply elem_of_sublist; [exact Hlive | apply (ev_live s s' Hev)].
  - intros i instance' Hi Htab.
    destruct (evolves_shape s s' i instance' Hev Hi) as (instance & Hsome & Hshape).
    injection Hshape as Hb Hc Ht _. rewrite Hb, Hc, !Hmsg, Hdis.
    apply R3; [done | by rewrite <- Ht].
Qed.

Section Steady.

Lemma steady_ret {A} (a : A) : steady (mret a).
Proof. intros s. apply still_refl. Qed.

Lemma steady_throw {A} (e : string) : steady (throw (A := A) e).
Proof. intros s. apply still_refl. Qed.

Lemma steady_get : steady get.
Proof. intros s. apply still_refl. Qed.

Lemma steady_bind {A B} (m : M A) (k : A → M B) :
  steady m → (∀ a, steady (k a)) → steady (m ≫= k).
Proof.
  intros Hm Hk s. unfold mbind, M_bind, bind.
  specialize (Hm s). destruct (m s) as [[a|e] s1]; [|done].
  eapply still_trans; [exact Hm | apply Hk].
Qed.

Lemma steady_forEach {A} (l : list A) (body : A → M unit) :
  (∀ x, steady (body x)) → steady (forEach l body).
Proof.
  intros Hbody. induction l as [|x l IH]; [apply steady_ret|].
  cbn [forEach]. apply steady_bind; [apply Hbody | intros _; apply IH].
Qed.

Lemma steady_notAwaited {A} (m : M A) : steady m → steady (notAwaited m).
Proof. intros Hm s. apply (Hm s). Qed.

Lemma steady_tryCatch {A} (m h : M A) : steady m → steady h → steady (tryCatch m h).
Proof.
  intros Hm Hh s. unfold tryCatch.
  specialize (Hm s). destruct (m s) as [[a|e] s1]; [done|].
  eapply still_trans; [exact Hm | apply Hh].
Qed.

Lemma steady_await {A} (a : Answer A) : steady (await a).
Proof. destruct a; [apply steady_ret | apply steady_throw]. Qed.

Lemma steady_modify_outside (f : State → State) :
  (∀ s, nextPort (f s) = nextPort s ∧ nextRef (f s) = nextRef s
        ∧ ports (f s) = ports s ∧ heap (f s) = heap s
        ∧ activeInstances (f s) = activeInstances s
        ∧ dmBridgePort (f s) = dmBridgePort s) →
  steady (modify f).
Proof.
  intros Hf s. destruct (Hf s) as (H1 & H2 & H3 & H4 & H5 & H6). split.
  - apply frames_modify_outside. intros s0. destruct (Hf s0) as (? & ? & ? & ? & ? & ?).
    by split_and!.
  - done.
  - intros p. cbn. unfold portInfo. by rewrite H3.
Qed.

Lemma steady_emit (e : Effect) : steady (emit e).
Proof. apply steady_modify_outside. intros s. by split_and!. Qed.

Lemma steady_alterPort (f : PortState → PortState) (p : PortId) :
  (∀ ps, onDisconnectListeners (f ps) = onDisconnectListeners ps) →
  (∀ ps, onMessageListeners (f ps) = onMessageListeners ps) →
  steady (alterPort f p).
Proof.
  intros Hd Hm s. split.
  - by apply frames_alterPort.
  - done.
  - intros q. cbn. unfold portInfo. cbn. destruct (decide (p = q)) as [->|Hne].
    + rewrite lookup_alter_eq. destruct (ports s !! q); cbn; [apply Hm | done].
    + by rewrite lookup_alter_ne.
Qed.

Lemma steady_set_appId (a : option string) (i : InstRef) :
  steady (modify (λ s, set_heap (alter (with_appId a) i (heap s)) s)).
Proof. intros s. split; [apply frames_set_appId | done | done]. Qed.

Lemma steady_Set_delete (i : InstRef) :
  steady (modify (λ s, set_activeInstances (Set_delete i (activeInstances s)) s)).
Proof. intros s. split; [apply frames_Set_delete | done | done]. Qed.

End Steady.

Ltac steady_step :=
  lazymatch goal with
  | |- steady (_ ≫= _) => apply steady_bind; [|intros ?]
  | |- steady (forEach _ _) => apply steady_forEach; intros ?
  | |- steady (notAwaited _) => apply steady_notAwaited
  | |- steady (tryCatch _ _) => apply steady_tryCatch
  | |- steady (await _) => apply steady_await
  | |- steady (mret _) => apply steady_ret
  | |- steady (throw _) => apply steady_throw
  | |- steady get => apply steady_get
  | |- steady (emit _) => apply steady_emit
  | |- steady (postMessage _ _) => apply steady_emit
  | |- steady (dispatchEvent _) => apply steady_emit
  | |- steady (logger_error _) => apply steady_emit
  | |- steady (match ?x with _ => _ end) => destruct x
  end.

Ltac steady_auto := repeat steady_step.

Lemma steady_throw_logger_error {A} (msg : string) :
  steady (throw_logger_error (A := A) msg).
Proof. unfold throw_logger_error. steady_auto. Qed.

Lemma steady_disconnect (p : PortId) : steady (disconnect p).
Proof. unfold disconnect. steady_auto. apply steady_alterPort; by intros []. Qed.

Lemma steady_close (p : PortId) : steady (close p).
Proof. unfold close. steady_auto. apply steady_alterPort; by intros []. Qed.

Lemma steady_setTimeout (cb : TimerCallback) (delay : N) : steady (setTimeout cb delay).
Proof.
  unfold setTimeout. steady_auto.
  apply steady_modify_outside. intros s. by split_and!.
Qed.

Lemma steady_getObj (i : InstRef) : steady (getObj i).
Proof. unfold getObj. steady_auto. Qed.

Lemma steady_onBridgeMessage (message : Message) : steady (onBridgeMessage message).
Proof.
  unfold onBridgeMessage. steady_auto;
    apply steady_modify_outside; intros s; by split_and!.
Qed.

Lemma steady_onBridgeDisconnect : steady onBridgeDisconnect.
Proof.
  unfold onBridgeDisconnect. steady_auto.
  - apply steady_modify_outside. intros s. by split_and!.
  - apply steady_setTimeout.
Qed.

Lemma steady_tabs_executeScript env tabId frameId what :
  steady (tabs_executeScript env tabId frameId what).
Proof. unfold tabs_executeScript. steady_auto. Qed.

Lemma steady_new_URL env text : steady (new_URL env text).
Proof. unfold new_URL. steady_auto. Qed.

Lemma steady_missing_data {A} : steady (missing_data (A := A)).
Proof. apply steady_throw. Qed.

Lemma steady_loadSender env tabId frameId selection :
  steady (loadSender env tabId frameId selection).
Proof.
  unfold loadSender. steady_auto;
    auto using steady_getObj, steady_tabs_executeScript, steady_throw_logger_error,
      steady_new_URL.
Qed.

Lemma steady_handleLocally env i instance message :
  steady (handleLocally env i instance message).
Proof.
  unfold handleLocally. steady_auto;
    auto using steady_set_appId, steady_loadSender, steady_throw_logger_error,
      steady_missing_data.
Qed.

Lemma steady_handleContentMessage env i message :
  steady (handleContentMessage env i message).
Proof.
  unfold handleContentMessage. steady_auto;
    auto using steady_getObj, steady_handleLocally.
Qed.

Lemma steady_runMessageListener env l message :
  steady (runMessageListener env l message).
Proof.
  unfold runMessageListener, forwardToContent. steady_auto;
    auto using steady_getObj, steady_handleContentMessage, steady_onBridgeMessage.
Qed.

Lemma steady_deliverMessage env p message : steady (deliverMessage env p message).
Proof. unfold deliverMessage. steady_auto. apply steady_runMessageListener. Qed.

(** ** States that keep every port with its listeners *)

Lemma routed_initialState : routed initialState.
Proof.
  split; cbn.
  - intros p Hp. discriminate Hp.
  - intros i instance Hi. by apply elem_of_nil in Hi.
  - intros i instance Hi. by rewrite lookup_empty in Hi.
Qed.

Lemma routed_port_added ps s : wf s → routed s → routed (port_added ps s).
Proof.
  intros Hwf [R1 R2 R3]. split.
  - intros p Hp. destruct (R1 p Hp) as (Hlt & Hm & Hd).
    rewrite portInfo_port_added_old by lia. cbn. split_and!; [lia | done | done].
  - intros i instance Hlive Hi Htab.
    destruct (wf_instance_ports s Hwf i instance Hi).
    rewrite !portInfo_port_added_old by lia. by apply R2.
  - intros i instance Hi Htab.
    destruct (wf_instance_ports s Hwf i instance Hi).
    rewrite !portInfo_port_added_old by lia. by apply R3.
Qed.

Lemma portInfo_refreshed_new s :
  portInfo (nextPort s) (refreshed s)
  = mkPort RuntimePort "bridge" None None true
      [RegistryMessageListener] [RegistryDisconnectListener].
Proof. unfold portInfo. rewrite ports_refreshed. by rewrite lookup_insert_eq. Qed.

Lemma message_listeners_without_connection (d : PortState) (o : option PortState) :
  onMessageListeners (default d (without_connection <$> o))
  = onMessageListeners (default d o).
Proof. by destruct o as [[]|]. Qed.

Lemma portInfo_refreshed_old s q :
  q < nextPort s →
  onMessageListeners (portInfo q (refreshed s)) = onMessageListeners (portInfo q s)
  ∧ onDisconnectListeners (portInfo q (refreshed s)) = onDisconnectListeners (portInfo q s).
Proof.
  intros Hq. unfold portInfo. rewrite ports_refreshed.
  rewrite lookup_insert_ne by lia.
  destruct (dmBridgePort s) as [old|]; [|done].
  destruct (decide (old = q)) as [->|Hne].
  - rewrite lookup_alter_eq.
    split; [apply message_listeners_without_connection | apply listeners_without_connection].
  - by rewrite lookup_alter_ne.
Qed.

Lemma routed_refreshed s : wf s → routed s → routed (refreshed s).
Proof.
  intros Hwf [R1 R2 R3]. split.
  - intros p Hp. injection Hp as <-. rewrite portInfo_refreshed_new. cbn.
    split_and!; [lia | done | done].
  - intros i instance Hlive Hi Htab.
    destruct (wf_instance_ports s Hwf i instance Hi) as [Hb Hc].
    destruct (portInfo_refreshed_old s _ Hb) as [-> _].
    destruct (portInfo_refreshed_old s _ Hc) as [-> _].
    by apply R2.
  - intros i instance Hi Htab.
    destruct (wf_instance_ports s Hwf i instance Hi) as [Hb Hc].
    destruct (portInfo_refreshed_old s _ Hb) as [-> ->].
    destruct (portInfo_refreshed_old s _ Hc) as [-> _].
    by apply R3.
Qed.

Lemma tear_keeps_listener i instance p ps l :
  onMessageListeners ps = [l] →
  l ≠ BridgePortMessageListener i → l ≠ ContentPortMessageListener i →
  onMessageListeners (tear i instance p ps) = [l].
Proof.
  intros Hl Hb Hc.
  assert (∀ a, a ≠ l → removeL a [l] = [l]) as Hkeep.
  { intros a Ha. unfold removeL. rewrite filter_cons_True by congruence. done. }
  destruct ps as [k n t f c ml dl]. cbn [onMessageListeners] in Hl. subst ml.
  tear_cases i instance p;
    cbn [without_connection without_listener with_connected with_onMessage
         onMessageListeners];
    rewrite ?Hkeep by congruence; done.
Qed.

Lemma routed_torn_down i instance s :
  routed s → routed (torn_down i instance s).
Proof.
  intros [R1 R2 R3]. split.
  - intros p Hp. destruct (R1 p Hp) as (Hlt & Hm & Hd).
    rewrite torn_down_portInfo, tear_onDisconnectListeners.
    split_and!; [done | | done].
    by apply tear_keeps_listener.
  - intros j instance' Hlive Hj Htab.
    change (activeInstances (torn_down i instance s))
      with (Set_delete i (activeInstances s)) in Hlive.
    apply list_elem_of_filter in Hlive as [Hne Hlive].
    destruct (R2 j instance' Hlive Hj Htab) as [Hb Hc].
    rewrite !torn_down_portInfo.
    split; apply tear_keeps_listener; congruence.
  - intros j instance' Hj Htab.
    destruct (R3 j instance' Hj Htab) as (Hb & Hc & Hd).
    rewrite !torn_down_portInfo, tear_onDisconnectListeners.
    split_and!; [| | done]; by apply tear_keeps_listener.
Qed.

Lemma all_disconnected_listeners l s q :
  onMessageListeners (portInfo q (all_disconnected l s)) = onMessageListeners (portInfo q s)
  ∧ onDisconnectListeners (portInfo q (all_disconnected l s))
    = onDisconnectListeners (portInfo q s).
Proof.
  rewrite all_disconnected_portInfo. case_decide; [|done].
  by destruct (portInfo q s).
Qed.

Lemma wired_ports_bridge_messages i bp cp m :
  bp ≠ cp →
  onMessageListeners <$> wired_ports i bp cp m !! bp = Some [BridgePortMessageListener i].
Proof.
  intros Hne. unfold wired_ports.
  rewrite !(lookup_alter_ne _ _ cp bp) by done.
  rewrite !lookup_alter_eq, lookup_insert_eq. reflexivity.
Qed.

Lemma wired_ports_content_messages i bp cp m ps :
  bp ≠ cp → m !! cp = Some ps → onMessageListeners ps = [] →
  onMessageListeners <$> wired_ports i bp cp m !! cp = Some [ContentPortMessageListener i].
Proof.
  intros Hne Hps Hl. unfold wired_ports.
  rewrite !lookup_alter_eq. rewrite !lookup_alter_ne by done.
  rewrite lookup_insert_ne by done. rewrite Hps.
  destruct ps as [k n t f c ml dl]. cbn in *. by rewrite Hl.
Qed.

Lemma created_from_content_old env (cp : PortId) tabId frameId s (q : PortId) :
  q ≠ nextPort s → q ≠ cp →
  onMessageListeners (portInfo q (created_from_content env cp tabId frameId s))
  = onMessageListeners (portInfo q s)
  ∧ onDisconnectListeners (portInfo q (created_from_content env cp tabId frameId s))
    = onDisconnectListeners (portInfo q s).
Proof.
  intros Hb Hc.
  destruct (all_disconnected_listeners (occupants s tabId frameId) s q) as [Hm Hd].
  unfold portInfo in *. unfold created_from_content.
  cbn [ports set_log set_activeInstances set_ports].
  rewrite wired_ports_other by done. by rewrite Hm, Hd.
Qed.

Lemma routed_created_from_content env (cp : PortId) tabId frameId s :
  wf s → routed s →
  is_Some (ports s !! cp) →
  onMessageListeners (portInfo cp s) = [] →
  (∀ i instance, heap s !! i = Some instance →
     bridgePort instance ≠ cp ∧ contentPort instance ≠ cp) →
  (∀ p, dmBridgePort s = Some p → p ≠ cp) →
  routed (created_from_content env cp tabId frameId s).
Proof.
  intros Hwf [R1 R2 R3] [ps Hps] Hquiet Hunused Hreg.
  pose proof (all_disconnected_frame (occupants s tabId frameId) s) as Hfr.
  cbv zeta in Hfr. destruct Hfr as (_ & Hdm & _).
  assert (cp < nextPort s) as Hcp.
  { destruct (decide (cp < nextPort s)) as [|Hge]; [done|].
    rewrite (wf_ports_fresh s Hwf) in Hps by lia. done. }
  assert (nextPort s ≠ cp) as Hne by lia.
  pose proof (all_disconnected_listeners (occupants s tabId frameId) s cp) as [Hm0 _].
  set (s0 := all_disconnected (occupants s tabId frameId) s) in *.
  assert (∃ ps0, ports s0 !! cp = Some ps0 ∧ onMessageListeners ps0 = []) as (ps0 & Hps0 & Hq0).
  { destruct (ports s0 !! cp) as [ps0|] eqn:Hps0.
    - exists ps0. split; [done|]. rewrite Hquiet in Hm0. unfold portInfo in Hm0.
      by rewrite Hps0 in Hm0.
    - pose proof (proj1 (ev_ports _ _ (evolves_all_disconnected s tabId frameId) cp) Hps0).
      congruence. }
  split.
  - intros p Hp.
    change (dmBridgePort (created_from_content env cp tabId frameId s))
      with (dmBridgePort s0) in Hp.
    rewrite Hdm in Hp. destruct (R1 p Hp) as (Hlt & Hm & Hd).
    destruct (created_from_content_old env cp tabId frameId s p) as [-> ->];
      [lia | by apply Hreg |].
    cbn. split_and!; [lia | done | done].
  - intros i instance Hlive Hi Htab.
    change (heap (created_from_content env cp tabId frameId s))
      with (<[nextRef s := mkInstance (nextPort s) cp (Some tabId) (Some frameId) None]>
              (heap s)) in Hi.
    change (activeInstances (created_from_content env cp tabId frameId s))
      with (Set_add (nextRef s) (activeInstances s)) in Hlive.
    destruct (decide (nextRef s = i)) as [<-|Hni].
    + rewrite lookup_insert_eq in Hi. injection Hi as <-. cbn [bridgePort contentPort].
      unfold portInfo, created_from_content. cbn [ports set_log set_activeInstances set_ports].
      fold s0.
      pose proof (wired_ports_bridge_messages (nextRef s) (nextPort s) cp (ports s0) Hne)
        as Hb.
      pose proof (wired_ports_content_messages (nextRef s) (nextPort s) cp (ports s0) ps0
                    Hne Hps0 Hq0) as Hc.
      apply fmap_Some in Hb as (pb & -> & Hb). apply fmap_Some in Hc as (pc & -> & Hc).
      cbn. by rewrite <- Hb, <- Hc.
    + rewrite lookup_insert_ne in Hi by done.
      apply elem_of_Set_add in Hlive as [->|Hlive]; [done|].
      destruct (wf_instance_ports s Hwf i instance Hi) as [Hb Hc].
      destruct (Hunused i instance Hi) as [Hb' Hc'].
      destruct (created_from_content_old env cp tabId frameId s (bridgePort instance))
        as [-> _]; [lia | done |].
      destruct (created_from_content_old env cp tabId frameId s (contentPort instance))
        as [-> _]; [lia | done |].
      by apply R2.
  - intros i instance Hi Htab.
    change (heap (created_from_content env cp tabId frameId s))
      with (<[nextRef s := mkInstance (nextPort s) cp (Some tabId) (Some frameId) None]>
              (heap s)) in Hi.
    destruct (decide (nextRef s = i)) as [<-|Hni].
    + rewrite lookup_insert_eq in Hi. injection Hi as <-. discriminate Htab.
    + rewrite lookup_insert_ne in Hi by done.
      destruct (wf_instance_ports s Hwf i instance Hi) as [Hb Hc].
      destruct (Hunused i instance Hi) as [Hb' Hc'].
      destruct (created_from_content_old env cp tabId frameId s (bridgePort instance))
        as [-> ->]; [lia | done |].
      destruct (created_from_content_old env cp tabId frameId s (contentPort instance))
        as [-> _]; [lia | done |].
      by apply R3.
Qed.

Lemma created_from_background_old env (cp : PortId) s (q : PortId) :
  q ≠ nextPort s → q ≠ cp →
  portInfo q (created_from_background env cp s) = portInfo q s.
Proof.
  intros Hb Hc. unfold portInfo, created_from_background.
  cbn [ports set_log set_activeInstances set_ports].
  rewrite lookup_alter_ne by done. by rewrite lookup_insert_ne by done.
Qed.

Lemma created_from_background_bridge env (cp : PortId) s :
  nextPort s ≠ cp →
  portInfo (nextPort s) (created_from_background env cp s)
  = mkPort RuntimePort "bridge" None None true
      [BgBridgeMessageListener (nextRef s)] [BgBridgeDisconnectListener (nextRef s)].
Proof.
  intros Hne. unfold portInfo, created_from_background.
  cbn [ports set_log set_activeInstances set_ports].
  rewrite lookup_alter_ne by done. by rewrite lookup_insert_eq.
Qed.

Lemma created_from_background_content env (cp : PortId) s ps :
  nextPort s ≠ cp → ports s !! cp = Some ps → onMessageListeners ps = [] →
  onMessageListeners (portInfo cp (created_from_background env cp s))
  = [BgContentMessageListener (nextRef s)].
Proof.
  intros Hne Hps Hl. unfold portInfo, created_from_background.
  cbn [ports set_log set_activeInstances set_ports].
  rewrite lookup_alter_eq, lookup_insert_ne by done. rewrite Hps.
  destruct ps as [k n t f c ml dl]. cbn in *. by rewrite Hl.
Qed.

Lemma routed_created_from_background env (cp : PortId) s :
  wf s → routed s →
  cp < nextPort s →
  is_Some (ports s !! cp) →
  onMessageListeners (portInfo cp s) = [] →
  (∀ i instance, heap s !! i = Some instance →
     bridgePort instance ≠ cp ∧ contentPort instance ≠ cp) →
  (∀ p, dmBridgePort s = Some p → p ≠ cp) →
  routed (created_from_background env cp s).
Proof.
  intros Hwf [R1 R2 R3] Hcp [ps Hps] Hquiet Hunused Hreg.
  assert (nextPort s ≠ cp) as Hne by lia.
  split.
  - intros p Hp.
    change (dmBridgePort (created_from_background env cp s)) with (dmBridgePort s) in Hp.
    destruct (R1 p Hp) as (Hlt & Hm & Hd).
    rewrite created_from_background_old by (lia || by apply Hreg).
    cbn. split_and!; [lia | done | done].
  - intros i instance Hlive Hi Htab.
    change (heap (created_from_background env cp s))
      with (<[nextRef s := mkInstance (nextPort s) cp None None None]> (heap s)) in Hi.
    change (activeInstances (created_from_background env cp s))
      with (Set_add (nextRef s) (activeInstances s)) in Hlive.
    destruct (decide (nextRef s = i)) as [<-|Hni].
    + rewrite lookup_insert_eq in Hi. injection Hi as <-. by destruct Htab.
    + rewrite lookup_insert_ne in Hi by done.
      apply elem_of_Set_add in Hlive as [->|Hlive]; [done|].
      destruct (wf_instance_ports s Hwf i instance Hi) as [Hb Hc].
      destruct (Hunused i instance Hi) as [Hb' Hc'].
      rewrite !created_from_background_old by (lia || done).
      by apply R2.
  - intros i instance Hi Htab.
    change (heap (created_from_background env cp s))
      with (<[nextRef s := mkInstance (nextPort s) cp None None None]> (heap s)) in Hi.
    destruct (decide (nextRef s = i)) as [<-|Hni].
    + rewrite lookup_insert_eq in Hi. injection Hi as <-. cbn [bridgePort contentPort].
      rewrite created_from_background_bridge by done.
      rewrite (created_from_background_content env cp s ps); [done | done | done |].
      unfold portInfo in Hquiet. by rewrite Hps in Hquiet.
    + rewrite lookup_insert_ne in Hi by done.
      destruct (wf_instance_ports s Hwf i instance Hi) as [Hb Hc].
      destruct (Hunused i instance Hi) as [Hb' Hc'].
      rewrite !created_from_background_old by (lia || done).
      by apply R3.
Qed.

(** ** Every reachable state is sound *)

Lemma steady_preserves_sound {A} (m : M A) : steady m → preserves sound m.
Proof.
  intros Hm s [Hwf Hr]. destruct (Hm s) as [Hev Hreg Hmsg]. split.
  - by apply (evolves_wf s).
  - apply (still_routed s); [by split | done].
Qed.

Lemma preserves_notAwaited {A} (P : State → Prop) (m : M A) :
  preserves P m → preserves P (notAwaited m).
Proof. intros Hm s Hs. by apply Hm. Qed.

Lemma sound_initialState : sound initialState.
Proof. split; [apply wf_initialState | apply routed_initialState]. Qed.

Lemma preserves_sound_refresh : preserves sound refresh.
Proof.
  intros s [Hwf Hr]. rewrite refresh_refreshed.
  split; [by apply wf_refreshed | by apply routed_refreshed].
Qed.

Lemma preserves_sound_advanceTo t : preserves sound (advanceTo t).
Proof.
  unfold advanceTo. apply preserves_bind; [by intros s|]. intros s0.
  apply preserves_bind.
  - apply steady_preserves_sound, steady_modify_outside. intros s. by split_and!.
  - intros _. apply preserves_forEach. intros [due []].
    apply preserves_notAwaited, preserves_sound_refresh.
Qed.

Lemma preserves_sound_init_deviceManager : preserves sound init_deviceManager.
Proof.
  unfold init_deviceManager. apply preserves_bind; [by intros s|]. intros s0.
  destruct (dmBridgePort s0); [by intros s | apply preserves_sound_refresh].
Qed.

Lemma preserves_sound_onDisconnect i : preserves sound (onDisconnect i).
Proof.
  intros s [Hwf Hr]. split.
  - apply (evolves_wf s); [apply frames_onDisconnect | done].
  - destruct (heap s !! i) as [instance|] eqn:Hi.
    + rewrite (onDisconnect_run s i instance Hi). by apply routed_torn_down.
    + unfold onDisconnect, getObj. run_monad. by rewrite Hi.
Qed.

Lemma preserves_sound_runDisconnectListener l : preserves sound (runDisconnectListener l).
Proof.
  destruct l as [i | i | i | i | i | i | | ]; cbn [runDisconnectListener];
    try (apply steady_preserves_sound, steady_ret).
  - apply preserves_sound_onDisconnect.
  - apply steady_preserves_sound. steady_auto;
      auto using steady_getObj, steady_close, steady_Set_delete.
  - apply steady_preserves_sound, steady_onBridgeDisconnect.
Qed.

Lemma preserves_sound_deliverDisconnect p : preserves sound (deliverDisconnect p).
Proof.
  unfold deliverDisconnect. apply preserves_bind.
  - apply steady_preserves_sound, steady_alterPort; by intros [].
  - intros _. apply preserves_bind; [by intros s|]. intros s0.
    apply preserves_forEach. intros l.
    apply preserves_notAwaited, preserves_sound_runDisconnectListener.
Qed.

Lemma sound_incoming_connection env nm tab frame s :
  sound s → sound (exec (step env (IncomingConnection nm tab frame)) s).
Proof.
  intros [Hwf Hr]. split; [by apply wf_incoming_connection|].
  unfold exec. rewrite incoming_connection_run. cbn [snd].
  set (s1 := port_added (mkPort RuntimePort nm tab frame true [] []) s).
  assert (wf s1) as Hwf1 by (by apply wf_port_added).
  assert (routed s1) as Hr1 by (by apply routed_port_added).
  assert (portInfo (nextPort s) s1 = mkPort RuntimePort nm tab frame true [] []) as Hinfo
    by apply portInfo_port_added_new.
  destruct (String.eqb nm "cast"); [|done].
  destruct tab as [tabId|], frame as [frameId|].
  - rewrite (createInstance_content_run env s1 (nextPort s) tabId frameId)
      by (by rewrite Hinfo).
    apply routed_created_from_content; [done | done | | by rewrite Hinfo | |].
    + subst s1. unfold port_added. cbn. rewrite lookup_insert_eq. by eexists.
    + intros i instance Hi. destruct (wf_instance_ports s Hwf i instance Hi). lia.
    + intros p Hp. destruct (routed_registry s Hr p Hp). lia.
  - unfold exec. rewrite createInstance_invalid_context by (rewrite Hinfo; auto).
    apply (still_routed s1); [apply (steady_emit (ELogError invalidPortContext) s1) | done].
  - unfold exec. rewrite createInstance_invalid_context by (rewrite Hinfo; auto).
    apply (still_routed s1); [apply (steady_emit (ELogError invalidPortContext) s1) | done].
  - unfold exec. rewrite createInstance_invalid_context by (rewrite Hinfo; auto).
    apply (still_routed s1); [apply (steady_emit (ELogError invalidPortContext) s1) | done].
Qed.

Lemma sound_background_instance env s :
  sound s → sound (exec (step env BackgroundInstance) s).
Proof.
  intros [Hwf Hr]. split; [by apply wf_background_instance|].
  rewrite background_instance_run.
  set (s1 := port_added (mkPort MessagePort "" None None true [] []) s).
  assert (wf s1) as Hwf1 by (by apply wf_port_added).
  assert (routed s1) as Hr1 by (by apply routed_port_added).
  apply routed_created_from_background; [done | done | cbn; lia | | | |].
  - subst s1. unfold port_added. cbn. rewrite lookup_insert_eq. by eexists.
  - subst s1. by rewrite portInfo_port_added_new.
  - intros i instance Hi. destruct (wf_instance_ports s Hwf i instance Hi). lia.
  - intros p Hp. destruct (routed_registry s Hr p Hp). lia.
Qed.

Lemma step_sound env ev s : sound s → sound (exec (step env ev) s).
Proof.
  intros Hs. destruct ev as [| nm tab frame | | p m | p | t].
  - apply (preserves_notAwaited sound _ preserves_sound_init_deviceManager s Hs).
  - by apply sound_incoming_connection.
  - by apply sound_background_instance.
  - by apply (steady_preserves_sound _ (steady_deliverMessage env p m)).
  - by apply (preserves_sound_deliverDisconnect p).
  - by apply (preserves_sound_advanceTo t).
Qed.

Lemma reachable_sound s : reachable s → sound s.
Proof.
  induction 1 as [|env ev s _ IH]; [apply sound_initialState | by apply step_sound].
Qed.

(** ** Events on the ports of the registry and of the instances *)

Lemma deliverMessage_one env p message l s :
  onMessageListeners (portInfo p s) = [l] →
  deliverMessage env p message s = (Ok tt, exec (runMessageListener env l message) s).
Proof.
  intros Hl. unfold deliverMessage. run_monad. rewrite Hl. reflexivity.
Qed.

Lemma deliverMessage_none env p message s :
  onMessageListeners (portInfo p s) = [] →
  deliverMessage env p message s = (Ok tt, s).
Proof.
  intros Hl. unfold deliverMessage. run_monad. rewrite Hl. reflexivity.
Qed.

Lemma deliverDisconnect_registry p s :
  onDisconnectListeners (portInfo p s) = [RegistryDisconnectListener] →
  deliverDisconnect p s
  = (Ok tt, exec onBridgeDisconnect
              (set_ports (alter (with_connected false) p (ports s)) s)).
Proof.
  intros Hl.
  assert (onDisconnectListeners
            (portInfo p (set_ports (alter (with_connected false) p (ports s)) s))
          = [RegistryDisconnectListener]) as Hl'.
  { rewrite <- Hl. unfold portInfo. cbn. rewrite lookup_alter_eq.
    by destruct (ports s !! p). }
  unfold deliverDisconnect, alterPort. run_monad. rewrite Hl'. reflexivity.
Qed.

Lemma forwardToContent_run s i instance message :
  heap s !! i = Some instance →
  forwardToContent i message s
  = (Ok tt, set_log (log s ++ [EPostMessage (contentPort instance) message]) s).
Proof. intros Hi. unfold forwardToContent, getObj. run_monad. by rewrite Hi. Qed.

(** X19: in every reachable state the port of the registry carries exactly the
    two listeners that [refresh] put on it: a message that arrives on it is
    handled by [onBridgeMessage], once, and by nothing else; when it
    disconnects, [onBridgeDisconnect] runs once (one [receiverDeviceDown] per
    device, an empty table and one more timer of 10000). *)
Theorem registry_hears_its_port
    (env : Env) (s : State) (p : PortId) (message : Message) :
  reachable s →
  dmBridgePort s = Some p →
  let s1 := exec (step env (PortDisconnected p)) s in
  step env (PortMessage p message) s = (Ok tt, exec (onBridgeMessage message) s)
  ∧ log s1 = log s
             ++ map (λ d, EDispatch (receiverDeviceDown (id d))) (getDevices s)
             ++ [ESetTimeout 10000]
  ∧ receiverDevices s1 = []
  ∧ timers s1 = timers s ++ [((now s + 10000)%N, refreshCallback)]
  ∧ connected (portInfo p s1) = false.
Proof.
  intros Hreach Hp s1. destruct (reachable_sound s Hreach) as [Hwf Hr].
  destruct (routed_registry s Hr p Hp) as (Hlt & Hm & Hd).
  assert (s1 = exec onBridgeDisconnect
                 (set_ports (alter (with_connected false) p (ports s)) s)) as Hs1.
  { subst s1. unfold exec, step. by rewrite deliverDisconnect_registry. }
  unfold exec in Hs1. rewrite onBridgeDisconnect_run in Hs1. cbn [snd] in Hs1.
  split_and!.
  - unfold step. by rewrite (deliverMessage_one env p message RegistryMessageListener).
  - by rewrite Hs1.
  - by rewrite Hs1.
  - by rewrite Hs1.
  - rewrite Hs1. unfold portInfo. fields. rewrite lookup_alter_eq.
    by destruct (ports s !! p).
Qed.

Lemma registry_hears_its_port_witness :
  step quiet_env (PortMessage 0 (message_of (DeviceUp "a" dev_a))) registry_connected
  = (Ok tt, exec (onBridgeMessage (message_of (DeviceUp "a" dev_a))) registry_connected)
  ∧ connected (portInfo 0 (exec (step quiet_env (PortDisconnected 0)) registry_connected))
    = false.
Proof.
  destruct (registry_hears_its_port quiet_env registry_connected 0
              (message_of (DeviceUp "a" dev_a)))
    as (Hmsg & _ & _ & _ & Hconn);
    [apply (reachable_step quiet_env _ initialState reachable_init) | reflexivity |].
  split; [exact Hmsg | exact Hconn].
Defined.

(** X20: in every reachable state a message that arrives on the content port
    of a live instance made from a content port is handled by
    [handleContentMessage] for that instance, once, and by nothing else; a
    message for the bridge is thus posted once, on the bridge port of that
    instance, and nothing else happens. *)
Theorem page_messages_reach_their_handler
    (env : Env) (s : State) (i : InstRef) (instance : CastInstance) (message : Message) :
  reachable s →
  i ∈ activeInstances s →
  heap s !! i = Some instance →
  is_Some (contentTabId instance) →
  step env (PortMessage (contentPort instance) message) s
  = (Ok tt, exec (handleContentMessage env i message) s)
  ∧ (destination (subject message) = "bridge" →
     step env (PortMessage (contentPort instance) message) s
     = (Ok tt, set_log (log s ++ [EPostMessage (bridgePort instance) message]) s)).
Proof.
  intros Hreach Hlive Hi Htab. destruct (reachable_sound s Hreach) as [Hwf Hr].
  destruct (routed_content s Hr i instance Hlive Hi Htab) as [Hb Hc].
  assert (step env (PortMessage (contentPort instance) message) s
          = (Ok tt, exec (handleContentMessage env i message) s)) as Hrun.
  { unfold step.
    by rewrite (deliverMessage_one env _ message (ContentPortMessageListener i)). }
  split; [exact Hrun|]. intros Hd. rewrite Hrun. f_equal.
  unfold exec, handleContentMessage, getObj. run_monad. rewrite Hi. run_monad.
  rewrite Hd. cbn. by rewrite handleLocally_bridge_subject.
Qed.

Lemma page_messages_reach_their_handler_witness :
  step quiet_env (PortMessage 0 startDiscovery) one_instance_in_frame_5
  = (Ok tt, set_log (log one_instance_in_frame_5 ++ [EPostMessage 1 startDiscovery])
              one_instance_in_frame_5).
Proof.
  destruct (page_messages_reach_their_handler quiet_env one_instance_in_frame_5 0
              (mkInstance 1 0 (Some 1) (Some 5) None) startDiscovery) as [_ Hfwd].
  - apply (reachable_step quiet_env _ initialState reachable_init).
  - vm_compute. by left.
  - vm_compute. reflexivity.
  - by eexists.
  - apply Hfwd. reflexivity.
Defined.

(** X21: in every reachable state a message that arrives on the bridge port
    of a live instance made from a content port is posted unchanged on the
    content port of that instance, once, and nothing else happens. *)
Theorem bridge_messages_reach_their_page
    (env : Env) (s : State) (i : InstRef) (instance : CastInstance) (message : Message) :
  reachable s →
  i ∈ activeInstances s →
  heap s !! i = Some instance →
  is_Some (contentTabId instance) →
  step env (PortMessage (bridgePort instance) message) s
  = (Ok tt, set_log (log s ++ [EPostMessage (contentPort instance) message]) s).
Proof.
  intros Hreach Hlive Hi Htab. destruct (reachable_sound s Hreach) as [Hwf Hr].
  destruct (routed_content s Hr i instance Hlive Hi Htab) as [Hb Hc].
  unfold step. rewrite (deliverMessage_one env _ message (BridgePortMessageListener i))
    by done.
  cbn [runMessageListener]. unfold exec. by rewrite (forwardToContent_run s i instance).
Qed.

Lemma bridge_messages_reach_their_page_witness :
  step quiet_env (PortMessage 1 sessionStopped) one_instance_in_frame_5
  = (Ok tt, set_log (log one_instance_in_frame_5 ++ [EPostMessage 0 sessionStopped])
              one_instance_in_frame_5).
Proof.
  apply (bridge_messages_reach_their_page quiet_env one_instance_in_frame_5 0
           (mkInstance 1 0 (Some 1) (Some 5) None) sessionStopped).
  - apply (reachable_step quiet_env _ initialState reachable_init).
  - vm_compute. by left.
  - vm_compute. reflexivity.
  - by eexists.
Defined.

(** X22: in every reachable state a live instance without tab id (made from a
    [MessagePort]) has its message port heard by [handleContentMessage] and
    its bridge port forwarded to the message port; when the bridge port
    disconnects, the message port is closed and the instance, and only it,
    leaves the live set. *)
Theorem background_instance_is_wired
    (env : Env) (s : State) (i : InstRef) (instance : CastInstance) (message : Message) :
  reachable s →
  i ∈ activeInstances s →
  heap s !! i = Some instance →
  contentTabId instance = None →
  let s1 := exec (step env (PortDisconnected (bridgePort instance))) s in
  step env (PortMessage (contentPort instance) message) s
  = (Ok tt, exec (handleContentMessage env i message) s)
  ∧ step env (PortMessage (bridgePort instance) message) s
    = (Ok tt, set_log (log s ++ [EPostMessage (contentPort instance) message]) s)
  ∧ log s1 = log s ++ [EClose (contentPort instance)]
  ∧ activeInstances s1 = Set_delete i (activeInstances s)
  ∧ (i ∉ activeInstances s1)
  ∧ S (length (activeInstances s1)) = length (activeInstances s)
  ∧ connected (portInfo (contentPort instance) s1) = false.
Proof.
  intros Hreach Hlive Hi Htab s1. destruct (reachable_sound s Hreach) as [Hwf Hr].
  destruct (routed_background s Hr i instance Hi Htab) as (Hb & Hc & Hd).
  assert (Hs1 : s1 = set_activeInstances (Set_delete i (activeInstances s))
                       (set_ports (alter (with_connected false) (contentPort instance)
                                     (alter (with_connected false) (bridgePort instance)
                                        (ports s)))
                          (set_log (log s ++ [EClose (contentPort instance)]) s))).
  { subst s1. unfold exec, step. by rewrite (deliverDisconnect_background s i instance). }
  split_and!.
  - unfold step.
    by rewrite (deliverMessage_one env _ message (BgContentMessageListener i)).
  - unfold step. rewrite (deliverMessage_one env _ message (BgBridgeMessageListener i))
      by done.
    cbn [runMessageListener]. unfold exec. by rewrite (forwardToContent_run s i instance).
  - by rewrite Hs1.
  - by rewrite Hs1.
  - rewrite Hs1. apply not_elem_of_Set_delete.
  - rewrite Hs1. fields. apply Set_delete_length; [apply (wf_nodup s Hwf) | done].
  - rewrite Hs1. unfold portInfo. fields. rewrite lookup_alter_eq.
    by destruct (alter _ _ _ !! _).
Qed.

Lemma background_instance_is_wired_witness :
  step quiet_env (PortMessage 1 sessionStopped) background_page
  = (Ok tt, set_log (log background_page ++ [EPostMessage 0 sessionStopped]) background_page)
  ∧ activeInstances (exec (step quiet_env (PortDisconnected 1)) background_page) = [].
Proof.
  destruct (background_instance_is_wired quiet_env background_page 0
              (mkInstance 1 0 None None None) sessionStopped)
    as (_ & Hfwd & _ & Hact & _).
  - apply (reachable_step quiet_env _ initialState reachable_init).
  - vm_compute. by left.
  - vm_compute. reflexivity.
  - reflexivity.
  - split; [exact Hfwd | exact Hact].
Defined.

Lemma tear_drops_listeners i instance ps :
  (onMessageListeners ps = [BridgePortMessageListener i] →
   onMessageListeners (tear i instance (bridgePort instance) ps) = [])
  ∧ (onMessageListeners ps = [ContentPortMessageListener i] →
     onMessageListeners (tear i instance (contentPort instance) ps) = []).
Proof.
  destruct ps as [k n t f c ml dl]. cbn [onMessageListeners].
  assert (removeL (BridgePortMessageListener i) [BridgePortMessageListener i] = []) as Hb.
  { unfold removeL. by rewrite filter_cons_False by (intros H; by apply H). }
  assert (removeL (ContentPortMessageListener i) [ContentPortMessageListener i] = []) as Hc.
  { unfold removeL. by rewrite filter_cons_False by (intros H; by apply H). }
  split; intros ->.
  - tear_cases i instance (bridgePort instance); try done;
      cbn [without_connection without_listener with_connected with_onMessage
           onMessageListeners]; by rewrite Hb.
  - tear_cases i instance (contentPort instance); try done;
      cbn [without_connection without_listener with_connected with_onMessage
           onMessageListeners]; rewrite ?Hc; done.
Qed.

(** X23: in every reachable state, once one of the two ports of a live
    instance made from a content port has disconnected, no message listener is
    left on either port: a message that still arrives on one of them changes
    nothing, and [getInstance] does not find the instance any more. *)
Theorem torn_down_instance_is_deaf
    (env : Env) (s : State) (i : InstRef) (instance : CastInstance)
    (p : PortId) (message : Message) :
  reachable s →
  i ∈ activeInstances s →
  heap s !! i = Some instance →
  is_Some (contentTabId instance) →
  p = bridgePort instance ∨ p = contentPort instance →
  let s1 := exec (step env (PortDisconnected p)) s in
  step env (PortMessage (contentPort instance) message) s1 = (Ok tt, s1)
  ∧ step env (PortMessage (bridgePort instance) message) s1 = (Ok tt, s1)
  ∧ (∀ tabId frameId, getInstance tabId frameId s1 ≠ Some i).
Proof.
  intros Hreach Hlive Hi Htab Hp s1. destruct (reachable_sound s Hreach) as [Hwf Hr].
  destruct (routed_content s Hr i instance Hlive Hi Htab) as [Hb Hc].
  destruct (wf_wired s Hwf i instance Hlive Hi Htab) as [Hdb Hdc].
  assert (s1 = torn_down i instance s) as Hs1.
  { subst s1. unfold exec, step.
    rewrite (deliverDisconnect_teardown s i instance p); [done | done | done |].
    by destruct Hp as [-> | ->]. }
  destruct (tear_drops_listeners i instance (portInfo (bridgePort instance) s)) as [Htb _].
  destruct (tear_drops_listeners i instance (portInfo (contentPort instance) s)) as [_ Htc].
  split_and!.
  - unfold step. apply deliverMessage_none. rewrite Hs1, torn_down_portInfo. by apply Htc.
  - unfold step. apply deliverMessage_none. rewrite Hs1, torn_down_portInfo. by apply Htb.
  - intros tabId frameId Hfound.
    assert (∀ h l, getInstance_from h tabId frameId l = Some i → i ∈ l) as Hsound.
    { intros h l. induction l as [|j l IH]; [done|]. cbn [getInstance_from].
      destruct (h !! j) as [c|]; [|intros Hl; right; auto].
      case_decide; [|intros Hl; right; auto].
      destruct (truthy frameId && bool_decide (contentFrameId c ≠ frameId));
        [intros Hl; right; auto | intros [= ->]; by left]. }
    apply Hsound in Hfound. rewrite Hs1 in Hfound.
    by apply (not_elem_of_Set_delete i (activeInstances s)).
Qed.

Lemma torn_down_instance_is_deaf_witness :
  let s1 := exec (step quiet_env (PortDisconnected 0)) one_instance_in_frame_5 in
  step quiet_env (PortMessage 0 startDiscovery) s1 = (Ok tt, s1)
  ∧ step quiet_env (PortMessage 1 sessionStopped) s1 = (Ok tt, s1).
Proof.
  split.
  - destruct (torn_down_instance_is_deaf quiet_env one_instance_in_frame_5 0
                (mkInstance 1 0 (Some 1) (Some 5) None) 0 startDiscovery) as (Hc & _).
    + apply (reachable_step quiet_env _ initialState reachable_init).
    + vm_compute. by left.
    + vm_compute. reflexivity.
    + by eexists.
    + by right.
    + exact Hc.
  - destruct (torn_down_instance_is_deaf quiet_env one_instance_in_frame_5 0
                (mkInstance 1 0 (Some 1) (Some 5) None) 0 sessionStopped) as (_ & Hb & _).
    + apply (reachable_step quiet_env _ initialState reachable_init).
    + vm_compute. by left.
    + vm_compute. reflexivity.
    + by eexists.
    + by right.
    + exact Hb.
Defined.

(** ** A page that connects again *)

Lemma occupants_without (h : gmap InstRef CastInstance) (P : CastInstance → Prop)
    `{∀ c, Decision (P c)} (l : list InstRef) (old : InstRef) (instance : CastInstance) :
  NoDup l → old ∈ l → h !! old = Some instance → P instance →
  filter P (omap (λ i, h !! i) l) = [instance] →
  filter P (omap (λ i, h !! i) (Set_delete old l)) = [].
Proof.
  intros Hnd Hin Hold HP. unfold Set_delete.
  induction l as [|j l IH]; [by apply elem_of_nil in Hin|].
  apply NoDup_cons in Hnd as [Hj Hnd]. cbn [omap list_omap].
  destruct (decide (j = old)) as [->|Hne].
  - rewrite Hold, filter_cons_True by done. intros [= Hrest].
    rewrite filter_cons_False by (intros Hx; by apply Hx).
    fold (Set_delete old l). by rewrite Set_delete_absent.
  - apply elem_of_cons in Hin as [->|Hin]; [done|].
    rewrite filter_cons_True by done. cbn [omap list_omap].
    assert (instance ∈ filter P (omap (λ i, h !! i) l)) as Hocc.
    { apply list_elem_of_filter. split; [done|].
      apply list_elem_of_omap. by exists old. }
    destruct (h !! j) as [c|]; [|by apply IH].
    destruct (decide (P c)) as [Hc|Hc].
    + rewrite filter_cons_True by done. intros [= -> Hrest].
      rewrite Hrest in Hocc. by apply elem_of_nil in Hocc.
    + rewrite !filter_cons_False by done. by apply IH.
Qed.

Lemma omap_heap_insert_fresh (h : gmap InstRef CastInstance) (k : InstRef)
    (c : CastInstance) (l : list InstRef) :
  k ∉ l → omap (λ i, <[k := c]> h !! i) l = omap (λ i, h !! i) l.
Proof.
  intros Hk. induction l as [|j l IH]; [done|].
  apply not_elem_of_cons in Hk as [Hne Hk]. cbn [omap list_omap].
  rewrite lookup_insert_ne by done. by rewrite IH.
Qed.

(** X24: in every reachable state, when a page connects again from the tab
    and frame of a live instance, the old instance stays in the live set with
    its bridge port disconnected.  When the disconnect event of that bridge
    port is delivered, the teardown of the old instance runs: it disconnects
    the old content port too and takes the old instance out of the live set.
    If the old instance was the only one recorded at the tab and frame, the
    new one is the only one afterwards. *)
Theorem replaced_instance_is_torn_down
    (env : Env) (s : State) (tabId : TabId) (frameId : FrameId)
    (old : InstRef) (instance : CastInstance) :
  reachable s →
  old ∈ activeInstances s →
  heap s !! old = Some instance →
  contentTabId instance = Some tabId →
  contentFrameId instance = Some frameId →
  let new := mkInstance (S (nextPort s)) (nextPort s) (Some tabId) (Some frameId) None in
  let s1 := exec (step env (IncomingConnection "cast" (Some tabId) (Some frameId))) s in
  let s2 := exec (step env (PortDisconnected (bridgePort instance))) s1 in
  activeInstances s1 = activeInstances s ++ [nextRef s]
  ∧ connected (portInfo (bridgePort instance) s1) = false
  ∧ log s2 = log s1 ++ [EDisconnect (bridgePort instance);
                        EDisconnect (contentPort instance)]
  ∧ activeInstances s2 = Set_delete old (activeInstances s) ++ [nextRef s]
  ∧ heap s2 !! nextRef s = Some new
  ∧ connected (portInfo (contentPort instance) s2) = false
  ∧ (occupants s tabId frameId = [instance] → occupants s2 tabId frameId = [new]).
Proof.
  intros Hreach Hlive Hold Htab Hframe new s1 s2.
  pose proof (reachable_wf s Hreach) as Hwf.
  assert (reachable s1) as Hreach1 by (by apply reachable_step).
  pose proof (reachable_wf s1 Hreach1) as Hwf1.
  assert (nextRef s ∉ activeInstances s) as Hfresh.
  { intros Hin. destruct (wf_live s Hwf _ Hin) as [c Hsome].
    rewrite (wf_heap_fresh s Hwf) in Hsome by lia. done. }
  assert (old ≠ nextRef s) as Hne by (intros ->; done).
  set (s0 := port_added (mkPort RuntimePort "cast" (Some tabId) (Some frameId) true [] []) s).
  assert (portInfo (nextPort s) s0
          = mkPort RuntimePort "cast" (Some tabId) (Some frameId) true [] []) as Hinfo
    by apply portInfo_port_added_new.
  assert (s1 = exec (createInstance env (nextPort s)) s0) as Hs1.
  { subst s1. unfold exec at 1. by rewrite incoming_connection_run. }
  destruct (createInstance_at_occupied_frame env s0 (nextPort s) tabId frameId)
    as (_ & Hheap & Hact & _ & _ & Hconn); try (by rewrite Hinfo).
  rewrite <- Hs1 in Hheap, Hact, Hconn.
  change (heap s0) with (heap s) in Hheap. change (nextRef s0) with (nextRef s) in Hheap, Hact.
  change (activeInstances s0) with (activeInstances s) in Hact.
  change (nextPort s0) with (S (nextPort s)) in Hheap, Hconn.
  fold new in Hheap.
  assert (activeInstances s1 = activeInstances s ++ [nextRef s]) as Hact1.
  { rewrite Hact. unfold Set_add. by rewrite decide_False. }
  assert (heap s1 !! old = Some instance) as Hold1.
  { rewrite Hheap. by rewrite lookup_insert_ne. }
  assert (old ∈ activeInstances s1) as Hlive1.
  { rewrite Hact1. apply elem_of_app. by left. }
  destruct (wf_wired s1 Hwf1 old instance Hlive1 Hold1) as [Hdb Hdc]; [by rewrite Htab|].
  assert (s2 = torn_down old instance s1) as Hs2.
  { subst s2. unfold exec, step.
    by rewrite (deliverDisconnect_teardown s1 old instance (bridgePort instance))
      by auto. }
  assert (activeInstances s2 = Set_delete old (activeInstances s) ++ [nextRef s]) as Hact2.
  { rewrite Hs2. cbn. rewrite Hact1. unfold Set_delete.
    rewrite filter_app, filter_cons_True by done. by rewrite filter_nil. }
  assert (heap s2 = <[nextRef s := new]> (heap s)) as Hheap2 by (by rewrite Hs2).
  split_and!.
  - exact Hact1.
  - apply Hconn.
    + change (occupants s0 tabId frameId) with (occupants s tabId frameId).
      apply list_elem_of_filter. split; [done|].
      apply list_elem_of_omap. by exists old.
    + destruct (wf_instance_ports s Hwf old instance Hold). lia.
  - by rewrite Hs2.
  - exact Hact2.
  - rewrite Hheap2. apply lookup_insert_eq.
  - rewrite Hs2, torn_down_portInfo. apply tear_connected. by right.
  - intros Hocc. unfold occupants. rewrite Hact2, Hheap2.
    rewrite omap_app, filter_app. cbn [omap list_omap]. rewrite lookup_insert_eq.
    rewrite omap_heap_insert_fresh.
    + rewrite (occupants_without (heap s) _ (activeInstances s) old instance);
        [| apply (wf_nodup s Hwf) | done | done | done | exact Hocc].
      cbn [app]. by rewrite filter_cons_True, filter_nil.
    + intros Hin. apply Hfresh.
      apply list_elem_of_filter in Hin as [_ Hin]. exact Hin.
Qed.

Lemma replaced_instance_is_torn_down_witness :
  let s1 := exec (step quiet_env (IncomingConnection "cast" (Some 1) (Some 5)))
              one_instance_in_frame_5 in
  let s2 := exec (step quiet_env (PortDisconnected 1)) s1 in
  activeInstances s1 = [0; 1]
  ∧ activeInstances s2 = [1]
  ∧ occupants s2 1 5 = [mkInstance 3 2 (Some 1) (Some 5) None].
Proof.
  destruct (replaced_instance_is_torn_down quiet_env one_instance_in_frame_5 1 5 0
              (mkInstance 1 0 (Some 1) (Some 5) None))
    as (Hact1 & _ & _ & Hact2 & _ & _ & Hocc).
  - apply (reachable_step quiet_env _ initialState reachable_init).
  - vm_compute. by left.
  - vm_compute. reflexivity.
  - reflexivity.
  - reflexivity.
  - split_and!; [exact Hact1 | exact Hact2 | apply Hocc; vm_compute; reflexivity].
Defined.

Lemma getInstance_from_app h tabId frameId l l' i :
  getInstance_from h tabId frameId l = Some i →
  getInstance_from h tabId frameId (l ++ l') = Some i.
Proof.
  induction l as [|j l IH]; [done|]. cbn [app getInstance_from].
  destruct (h !! j) as [c|]; [|done].
  case_decide; [|done].
  by destruct (truthy frameId && bool_decide (contentFrameId c ≠ frameId)).
Qed.

Lemma getInstance_from_insert_fresh h tabId frameId l k c :
  k ∉ l →
  getInstance_from (<[k := c]> h) tabId frameId l = getInstance_from h tabId frameId l.
Proof.
  intros Hk. induction l as [|j l IH]; [done|].
  apply not_elem_of_cons in Hk as [Hne Hk]. cbn [getInstance_from].
  rewrite lookup_insert_ne by done. by rewrite IH.
Qed.

(** X25: in every reachable state, a search of [getInstance] that finds an
    instance still finds that same instance after another page has connected:
    the new instance is put behind it in the live set, so when a page
    connects again from its tab and frame, [getInstance] (and with it
    [loadSender]) keeps answering with the older instance, not with the new
    one. *)
Theorem getInstance_prefers_the_older_instance
    (env : Env) (s : State) (i : InstRef) (tabId : TabId) (frameId : option FrameId)
    (tab : TabId) (frame : FrameId) :
  reachable s →
  getInstance tabId frameId s = Some i →
  let s' := exec (step env (IncomingConnection "cast" (Some tab) (Some frame))) s in
  nextRef s ∈ activeInstances s'
  ∧ getInstance tabId frameId s' = Some i
  ∧ i ≠ nextRef s.
Proof.
  intros Hreach Hfound s'. pose proof (reachable_wf s Hreach) as Hwf.
  assert (nextRef s ∉ activeInstances s) as Hfresh.
  { intros Hin. destruct (wf_live s Hwf _ Hin) as [c Hsome].
    rewrite (wf_heap_fresh s Hwf) in Hsome by lia. done. }
  set (s0 := port_added (mkPort RuntimePort "cast" (Some tab) (Some frame) true [] []) s).
  assert (portInfo (nextPort s) s0
          = mkPort RuntimePort "cast" (Some tab) (Some frame) true [] []) as Hinfo
    by apply portInfo_port_added_new.
  assert (s' = exec (createInstance env (nextPort s)) s0) as Hs'.
  { subst s'. unfold exec at 1. by rewrite incoming_connection_run. }
  destruct (createInstance_at_occupied_frame env s0 (nextPort s) tab frame)
    as (_ & Hheap & Hact & _ & Hnew & _); try (by rewrite Hinfo).
  rewrite <- Hs' in Hheap, Hact, Hnew.
  change (heap s0) with (heap s) in Hheap. change (nextRef s0) with (nextRef s) in *.
  change (activeInstances s0) with (activeInstances s) in Hact.
  assert (activeInstances s' = activeInstances s ++ [nextRef s]) as Hact'.
  { rewrite Hact. unfold Set_add. by rewrite decide_False. }
  split_and!.
  - exact Hnew.
  - unfold getInstance. rewrite Hheap, Hact'.
    apply getInstance_from_app. by rewrite getInstance_from_insert_fresh.
  - intros ->. apply Hfresh. clear -Hfound. unfold getInstance in Hfound.
    induction (activeInstances s) as [|j l IH]; [done|]. cbn [getInstance_from] in Hfound.
    destruct (heap s !! j) as [c|]; [|right; auto].
    case_decide; [|right; auto].
    destruct (truthy frameId && bool_decide (contentFrameId c ≠ frameId));
      [right; auto | injection Hfound as ->; by left].
Qed.

Lemma getInstance_prefers_the_older_instance_witness :
  let s' := exec (step quiet_env (IncomingConnection "cast" (Some 1) (Some 5)))
              one_instance_in_frame_5 in
  activeInstances s' = [0; 1] ∧ getInstance 1 (Some 5) s' = Some 0.
Proof.
  destruct (getInstance_prefers_the_older_instance quiet_env one_instance_in_frame_5 0
              1 (Some 5) 1 5) as (_ & Hfound & _).
  - apply (reachable_step quiet_env _ initialState reachable_init).
  - reflexivity.
  - split; [reflexivity | exact Hfound].
Defined.

(** * What a handler leaves alone *)

Section Respects.
Context (R : State → State → Prop) `{!PreOrder R}.

Lemma respects_ret {A} (a : A) : respects R (mret a).
Proof. intros s. reflexivity. Qed.

Lemma respects_throw {A} (e : string) : respects R (throw (A := A) e).
Proof. intros s. reflexivity. Qed.

Lemma respects_get : respects R get.
Proof. intros s. reflexivity. Qed.

Lemma respects_bind {A B} (m : M A) (k : A → M B) :
  respects R m → (∀ a, respects R (k a)) → respects R (m ≫= k).
Proof.
  intros Hm Hk s. unfold mbind, M_bind, bind.
  specialize (Hm s). destruct (m s) as [[a|e] s1]; [|done].
  etrans; [exact Hm | apply Hk].
Qed.

Lemma respects_forEach {A} (l : list A) (body : A → M unit) :
  (∀ x, respects R (body x)) → respects R (forEach l body).
Proof.
  intros Hbody. induction l as [|x l IH]; [apply respects_ret|].
  cbn [forEach]. apply respects_bind; [apply Hbody | intros _; apply IH].
Qed.

Lemma respects_notAwaited {A} (m : M A) : respects R m → respects R (notAwaited m).
Proof. intros Hm s. apply (Hm s). Qed.

Lemma respects_tryCatch {A} (m h : M A) :
  respects R m → respects R h → respects R (tryCatch m h).
Proof.
  intros Hm Hh s. unfold tryCatch.
  specialize (Hm s). destruct (m s) as [[a|e] s1]; [done|].
  etrans; [exact Hm | apply Hh].
Qed.

Lemma respects_await {A} (a : Answer A) : respects R (await a).
Proof. destruct a; [apply respects_ret | apply respects_throw]. Qed.

End Respects.

Ltac respects_step :=
  lazymatch goal with
  | |- respects _ (_ ≫= _) => refine (respects_bind _ _ _ _ _); [|intros ?]
  | |- respects _ (forEach _ _) => refine (respects_forEach _ _ _ _); intros ?
  | |- respects _ (notAwaited _) => refine (respects_notAwaited _ _ _)
  | |- respects _ (tryCatch _ _) => refine (respects_tryCatch _ _ _ _ _)
  | |- respects _ (await _) => refine (respects_await _ _)
  | |- respects _ (mret _) => refine (respects_ret _ _)
  | |- respects _ (throw _) => refine (respects_throw _ _)
  | |- respects _ get => refine (respects_get _)
  | |- respects _ (match ?x with _ => _ end) => destruct x
  end.

Ltac respects_auto := repeat respects_step.

Global Instance same_but_log_and_appId_preorder : PreOrder same_but_log_and_appId.
Proof.
  split.
  - intros s. by split.
  - intros s1 s2 s3 [A1 A2 A3 A4 A5 A6 A7 A8 A9 A10] [B1 B2 B3 B4 B5 B6 B7 B8 B9 B10].
    split; try congruence; try (by etrans).
    all: intros i; by rewrite B9.
Qed.

Global Instance same_but_table_and_log_preorder : PreOrder same_but_table_and_log.
Proof.
  split.
  - intros s. by split.
  - intros s1 s2 s3 [A1 A2 A3 A4 A5 A6 A7 A8 A9] [B1 B2 B3 B4 B5 B6 B7 B8 B9].
    split; try congruence. by etrans.
Qed.

Lemma emit_same_but_log_and_appId e : respects same_but_log_and_appId (emit e).
Proof. intros s. split; try done. cbn. by apply prefix_app_r. Qed.

Lemma emit_same_but_table_and_log e : respects same_but_table_and_log (emit e).
Proof. intros s. split; try done. cbn. by apply prefix_app_r. Qed.

Lemma set_appId_same_but_log a i :
  respects same_but_log_and_appId
    (modify (λ s, set_heap (alter (with_appId a) i (heap s)) s)).
Proof.
  intros s. split; try done. intros j. cbn. destruct (decide (i = j)) as [->|Hne].
  - rewrite lookup_alter_eq. by destruct (heap s !! j).
  - by rewrite lookup_alter_ne.
Qed.

Lemma loadSender_same_but_log env tabId frameId selection :
  respects same_but_log_and_appId (loadSender env tabId frameId selection).
Proof.
  unfold loadSender, tabs_executeScript, new_URL, throw_logger_error, getObj,
    logger_error, postMessage.
  respects_auto; apply emit_same_but_log_and_appId.
Qed.

(** X26: handling a message of a page changes nothing but the log, which only
    grows, and the application ids of the instances: the table and the port
    of the registry, the live set, the ports with their listeners, the timers
    and the ports, tab and frame of every instance are what they were. *)
Theorem page_messages_touch_nothing_else
    (env : Env) (i : InstRef) (message : Message) (s : State) :
  same_but_log_and_appId s (exec (handleContentMessage env i message) s).
Proof.
  revert s. change (respects same_but_log_and_appId (handleContentMessage env i message)).
  unfold handleContentMessage, handleLocally, getObj, throw_logger_error, logger_error,
    postMessage, missing_data.
  respects_auto;
    auto using emit_same_but_log_and_appId, set_appId_same_but_log,
      loadSender_same_but_log.
Qed.

(** ** The calls that a handler makes *)

Global Instance grows_by_preorder P : PreOrder (grows_by P).
Proof.
  split.
  - intros s. exists []. split; [by rewrite app_nil_r|]. by intros e H%elem_of_nil.
  - intros s1 s2 s3 (l1 & E1 & H1) (l2 & E2 & H2). exists (l1 ++ l2). split.
    + by rewrite E2, E1, app_assoc.
    + intros e [?|?]%elem_of_app; auto.
Qed.

Lemma emit_grows_by (P : Effect → Prop) e :
  P e → respects (grows_by P) (emit e).
Proof.
  intros He s. exists [e]. split; [done|].
  by intros e' ->%list_elem_of_singleton.
Qed.

Lemma silent_grows_by (P : Effect → Prop) (f : State → State) :
  (∀ s, log (f s) = log s) → respects (grows_by P) (modify f).
Proof.
  intros Hf s. exists []. cbn. split; [by rewrite Hf, app_nil_r|].
  by intros e H%elem_of_nil.
Qed.

(** X27: whatever the message, [onBridgeMessage] changes nothing but the
    table of the registry and the log, which only grows: the instances, the
    live set, the ports with their listeners, the registry's own port, the
    clock and the timers are what they were.  A message without data whose
    subject is one of the three that read it ([main:receiverDeviceUp],
    [main:receiverDeviceDown], [main:receiverDeviceStatusUpdated]) makes the
    handler throw before it has changed anything. *)
Theorem registry_messages_touch_only_the_table (message : Message) (s : State) :
  same_but_table_and_log s (exec (onBridgeMessage message) s)
  ∧ (data message = NoData →
     subject message ∈ ["main:receiverDeviceUp"; "main:receiverDeviceDown";
                        "main:receiverDeviceStatusUpdated"] →
     ∃ err, onBridgeMessage message s = (Throw err, s)).
Proof.
  split.
  - revert s. change (respects same_but_table_and_log (onBridgeMessage message)).
    unfold onBridgeMessage, dispatchEvent, missing_data.
    respects_auto; try apply emit_same_but_table_and_log;
      intros s; split; try done; cbn; reflexivity.
  - intros Hdata Hsubject. unfold onBridgeMessage. rewrite Hdata.
    repeat (apply elem_of_cons in Hsubject as [-> | Hsubject];
            [by eexists|]).
    by apply elem_of_nil in Hsubject.
Qed.

Lemma registry_messages_touch_only_the_table_witness :
  ∃ err, onBridgeMessage (mkMessage "main:receiverDeviceUp" NoData) registry_with_two_devices
         = (Throw err, registry_with_two_devices).
Proof.
  destruct (registry_messages_touch_only_the_table
              (mkMessage "main:receiverDeviceUp" NoData) registry_with_two_devices)
    as [_ Hthrows].
  apply Hthrows; [reflexivity | by left].
Defined.

(** X28: whatever a page sends and whatever the collaborators answer, the
    calls that [handleContentMessage] makes concern the sending instance
    alone: every message is posted on the bridge port or on the content port
    of that instance, every script is injected into its tab and frame, and no
    port is opened, disconnected or closed, no event dispatched and no timer
    set. *)
Theorem page_messages_stay_with_their_instance
    (env : Env) (s : State) (i : InstRef) (instance : CastInstance) (message : Message) :
  heap s !! i = Some instance →
  grows_by (own_effect instance) s (exec (handleContentMessage env i message) s).
Proof.
  intros Hi.
  assert (exec (handleContentMessage env i message) s
          = exec ((if String.eqb (destination (subject message)) "bridge"
                   then postMessage (bridgePort instance) message
                   else mret tt) ;; handleLocally env i instance message) s) as ->.
  { unfold exec, handleContentMessage, getObj. run_monad. by rewrite Hi. }
  revert s Hi. intros s _. revert s.
  change (respects (grows_by (own_effect instance))
            ((if String.eqb (destination (subject message)) "bridge"
              then postMessage (bridgePort instance) message
              else mret tt) ;; handleLocally env i instance message)).
  respects_step.
  - destruct (String.eqb _ _); [|respects_auto].
    apply emit_grows_by. by left.
  - unfold handleLocally.
    destruct (String.eqb (subject message) "main:initializeCast").
    { unfold missing_data. destruct (data message); respects_auto;
        try (apply silent_grows_by; by intros s);
        apply emit_grows_by; by right. }
    destruct (String.eqb (subject message) "main:selectReceiver").
    { destruct (contentTabId instance) as [tabId|] eqn:Htab,
               (contentFrameId instance) as [frameId|] eqn:Hframe;
        unfold throw_logger_error, logger_error;
        [| respects_auto; by apply emit_grows_by ..].
      unfold missing_data. destruct (data message); respects_auto;
        try (apply emit_grows_by; by right).
      all: unfold loadSender, tabs_executeScript, new_URL; respects_auto;
        apply emit_grows_by; cbn; by rewrite ?Htab, ?Hframe. }
    destruct (String.eqb (subject message) "main:closeReceiverSelector").
    { destruct (selectorIsOpen env && receiverSelectorWaitForConnection env);
        respects_auto. by apply emit_grows_by. }
    respects_auto.
Qed.

Lemma page_messages_stay_with_their_instance_witness :
  grows_by (own_effect (mkInstance 1 0 (Some 1) (Some 5) None)) one_instance_in_frame_5
    (exec (handleContentMessage tab_mirroring_env 0
             (mkMessage "main:selectReceiver" (SelectReceiverData "request")))
       one_instance_in_frame_5).
Proof.
  apply (page_messages_stay_with_their_instance tab_mirroring_env one_instance_in_frame_5 0
           (mkInstance 1 0 (Some 1) (Some 5) None)).
  vm_compute. reflexivity.
Defined.

(** * The registry reconnects *)

(** X29: in every reachable state with no timer pending, when the port of the
    registry disconnects nothing more happens until 10000 have passed; then
    [refresh] runs: it calls [disconnect] on the old port, opens one new
    bridge port, posts [bridge:startDiscovery] on it and leaves the table
    empty, and from then on the messages that arrive on the new port are
    handled by [onBridgeMessage]. *)
Theorem registry_reconnects (env : Env) (s : State) (p : PortId) :
  reachable s →
  dmBridgePort s = Some p →
  timers s = [] →
  let s1 := exec (step env (PortDisconnected p)) s in
  let s2 := exec (step env (ClockAdvances (now s + 10000))) s1 in
  (∀ t, (t < now s + 10000)%N →
        log (exec (step env (ClockAdvances t)) s1) = log s1
        ∧ dmBridgePort (exec (step env (ClockAdvances t)) s1) = Some p)
  ∧ log s2 = log s1 ++ [EDisconnect p; EConnect (nextPort s);
                        EPostMessage (nextPort s) startDiscovery]
  ∧ dmBridgePort s2 = Some (nextPort s)
  ∧ getDevices s2 = []
  ∧ timers s2 = []
  ∧ (∀ message, step env (PortMessage (nextPort s) message) s2
                = (Ok tt, exec (onBridgeMessage message) s2)).
Proof.
  intros Hreach Hp Hno s1 s2. destruct (reachable_sound s Hreach) as [Hwf Hr].
  destruct (routed_registry s Hr p Hp) as (Hlt & Hm & Hd).
  set (s0 := set_ports (alter (with_connected false) p (ports s)) s).
  assert (s1 = exec onBridgeDisconnect s0) as Hs1.
  { subst s1. unfold exec, step. by rewrite deliverDisconnect_registry. }
  unfold exec in Hs1. rewrite onBridgeDisconnect_run in Hs1. cbn [snd] in Hs1.
  assert (Ht1 : timers s1 = [((now s + 10000)%N, refreshCallback)]).
  { rewrite Hs1. fields. subst s0. fields. by rewrite Hno. }
  assert (Hn1 : now s1 = now s) by (by rewrite Hs1).
  assert (reachable s2) as Hreach2 by (do 2 apply reachable_step; done).
  assert (s2 = refreshed (set_now (N.max (now s1) (now s + 10000)) (set_timers [] s1)))
    as Hs2.
  { subst s2. unfold step. rewrite (advanceTo_due _ _ s1 Ht1) by lia.
    unfold exec. by rewrite refresh_refreshed. }
  assert (dmBridgePort s2 = Some (nextPort s)) as Hp2 by (by rewrite Hs2, Hs1).
  split_and!.
  - intros t Hlt'. unfold exec, step.
    rewrite (advanceTo_early t _ _ s1 Ht1) by lia. cbn [snd]. by rewrite Hs1.
  - rewrite Hs2. unfold refreshed. fields. rewrite Hs1. fields. subst s0. fields.
    by rewrite Hp.
  - exact Hp2.
  - by rewrite Hs2.
  - by rewrite Hs2.
  - intros message. destruct (reachable_sound s2 Hreach2) as [_ Hr2].
    destruct (routed_registry s2 Hr2 _ Hp2) as (_ & Hm2 & _).
    unfold step. by rewrite (deliverMessage_one env _ message RegistryMessageListener).
Qed.

Lemma registry_reconnects_witness :
  let s1 := exec (step quiet_env (PortDisconnected 0)) registry_connected in
  let s2 := exec (step quiet_env (ClockAdvances 10000)) s1 in
  log s2 = log s1 ++ [EDisconnect 0; EConnect 1; EPostMessage 1 startDiscovery]
  ∧ dmBridgePort s2 = Some 1.
Proof.
  destruct (registry_reconnects quiet_env registry_connected 0)
    as (_ & Hlog & Hport & _);
    [apply (reachable_step quiet_env _ initialState reachable_init)
    | reflexivity | reflexivity |].
  split; [exact Hlog | exact Hport].
Defined.

(** * Messages without data *)

(** X30: a page message without data.  [main:initializeCast] makes
    [handleContentMessage] throw before it has changed anything: no
    application id is stored and no device is reported.
    [main:selectReceiver] from an instance with a tab and a frame id is
    answered with [cast:selectReceiver/cancelled], whatever the selection
    workflow would have answered, and the handler returns normally. *)
Theorem page_messages_without_data
    (env : Env) (s : State) (i : InstRef) (instance : CastInstance) :
  heap s !! i = Some instance →
  (∃ err, handleContentMessage env i (mkMessage "main:initializeCast" NoData) s
          = (Throw err, s))
  ∧ (is_Some (contentTabId instance) → is_Some (contentFrameId instance) →
     handleContentMessage env i (mkMessage "main:selectReceiver" NoData) s
     = (Ok tt, set_log (log s ++ [EPostMessage (contentPort instance)
                                    (mkMessage "cast:selectReceiver/cancelled" NoData)])
                 s)).
Proof.
  intros Hi. split.
  - eexists. unfold handleContentMessage, getObj. run_monad. rewrite Hi. reflexivity.
  - intros [tabId Htab] [frameId Hframe].
    unfold handleContentMessage, getObj. run_monad. rewrite Hi. run_monad.
    unfold handleLocally. cbn. rewrite Htab, Hframe. reflexivity.
Qed.

Lemma page_messages_without_data_witness :
  handleContentMessage tab_mirroring_env 0 (mkMessage "main:selectReceiver" NoData)
    one_instance_in_frame_5
  = (Ok tt, set_log (log one_instance_in_frame_5
                     ++ [EPostMessage 0 (mkMessage "cast:selectReceiver/cancelled" NoData)])
              one_instance_in_frame_5).
Proof.
  destruct (page_messages_without_data tab_mirroring_env one_instance_in_frame_5 0
              (mkInstance 1 0 (Some 1) (Some 5) None)) as [_ Hcancelled];
    [vm_compute; reflexivity|].
  apply Hcancelled; by eexists.
Defined.

(** * Connections that overlap *)

(** ** [createInstance] and its stages *)

Lemma createInstance_stages env port s :
  createInstance env port s
  = (w ← createInstance_begin port;
     i ← match w with
         | ContentAwaitsBridge cp bp tabId frameId =>
             createInstanceFromContent_rest cp bp tabId frameId
         | BackgroundAwaitsBridge cp bp => createInstanceFromBackground_rest cp bp
         | _ => throw "no such stage"
         end;
     w ← createInstance_add i;
     match w with
     | AwaitsInfo i cp => createInstance_finish env i cp
     | _ => throw "no such stage"
     end) s.
Proof.
  unfold createInstance, createInstance_begin. run_monad.
  destruct (kind (portInfo port s)).
  - unfold createInstanceFromContent, createInstanceFromContent_begin. run_monad.
    destruct (senderTabId (portInfo port s)) as [tabId|]; [|reflexivity].
    destruct (senderFrameId (portInfo port s)) as [frameId|]; [|reflexivity].
    run_monad.
    destruct (disconnectExisting tabId frameId s) as [[[]|e] s1]; [|reflexivity].
    unfold createInstanceFromContent_rest, createInstance_add, createInstance_finish,
      bridge_connect, newPort, newObj, onDisconnect_addListener, onMessage_addListener,
      alterPort, getObj.
    run_monad. rewrite lookup_insert_eq. reflexivity.
  - unfold createInstanceFromBackground, createInstanceFromBackground_begin,
      createInstanceFromBackground_rest, createInstance_add, createInstance_finish,
      bridge_connect, newPort, newObj, onDisconnect_addListener, onMessage_addListener,
      alterPort, getObj.
    run_monad. rewrite lookup_insert_eq. reflexivity.
Qed.

(** ** Steps that extend a state *)


Lemma extends_refl s : extends s s.
Proof.
  split; try done.
  - intros i instance Hi. by rewrite Hi.
  - intros i instance Hn Hs. congruence.
Qed.

Lemma extends_trans s1 s2 s3 : extends s1 s2 → extends s2 s3 → extends s1 s3.
Proof.
  intros [A1 A2 A3 A4 A5] [B1 B2 B3 B4 B5]. split.
  - lia.
  - intros p Hp. by apply B2, A2.
  - intros p Hp. rewrite B3 by lia. by apply A3.
  - intros i instance Hi. specialize (A4 i instance Hi).
    apply fmap_Some in A4 as (instance2 & Hi2 & Hshape).
    rewrite (B4 i instance2 Hi2). by rewrite Hshape.
  - intros i instance Hnone Hi.
    destruct (heap s2 !! i) as [instance2|] eqn:Hi2.
    + specialize (B4 i instance2 Hi2). rewrite Hi in B4. cbn in B4.
      destruct (A5 i instance2 Hnone Hi2) as [Hb Hc].
      injection B4 as Eb Ec _ _. rewrite Eb, Ec. done.
    + destruct (B5 i instance Hi2 Hi). lia.
Qed.

Global Instance carries_on_preorder : PreOrder carries_on.
Proof.
  split.
  - intros s Hwf. split; [done | apply extends_refl].
  - intros s1 s2 s3 H12 H23 Hwf.
    destruct (H12 Hwf) as [Hwf2 E12]. destruct (H23 Hwf2) as [Hwf3 E23].
    split; [done | by eapply extends_trans].
Qed.

Lemma evolves_extends s s' : evolves s s' → extends s s'.
Proof.
  intros [E1 E2 E3 E4 E5 E6]. split.
  - lia.
  - intros p [ps Hp]. destruct (ports s' !! p) eqn:Hp'; [by eexists|].
    apply E3 in Hp'. congruence.
  - intros p _. apply E4.
  - intros i instance Hi. rewrite E5, Hi. done.
  - intros i instance Hnone Hi. specialize (E5 i). rewrite Hnone, Hi in E5. done.
Qed.

Lemma frames_carries_on {A} (m : M A) : frames m → respects carries_on m.
Proof.
  intros Hm s Hwf. split.
  - by apply (evolves_wf s), Hwf; apply Hm.
  - apply evolves_extends, Hm.
Qed.

Lemma port_added_carries_on ps s : carries_on s (port_added ps s).
Proof.
  intros Hwf. split; [by apply wf_port_added|]. split.
  - cbn. lia.
  - intros p Hp. cbn. destruct (decide (nextPort s = p)) as [<-|Hne].
    + rewrite lookup_insert_eq. by eexists.
    + by rewrite lookup_insert_ne.
  - intros p Hp. rewrite portInfo_port_added_old by lia. done.
  - intros i instance Hi. cbn. by rewrite Hi.
  - intros i instance Hnone Hi. cbn in Hi. congruence.
Qed.

Lemma newPort_carries_on k nm tab frame : respects carries_on (newPort k nm tab frame).
Proof. intros s. rewrite newPort_run. apply port_added_carries_on. Qed.

Lemma bridge_connect_carries_on : respects carries_on bridge_connect.
Proof.
  unfold bridge_connect.
  refine (respects_bind _ _ _ _ _); [apply newPort_carries_on|]. intros p.
  refine (respects_bind _ _ _ _ _); [|intros ?; refine (respects_ret _ _)].
  apply frames_carries_on, frames_emit.
Qed.

Lemma refresh_carries_on : respects carries_on refresh.
Proof.
  intros s Hwf. rewrite refresh_refreshed. cbn [snd].
  split; [by apply wf_refreshed|]. split.
  - cbn. lia.
  - intros p Hp. rewrite ports_refreshed.
    destruct (decide (nextPort s = p)) as [<-|Hne].
    + rewrite lookup_insert_eq. by eexists.
    + rewrite lookup_insert_ne by done.
      destruct (dmBridgePort s) as [old|]; [|done].
      destruct (decide (old = p)) as [->|Hne'].
      * rewrite lookup_alter_eq. by apply fmap_is_Some.
      * by rewrite lookup_alter_ne.
  - intros p Hp. unfold portInfo. rewrite ports_refreshed.
    rewrite lookup_insert_ne by lia.
    destruct (dmBridgePort s) as [old|]; [|done].
    destruct (decide (old = p)) as [->|Hne].
    + rewrite lookup_alter_eq. apply listeners_without_connection.
    + by rewrite lookup_alter_ne.
  - intros i instance Hi. cbn. by rewrite Hi.
  - intros i instance Hnone Hi. cbn in Hi. congruence.
Qed.

Lemma advanceTo_carries_on t : respects carries_on (advanceTo t).
Proof.
  unfold advanceTo.
  refine (respects_bind _ _ _ _ _); [refine (respects_get _)|]. intros s0.
  refine (respects_bind _ _ _ _ _).
  { apply frames_carries_on, frames_modify_outside. intros s. by split_and!. }
  intros _. refine (respects_forEach _ _ _ _). intros [due []].
  refine (respects_notAwaited _ _ _). apply refresh_carries_on.
Qed.

Lemma init_deviceManager_carries_on : respects carries_on init_deviceManager.
Proof.
  unfold init_deviceManager.
  refine (respects_bind _ _ _ _ _); [refine (respects_get _)|]. intros s0.
  destruct (dmBridgePort s0); [refine (respects_ret _ _) | apply refresh_carries_on].
Qed.

(** A step of the state that keeps what the waiting calls rely on. *)
Lemma page_wf_carried pg s' :
  page_wf pg → carries_on (st pg) s' → page_wf (mkPage s' (waiting pg)).
Proof.
  intros [Hwf Hw Hall Hap Hun] Hc. destruct (Hc Hwf) as [Hwf' [E1 E2 E3 E4 E5]].
  assert (∀ p, p ∈ waiting pg ≫= claims → p < nextPort (st pg)) as Hlt.
  { intros p Hp. destruct (Hall p Hp) as [ps Hps].
    destruct (decide (p < nextPort (st pg))) as [|Hge]; [done|].
    rewrite (wf_ports_fresh _ Hwf) in Hps by lia. done. }
  split; cbn [st waiting].
  - done.
  - intros w Hin. specialize (Hw w Hin).
    assert (∀ p, p ∈ claims w → p < nextPort (st pg)) as Hlt'.
    { intros p Hp. apply Hlt, list_elem_of_bind. by exists w. }
    destruct w as [cp bp tabId frameId | cp bp | i | i cp];
      cbn [waits_well claims] in *; try done.
    + rewrite !E3; [done | apply Hlt'; right; by left | apply Hlt'; by left].
    + destruct Hw as (instance & Hi & Hwired).
      specialize (E4 i instance Hi). apply fmap_Some in E4 as (instance' & Hi' & Hshape).
      exists instance'. split; [done|].
      injection Hshape as Eb Ec Et _. rewrite <- Eb, <- Ec, <- Et.
      destruct (wf_instance_ports _ Hwf i instance Hi).
      rewrite !E3 by done. done.
  - intros p Hp. by apply E2, Hall.
  - done.
  - intros p i instance' Hp Hi'.
    destruct (heap (st pg) !! i) as [instance|] eqn:Hi.
    + specialize (E4 i instance Hi). rewrite Hi' in E4. injection E4 as Eb Ec _ _.
      rewrite Eb, Ec. by apply (Hun p i).
    + destruct (E5 i instance' Hi Hi'). specialize (Hlt p Hp). lia.
Qed.

(** ** What each stage does *)

Lemma createInstanceFromContent_rest_run cp bp tabId frameId s :
  cp ≠ bp →
  ∃ s', createInstanceFromContent_rest cp bp tabId frameId s = (Ok (nextRef s), s')
    ∧ heap s' = <[nextRef s := mkInstance bp cp (Some tabId) (Some frameId) None]> (heap s)
    ∧ nextRef s' = S (nextRef s)
    ∧ nextPort s' = nextPort s
    ∧ activeInstances s' = activeInstances s
    ∧ log s' = log s
    ∧ (∀ q, ports s' !! q = None ↔ ports s !! q = None)
    ∧ (∀ q, q ≠ cp → q ≠ bp → portInfo q s' = portInfo q s)
    ∧ (is_Some (ports s !! cp) →
       onDisconnectListeners (portInfo cp s')
       = addL (DisconnectListener (nextRef s)) (onDisconnectListeners (portInfo cp s)))
    ∧ (is_Some (ports s !! bp) →
       onDisconnectListeners (portInfo bp s')
       = addL (DisconnectListener (nextRef s)) (onDisconnectListeners (portInfo bp s))).
Proof.
  intros Hne.
  unfold createInstanceFromContent_rest, newObj, onDisconnect_addListener,
    onMessage_addListener, alterPort.
  run_monad. eexists. split; [reflexivity|]. cbn.
  split_and!; try reflexivity.
  - intros q. rewrite !lookup_alter_None. done.
  - intros q Hc Hb. unfold portInfo. cbn. by rewrite !lookup_alter_ne by done.
  - intros [ps Hps]. unfold portInfo. cbn.
    rewrite !lookup_alter_eq. rewrite !lookup_alter_ne by done.
    rewrite Hps. by destruct ps.
  - intros [ps Hps]. unfold portInfo. cbn.
    rewrite !(lookup_alter_ne _ _ cp bp) by done.
    rewrite !lookup_alter_eq. rewrite Hps. by destruct ps.
Qed.

Lemma createInstanceFromBackground_rest_run cp bp s :
  ∃ s', createInstanceFromBackground_rest cp bp s = (Ok (nextRef s), s')
    ∧ heap s' = <[nextRef s := mkInstance bp cp None None None]> (heap s)
    ∧ nextRef s' = S (nextRef s)
    ∧ nextPort s' = nextPort s
    ∧ activeInstances s' = activeInstances s
    ∧ log s' = log s
    ∧ (∀ q, ports s' !! q = None ↔ ports s !! q = None)
    ∧ (∀ q, q ≠ bp →
         onDisconnectListeners (portInfo q s') = onDisconnectListeners (portInfo q s)).
Proof.
  unfold createInstanceFromBackground_rest, newObj, onDisconnect_addListener,
    onMessage_addListener, alterPort.
  run_monad. eexists. split; [reflexivity|]. cbn.
  split_and!; try reflexivity.
  - intros q. rewrite !lookup_alter_None. done.
  - intros q Hb. unfold portInfo. cbn.
    destruct (decide (cp = q)) as [->|Hc].
    + rewrite lookup_alter_eq. rewrite !lookup_alter_ne by done.
      by destruct (ports s !! q) as [[]|].
    + by rewrite !lookup_alter_ne by done.
Qed.

Lemma createInstance_add_run i instance s :
  heap s !! i = Some instance →
  createInstance_add i s
  = (Ok (AwaitsInfo i (contentPort instance)),
     set_activeInstances (Set_add i (activeInstances s)) s).
Proof.
  intros Hi. unfold createInstance_add, getObj. run_monad. by rewrite Hi.
Qed.

Lemma createInstance_finish_run env i cp s :
  createInstance_finish env i cp s
  = match getInfo env with
    | Fulfilled info => (Ok i, set_log (log s ++ [EPostMessage cp (initialized info)]) s)
    | Rejected => (Throw "rejected promise", s)
    end.
Proof.
  unfold createInstance_finish, await. run_monad. by destruct (getInfo env).
Qed.

Lemma frames_createInstance_finish env i cp : frames (createInstance_finish env i cp).
Proof. unfold createInstance_finish. frames_auto. Qed.

Lemma allocated_lt s p : wf s → is_Some (ports s !! p) → p < nextPort s.
Proof.
  intros Hwf [ps Hps]. destruct (decide (p < nextPort s)) as [|Hge]; [done|].
  rewrite (wf_ports_fresh _ Hwf) in Hps by lia. done.
Qed.

Lemma live_lt s i : wf s → is_Some (heap s !! i) → i < nextRef s.
Proof.
  intros Hwf [instance Hi]. destruct (decide (i < nextRef s)) as [|Hge]; [done|].
  rewrite (wf_heap_fresh _ Hwf) in Hi by lia. done.
Qed.

(** The rest of [createInstanceFromContent] on two ports that nobody else
    uses and that have no disconnect listener yet. *)
Lemma wf_content_rest cp bp tabId frameId s :
  wf s → cp ≠ bp →
  is_Some (ports s !! cp) → is_Some (ports s !! bp) →
  onDisconnectListeners (portInfo cp s) = [] →
  onDisconnectListeners (portInfo bp s) = [] →
  (∀ i instance, heap s !! i = Some instance →
     (bridgePort instance ≠ cp ∧ contentPort instance ≠ cp)
     ∧ (bridgePort instance ≠ bp ∧ contentPort instance ≠ bp)) →
  wf (exec (createInstanceFromContent_rest cp bp tabId frameId) s).
Proof.
  intros Hwf Hne Hcp Hbp Hqc Hqb Hunused.
  destruct (createInstanceFromContent_rest_run cp bp tabId frameId s Hne)
    as (s' & Hrun & Hheap & Href & Hport & Hact & _ & Hnone & Hother & Hc & Hb).
  unfold exec. rewrite Hrun. cbn [snd].
  destruct Hwf as [H1 H2 H3 H4 H5 H6]. split.
  - intros p Hp. apply Hnone, H1. by rewrite <- Hport.
  - intros i Hi. rewrite Hheap, lookup_insert_ne by lia. apply H2. lia.
  - by rewrite Hact.
  - intros i Hi. rewrite Hact in Hi. rewrite Hheap.
    destruct (decide (nextRef s = i)) as [<-|Hni].
    + rewrite lookup_insert_eq. by eexists.
    + rewrite lookup_insert_ne by done. by apply H4.
  - intros i instance Hi. rewrite Hheap in Hi. rewrite Hport.
    destruct (decide (nextRef s = i)) as [<-|Hni].
    + rewrite lookup_insert_eq in Hi. injection Hi as <-. cbn.
      split; apply (allocated_lt s); try done; by split.
    + rewrite lookup_insert_ne in Hi by done. by apply (H5 i).
  - intros i instance Hlive Hi Htab. rewrite Hact in Hlive. rewrite Hheap in Hi.
    destruct (decide (nextRef s = i)) as [<-|Hni].
    + destruct (H4 _ Hlive) as [old Hold]. rewrite H2 in Hold by lia. done.
    + rewrite lookup_insert_ne in Hi by done.
      destruct (Hunused i instance Hi) as [[? ?] [? ?]].
      rewrite !Hother by done. by apply H6.
Qed.

Lemma wf_background_rest cp bp s :
  wf s →
  is_Some (ports s !! cp) → is_Some (ports s !! bp) →
  (∀ i instance, heap s !! i = Some instance →
     bridgePort instance ≠ bp ∧ contentPort instance ≠ bp) →
  wf (exec (createInstanceFromBackground_rest cp bp) s).
Proof.
  intros Hwf Hcp Hbp Hunused.
  destruct (createInstanceFromBackground_rest_run cp bp s)
    as (s' & Hrun & Hheap & Href & Hport & Hact & _ & Hnone & Hother).
  unfold exec. rewrite Hrun. cbn [snd].
  destruct Hwf as [H1 H2 H3 H4 H5 H6]. split.
  - intros p Hp. apply Hnone, H1. by rewrite <- Hport.
  - intros i Hi. rewrite Hheap, lookup_insert_ne by lia. apply H2. lia.
  - by rewrite Hact.
  - intros i Hi. rewrite Hact in Hi. rewrite Hheap.
    destruct (decide (nextRef s = i)) as [<-|Hni].
    + rewrite lookup_insert_eq. by eexists.
    + rewrite lookup_insert_ne by done. by apply H4.
  - intros i instance Hi. rewrite Hheap in Hi. rewrite Hport.
    destruct (decide (nextRef s = i)) as [<-|Hni].
    + rewrite lookup_insert_eq in Hi. injection Hi as <-. cbn.
      split; apply (allocated_lt s); try done; by split.
    + rewrite lookup_insert_ne in Hi by done. by apply (H5 i).
  - intros i instance Hlive Hi Htab. rewrite Hact in Hlive. rewrite Hheap in Hi.
    destruct (decide (nextRef s = i)) as [<-|Hni].
    + destruct (H4 _ Hlive) as [old Hold]. rewrite H2 in Hold by lia. done.
    + rewrite lookup_insert_ne in Hi by done.
      destruct (Hunused i instance Hi) as [? ?].
      rewrite !Hother by done. by apply H6.
Qed.

Lemma wf_instance_added i instance s :
  wf s → heap s !! i = Some instance →
  (is_Some (contentTabId instance) →
   onDisconnectListeners (portInfo (bridgePort instance) s) = [DisconnectListener i]
   ∧ onDisconnectListeners (portInfo (contentPort instance) s) = [DisconnectListener i]) →
  wf (set_activeInstances (Set_add i (activeInstances s)) s).
Proof.
  intros [H1 H2 H3 H4 H5 H6] Hi Hwired. split; cbn; try done.
  - by apply NoDup_Set_add.
  - intros j [->|Hj]%elem_of_Set_add; [by eexists | by apply H4].
  - intros j other [->|Hj]%elem_of_Set_add Hother Htab.
    + rewrite Hi in Hother. injection Hother as <-. by apply Hwired.
    + by apply H6.
Qed.

(** ** The waiting calls, one of them going on *)

Lemma apart_middle (before after : list Waiting) (w : Waiting) :
  NoDup ((before ++ w :: after) ≫= claims) →
  NoDup (claims w)
  ∧ NoDup ((before ++ after) ≫= claims)
  ∧ ∀ p, p ∈ claims w → p ∉ (before ++ after) ≫= claims.
Proof.
  rewrite !bind_app, bind_cons.
  intros (Hb & Hbw & Hrest)%NoDup_app.
  apply NoDup_app in Hrest as (Hw & Hwa & Ha).
  split_and!.
  - done.
  - apply NoDup_app. split_and!; [done | | done].
    intros p Hp Hp'. apply (Hbw p Hp). apply elem_of_app. by right.
  - intros p Hp [Hin|Hin]%elem_of_app.
    + apply (Hbw p Hin). apply elem_of_app. by left.
    + by apply (Hwa p).
Qed.

Lemma claims_others (before after : list Waiting) (w : Waiting) p :
  p ∈ (before ++ after) ≫= claims → p ∈ (before ++ w :: after) ≫= claims.
Proof.
  rewrite !bind_app, bind_cons, !elem_of_app. tauto.
Qed.

Lemma claims_own (before after : list Waiting) (w : Waiting) p :
  p ∈ claims w → p ∈ (before ++ w :: after) ≫= claims.
Proof.
  rewrite !bind_app, bind_cons, !elem_of_app. tauto.
Qed.

Lemma claims_of_silent (news : list Waiting) :
  (∀ w, w ∈ news → claims w = []) → news ≫= claims = [].
Proof.
  induction news as [|w news IH]; intros Hnews; [done|].
  rewrite bind_cons, (Hnews w) by (by left). cbn. apply IH.
  intros w' Hw'. apply Hnews. by right.
Qed.

Lemma page_wf_replace (before news after : list Waiting) (w : Waiting) (s s' : State) :
  page_wf (mkPage s (before ++ w :: after)) →
  wf s' →
  (∀ p, is_Some (ports s !! p) → is_Some (ports s' !! p)) →
  (∀ w', w' ∈ before ++ after → waits_well s w' → waits_well s' w') →
  (∀ w', w' ∈ news → waits_well s' w' ∧ claims w' = []) →
  (∀ p i instance, p ∈ (before ++ after) ≫= claims →
     heap s' !! i = Some instance →
     bridgePort instance ≠ p ∧ contentPort instance ≠ p) →
  page_wf (mkPage s' (before ++ news ++ after)).
Proof.
  intros [Hwf Hw Hall Hap Hun] Hwf' Hports Hothers Hnews Hunused.
  cbn [st waiting] in *.
  destruct (apart_middle before after w Hap) as (_ & Hap' & _).
  assert ((before ++ news ++ after) ≫= claims = (before ++ after) ≫= claims) as Hclaims.
  { rewrite !bind_app, (claims_of_silent news); [reflexivity|].
    intros w' Hw'. by apply Hnews. }
  split; cbn [st waiting].
  - done.
  - intros w' Hin. rewrite !elem_of_app in Hin. destruct Hin as [Hin | [Hin | Hin]].
    + apply Hothers; [apply elem_of_app; by left|].
      apply Hw. apply elem_of_app. by left.
    + by apply Hnews.
    + apply Hothers; [apply elem_of_app; by right|].
      apply Hw. apply elem_of_app. right. by right.
  - intros p Hp. rewrite Hclaims in Hp. apply Hports, Hall. by apply claims_others.
  - by rewrite Hclaims.
  - intros p i instance Hp. rewrite Hclaims in Hp. by apply Hunused.
Qed.

Lemma settle_ok (m : M (list Waiting)) before after s ws s' :
  m s = (Ok ws, s') → settle m before after s = mkPage s' (before ++ ws ++ after).
Proof. intros Hm. unfold settle. by rewrite Hm. Qed.

Lemma settle_throw (m : M (list Waiting)) before after s e s' :
  m s = (Throw e, s') → settle m before after s = mkPage s' (before ++ [] ++ after).
Proof. intros Hm. unfold settle. by rewrite Hm. Qed.

Lemma page_wf_resumed env before after w s :
  page_wf (mkPage s (before ++ w :: after)) →
  page_wf (settle (resume env w) before after s).
Proof.
  intros Hpg. pose proof Hpg as [Hwf Hw Hall Hap Hun]. cbn [st waiting] in *.
  destruct (apart_middle before after w Hap) as (Hown & _ & Hapart).
  assert (waits_well s w) as Hwell.
  { apply Hw. apply elem_of_app. right. by left. }
  destruct w as [cp bp tabId frameId | cp bp | i | i cp]; cbn [resume].
  - (* the bridge port of a content script's instance has come *)
    assert (cp ≠ bp) as Hne.
    { cbn in Hown. apply NoDup_cons in Hown as [Hnin _]. intros ->. apply Hnin. by left. }
    destruct (createInstanceFromContent_rest_run cp bp tabId frameId s Hne)
      as (s' & Hrun & Hheap & Href & Hport & Hact & _ & Hnone & Hother & Hc & Hb).
    assert (is_Some (ports s !! cp)) as Hcp.
    { apply Hall. apply claims_own. by left. }
    assert (is_Some (ports s !! bp)) as Hbp.
    { apply Hall. apply claims_own. right. by left. }
    destruct Hwell as [Hqc Hqb].
    rewrite (settle_ok _ before after s [AwaitsInstance (nextRef s)] s')
      by (unfold mbind, M_bind, bind; by rewrite Hrun).
    apply (page_wf_replace before _ after (ContentAwaitsBridge cp bp tabId frameId) s);
      [done | | | | |].
    + pose proof (wf_content_rest cp bp tabId frameId s Hwf Hne Hcp Hbp Hqc Hqb) as Hwf'.
      unfold exec in Hwf'. rewrite Hrun in Hwf'. apply Hwf'.
      intros i instance Hi. split; apply (Hun _ i instance); try done; apply claims_own.
      * by left.
      * right. by left.
    + intros p [ps Hps]. destruct (ports s' !! p) eqn:Hp'; [by eexists|].
      apply Hnone in Hp'. congruence.
    + intros w' Hin Hw'.
      assert (∀ p, p ∈ claims w' → p ≠ cp ∧ p ≠ bp) as Hfar.
      { intros p Hp. split; intros ->.
        - apply (Hapart cp); [by left|]. apply list_elem_of_bind. by exists w'.
        - apply (Hapart bp); [right; by left|]. apply list_elem_of_bind. by exists w'. }
      destruct w' as [cp' bp' tabId' frameId' | cp' bp' | j | j cp']; cbn [waits_well] in *;
        try done.
      * destruct (Hfar cp') as [? ?]; [by left|].
        destruct (Hfar bp') as [? ?]; [right; by left|].
        by rewrite !Hother.
      * destruct Hw' as (instance & Hj & Hwired). exists instance.
        assert (j ≠ nextRef s) as Hj'.
        { pose proof (live_lt s j Hwf (mk_is_Some _ _ Hj)). lia. }
        rewrite Hheap, lookup_insert_ne by done. split; [done|].
        destruct (Hun cp j instance) as [? ?]; [apply claims_own; by left | done |].
        destruct (Hun bp j instance) as [? ?]; [apply claims_own; right; by left | done |].
        by rewrite !Hother.
    + intros w' ->%list_elem_of_singleton. split; [|done]. cbn [waits_well].
      eexists. rewrite Hheap, lookup_insert_eq. split; [done|]. intros _. cbn.
      by rewrite Hc, Hb, Hqc, Hqb.
    + intros p i instance Hp Hi. rewrite Hheap in Hi.
      destruct (decide (nextRef s = i)) as [<-|Hni].
      * rewrite lookup_insert_eq in Hi. injection Hi as <-. cbn.
        split; intros <-.
        -- apply (Hapart bp); [right; by left | done].
        -- apply (Hapart cp); [by left | done].
      * rewrite lookup_insert_ne in Hi by done. apply (Hun p i); [|done].
        by apply claims_others.
  - (* the bridge port of a page's own instance has come *)
    destruct (createInstanceFromBackground_rest_run cp bp s)
      as (s' & Hrun & Hheap & Href & Hport & Hact & _ & Hnone & Hother).
    assert (is_Some (ports s !! cp)) as Hcp.
    { apply Hall. apply claims_own. by left. }
    assert (is_Some (ports s !! bp)) as Hbp.
    { apply Hall. apply claims_own. right. by left. }
    rewrite (settle_ok _ before after s [AwaitsInstance (nextRef s)] s')
      by (unfold mbind, M_bind, bind; by rewrite Hrun).
    apply (page_wf_replace before _ after (BackgroundAwaitsBridge cp bp) s);
      [done | | | | |].
    + pose proof (wf_background_rest cp bp s Hwf Hcp Hbp) as Hwf'.
      unfold exec in Hwf'. rewrite Hrun in Hwf'. apply Hwf'.
      intros i instance Hi. apply (Hun _ i instance); [|done].
      apply claims_own. right. by left.
    + intros p [ps Hps]. destruct (ports s' !! p) eqn:Hp'; [by eexists|].
      apply Hnone in Hp'. congruence.
    + intros w' Hin Hw'.
      assert (∀ p, p ∈ claims w' → p ≠ bp) as Hfar.
      { intros p Hp ->.
        apply (Hapart bp); [right; by left|]. apply list_elem_of_bind. by exists w'. }
      destruct w' as [cp' bp' tabId' frameId' | cp' bp' | j | j cp']; cbn [waits_well] in *;
        try done.
      * rewrite !Hother; [done | apply Hfar; right; by left | apply Hfar; by left].
      * destruct Hw' as (instance & Hj & Hwired). exists instance.
        assert (j ≠ nextRef s) as Hj'.
        { pose proof (live_lt s j Hwf (mk_is_Some _ _ Hj)). lia. }
        rewrite Hheap, lookup_insert_ne by done. split; [done|].
        destruct (Hun bp j instance) as [? ?]; [apply claims_own; right; by left | done |].
        by rewrite !Hother.
    + intros w' ->%list_elem_of_singleton. split; [|done]. cbn [waits_well].
      eexists. rewrite Hheap, lookup_insert_eq. split; [done|]. cbn. by intros [? ?].
    + intros p i instance Hp Hi. rewrite Hheap in Hi.
      destruct (decide (nextRef s = i)) as [<-|Hni].
      * rewrite lookup_insert_eq in Hi. injection Hi as <-. cbn.
        split; intros <-.
        -- apply (Hapart bp); [right; by left | done].
        -- apply (Hapart cp); [by left | done].
      * rewrite lookup_insert_ne in Hi by done. apply (Hun p i); [|done].
        by apply claims_others.
  - (* the instance has come: it joins the live set *)
    destruct Hwell as (instance & Hi & Hwired).
    rewrite (settle_ok _ before after s [AwaitsInfo i (contentPort instance)]
               (set_activeInstances (Set_add i (activeInstances s)) s))
      by (unfold mbind, M_bind, bind; by rewrite (createInstance_add_run i instance)).
    apply (page_wf_replace before _ after (AwaitsInstance i) s); [done | | | | |].
    + by apply (wf_instance_added i instance).
    + done.
    + intros w' _ Hw'. by destruct w'.
    + by intros w' ->%list_elem_of_singleton.
    + intros p j other Hp Hj. apply (Hun p j); [|done]. by apply claims_others.
  - (* the bridge has told its version *)
    rewrite <- (app_nil_l after) at 1.
    assert (∀ s', carries_on s s' → heap s' = heap s →
              page_wf (mkPage s' (before ++ [] ++ after))) as Hdone.
    { intros s' Hc Hheap. destruct (Hc Hwf) as [Hwf' [E1 E2 E3 E4 E5]].
      apply (page_wf_replace before _ after (AwaitsInfo i cp) s); [done | done | done | | |].
      - intros w' Hin Hw'.
        apply (pw_waiting _ (page_wf_carried (mkPage s (before ++ AwaitsInfo i cp :: after))
                               s' Hpg Hc)).
        cbn. rewrite elem_of_app in Hin. rewrite elem_of_app, elem_of_cons. tauto.
      - by intros w' H%elem_of_nil.
      - intros p j other Hp Hj. rewrite Hheap in Hj. apply (Hun p j); [|done].
        by apply claims_others. }
    unfold settle, mbind, M_bind, bind. rewrite createInstance_finish_run.
    destruct (getInfo env) as [info|]; cbn.
    + apply Hdone; [|done]. apply (frames_carries_on (emit _)), frames_emit.
    + apply Hdone; [reflexivity | done].
Qed.

(** ** A connection arrives *)

Lemma bridge_connect_run s :
  bridge_connect s
  = (Ok (nextPort s),
     set_log (log s ++ [EConnect (nextPort s)])
       (port_added (mkPort RuntimePort "bridge" None None true [] []) s)).
Proof. reflexivity. Qed.

Lemma connection_arrives_run tabId frameId s :
  (p ← newPort RuntimePort "cast" (Some tabId) (Some frameId); onConnect_begin p) s
  = (Ok [ContentAwaitsBridge (nextPort s) (S (nextPort s)) tabId frameId],
     arrived tabId frameId s).
Proof.
  unfold mbind at 1, M_bind at 1, bind at 1. rewrite newPort_run.
  set (s1 := port_added _ s).
  assert (portInfo (nextPort s) s1
          = mkPort RuntimePort "cast" (Some tabId) (Some frameId) true [] []) as Hinfo
    by apply portInfo_port_added_new.
  unfold onConnect_begin. run_monad. rewrite Hinfo. cbn.
  unfold createInstance_begin. run_monad. rewrite Hinfo. cbn.
  unfold createInstanceFromContent_begin. run_monad. rewrite Hinfo. cbn.
  rewrite disconnectExisting_run.
  pose proof (all_disconnected_frame (occupants s1 tabId frameId) s1) as Hfr.
  cbv zeta in Hfr. destruct Hfr as (_ & _ & _ & _ & _ & Hport & _).
  rewrite bridge_connect_run. unfold arrived. fold s1. rewrite Hport. reflexivity.
Qed.

Lemma occupants_port_added ps s tabId frameId :
  occupants (port_added ps s) tabId frameId = occupants s tabId frameId.
Proof. reflexivity. Qed.

Lemma arrived_frame tabId frameId s :
  let s' := arrived tabId frameId s in
  heap s' = heap s ∧ activeInstances s' = activeInstances s
  ∧ nextRef s' = nextRef s ∧ nextPort s' = S (S (nextPort s))
  ∧ log s' = log s
             ++ map (λ old, EDisconnect (bridgePort old)) (occupants s tabId frameId)
             ++ [EConnect (S (nextPort s))].
Proof.
  unfold arrived. cbv zeta. set (s1 := port_added _ s).
  pose proof (all_disconnected_frame (occupants s1 tabId frameId) s1) as Hfr.
  cbv zeta in Hfr. destruct Hfr as (_ & _ & Hact & Hheap & Href & Hport & _ & _ & Hlog).
  unfold port_added at 1 2 3 4 5. fields.
  rewrite Hact, Hheap, Href, Hport, Hlog.
  change (occupants s1 tabId frameId) with (occupants s tabId frameId).
  subst s1. unfold port_added. fields. by rewrite <- app_assoc.
Qed.

Lemma arrived_ports tabId frameId s :
  let s' := arrived tabId frameId s in
  let cp := nextPort s in
  let bp := S (nextPort s) in
  is_Some (ports s' !! cp) ∧ is_Some (ports s' !! bp)
  ∧ onDisconnectListeners (portInfo cp s') = []
  ∧ onDisconnectListeners (portInfo bp s') = [].
Proof.
  set (s1 := port_added (mkPort RuntimePort "cast" (Some tabId) (Some frameId) true [] []) s).
  set (s2 := all_disconnected (occupants s1 tabId frameId) s1).
  assert (ports (arrived tabId frameId s)
          = <[nextPort s2 := mkPort RuntimePort "bridge" None None true [] []]> (ports s2))
    as Hports by reflexivity.
  pose proof (evolves_all_disconnected s1 tabId frameId) as [E1 E2 E3 E4 E5 E6].
  fold s2 in E1, E2, E3, E4, E5, E6.
  assert (nextPort s2 = S (nextPort s)) as Hport by (by rewrite E1).
  assert (ports s1 !! nextPort s
          = Some (mkPort RuntimePort "cast" (Some tabId) (Some frameId) true [] [])) as Hnew.
  { subst s1. unfold port_added. fields. by rewrite lookup_insert_eq. }
  assert (is_Some (ports s2 !! nextPort s)) as Hcp.
  { destruct (ports s2 !! nextPort s) eqn:Hp; [by eexists|].
    apply E3 in Hp. congruence. }
  cbv zeta. unfold portInfo. rewrite Hports, Hport. split_and!.
  - by rewrite lookup_insert_ne by lia.
  - rewrite lookup_insert_eq. by eexists.
  - rewrite lookup_insert_ne by lia.
    specialize (E4 (nextPort s)). unfold portInfo in E4. rewrite E4. by rewrite Hnew.
  - by rewrite lookup_insert_eq.
Qed.

Lemma createInstance_begin_carries_on port : respects carries_on (createInstance_begin port).
Proof.
  unfold createInstance_begin, createInstanceFromBackground_begin,
    createInstanceFromContent_begin.
  respects_auto;
    auto using bridge_connect_carries_on, frames_disconnectExisting,
      frames_throw_logger_error, frames_carries_on.
Qed.

Lemma onConnect_begin_carries_on port : respects carries_on (onConnect_begin port).
Proof.
  unfold onConnect_begin. respects_auto. apply createInstance_begin_carries_on.
Qed.

(** A call that begins to wait on ports that were just made. *)
Lemma page_wf_waits (ws : list Waiting) (w : Waiting) (s : State) :
  page_wf (mkPage s ws) →
  waits_well s w → NoDup (claims w) →
  (∀ p, p ∈ claims w → is_Some (ports s !! p)) →
  (∀ p, p ∈ claims w → p ∉ ws ≫= claims) →
  (∀ p i instance, p ∈ claims w → heap s !! i = Some instance →
     bridgePort instance ≠ p ∧ contentPort instance ≠ p) →
  page_wf (mkPage s (ws ++ [w] ++ [])).
Proof.
  intros [Hwf Hw Hall Hap Hun] Hwell Hown Hports Hfresh Hunused. cbn [st waiting] in *.
  assert ((ws ++ [w] ++ []) ≫= claims = (ws ≫= claims) ++ claims w) as Hclaims.
  { rewrite bind_app. cbn. by rewrite !app_nil_r. }
  split; cbn [st waiting].
  - done.
  - intros w' [Hin | Hin]%elem_of_app; [by apply Hw|].
    apply elem_of_app in Hin as [Hin | Hin]; [|by apply elem_of_nil in Hin].
    apply list_elem_of_singleton in Hin as ->. done.
  - intros p. rewrite Hclaims. intros [Hp | Hp]%elem_of_app; [by apply Hall | by apply Hports].
  - rewrite Hclaims. apply NoDup_app. split_and!; [done | | done].
    intros p Hp Hp'. by apply (Hfresh p).
  - intros p i instance. rewrite Hclaims.
    intros [Hp | Hp]%elem_of_app Hi; [by apply (Hun p i) | by apply (Hunused p i)].
Qed.

Lemma background_connects_run s :
  (p ← newPort MessagePort "" None None; w ← createInstance_begin p; mret [w]) s
  = (Ok [BackgroundAwaitsBridge (nextPort s) (S (nextPort s))],
     set_log (log s ++ [EConnect (S (nextPort s))])
       (port_added (mkPort RuntimePort "bridge" None None true [] [])
          (port_added (mkPort MessagePort "" None None true [] []) s))).
Proof.
  unfold mbind at 1, M_bind at 1, bind at 1. rewrite newPort_run.
  set (s1 := port_added _ s).
  assert (portInfo (nextPort s) s1 = mkPort MessagePort "" None None true [] []) as Hinfo
    by apply portInfo_port_added_new.
  unfold createInstance_begin. run_monad. rewrite Hinfo. cbn.
  unfold createInstanceFromBackground_begin. run_monad. reflexivity.
Qed.

Lemma page_wf_settled_silent (m : M (list Waiting)) (ws : list Waiting) (s : State) :
  page_wf (mkPage s ws) → respects carries_on m →
  (∀ l, fst (m s) = Ok l → l = []) →
  page_wf (settle m ws [] s).
Proof.
  intros Hpg Hm Hsilent. pose proof (page_wf_carried _ _ Hpg (Hm s)) as Hpg'.
  cbn [st waiting] in Hpg'. unfold settle.
  destruct (m s) as [[l|e] s']; cbn [fst snd] in *.
  - rewrite (Hsilent l) by done. by rewrite !app_nil_r.
  - by rewrite app_nil_r.
Qed.

Lemma page_wf_connection_arrives env nm tab frame pg :
  page_wf pg → page_wf (turn env (ConnectionArrives nm tab frame) pg).
Proof.
  intros Hpg. destruct pg as [s ws]. cbn [turn st waiting].
  assert (respects carries_on (p ← newPort RuntimePort nm tab frame; onConnect_begin p))
    as Hcarry.
  { refine (respects_bind _ _ _ _ _); [apply newPort_carries_on|].
    intros p. apply onConnect_begin_carries_on. }
  destruct (decide (nm = "cast" ∧ is_Some tab ∧ is_Some frame))
    as [(-> & [tabId ->] & [frameId ->]) | Hother].
  - rewrite (settle_ok _ ws [] s _ _ (connection_arrives_run tabId frameId s)).
    pose proof (page_wf_carried _ _ Hpg (Hcarry s)) as Hpg'.
    rewrite connection_arrives_run in Hpg'. cbn [st waiting snd] in Hpg'.
    destruct (arrived_frame tabId frameId s) as (Hheap & Hact & Href & Hport & Hlog).
    destruct (arrived_ports tabId frameId s) as (Hcp & Hbp & Hqc & Hqb).
    pose proof Hpg as [Hwf Hw Hall Hap Hun]. cbn [st waiting] in *.
    apply page_wf_waits; [done | by split | | | |]; cbn [claims].
    + apply NoDup_cons. split; [|apply NoDup_singleton].
      intros ?%list_elem_of_singleton. lia.
    + intros p [->|[->|Hp%elem_of_nil]%elem_of_cons]%elem_of_cons; done.
    + intros p Hp Hclaimed. pose proof (allocated_lt s p Hwf (Hall p Hclaimed)).
      apply elem_of_cons in Hp as [->|Hp]; [lia|].
      apply list_elem_of_singleton in Hp as ->. lia.
    + intros p i instance Hp Hi. rewrite Hheap in Hi.
      destruct (wf_instance_ports s Hwf i instance Hi).
      apply elem_of_cons in Hp as [->|Hp]; [lia|].
      apply list_elem_of_singleton in Hp as ->. lia.
  - apply page_wf_settled_silent; [done | done |].
    intros l. unfold mbind at 1, M_bind at 1, bind at 1. rewrite newPort_run.
    unfold onConnect_begin. run_monad. rewrite portInfo_port_added_new. cbn.
    destruct (String.eqb_spec nm "cast") as [->|Hnm]; [|by intros [= <-]].
    unfold createInstance_begin. run_monad. rewrite portInfo_port_added_new. cbn.
    unfold createInstanceFromContent_begin. run_monad.
    rewrite portInfo_port_added_new. cbn.
    destruct tab as [tabId|]; [|done]. destruct frame as [frameId|]; [|done].
    exfalso. apply Hother. by split_and!.
Qed.

Lemma page_wf_background_connects env pg :
  page_wf pg → page_wf (turn env BackgroundConnects pg).
Proof.
  intros Hpg. destruct pg as [s ws]. cbn [turn st waiting].
  assert (respects carries_on
            (p ← newPort MessagePort "" None None; w ← createInstance_begin p; mret [w]))
    as Hcarry.
  { refine (respects_bind _ _ _ _ _); [apply newPort_carries_on|]. intros p.
    refine (respects_bind _ _ _ _ _); [apply createInstance_begin_carries_on|].
    intros w. refine (respects_ret _ _). }
  rewrite (settle_ok _ ws [] s _ _ (background_connects_run s)).
  pose proof (page_wf_carried _ _ Hpg (Hcarry s)) as Hpg'.
  rewrite background_connects_run in Hpg'. cbn [st waiting snd] in Hpg'.
  pose proof Hpg as [Hwf Hw Hall Hap Hun]. cbn [st waiting] in *.
  apply page_wf_waits; [done | done | | | |]; cbn [claims].
  - apply NoDup_cons. split; [|apply NoDup_singleton].
    intros ?%list_elem_of_singleton. lia.
  - intros p Hp. unfold port_added. fields.
    apply elem_of_cons in Hp as [->|Hp].
    + rewrite lookup_insert_ne by lia. rewrite lookup_insert_eq. by eexists.
    + apply list_elem_of_singleton in Hp as ->. rewrite lookup_insert_eq. by eexists.
  - intros p Hp Hclaimed. pose proof (allocated_lt s p Hwf (Hall p Hclaimed)).
    apply elem_of_cons in Hp as [->|Hp]; [lia|].
    apply list_elem_of_singleton in Hp as ->. lia.
  - intros p i instance Hp Hi. unfold port_added in Hi. fields.
    destruct (wf_instance_ports s Hwf i instance Hi).
    apply elem_of_cons in Hp as [->|Hp]; [lia|].
    apply list_elem_of_singleton in Hp as ->. lia.
Qed.

Lemma page_wf_resumes env n pg : page_wf pg → page_wf (turn env (Resumes n) pg).
Proof.
  intros Hpg. destruct pg as [s ws]. cbn [turn st waiting].
  destruct (ws !! n) as [w|] eqn:Hw; [|done].
  apply page_wf_resumed. by rewrite take_drop_middle.
Qed.

(** ** A connection that nothing interleaves with *)

Lemma resumes_last env (ws : list Waiting) (w : Waiting) (s : State) :
  turn env (Resumes (length ws)) (mkPage s (ws ++ [w] ++ []))
  = settle (resume env w) ws [] s.
Proof.
  cbn [turn st waiting].
  rewrite lookup_app_r by lia. rewrite Nat.sub_diag. cbn [lookup list_lookup app].
  rewrite take_app_length.
  replace (S (length ws)) with (length (ws ++ [w])) by (rewrite length_app; cbn; lia).
  by rewrite drop_all.
Qed.

Lemma resumes_nobody env (ws : list Waiting) (s : State) :
  turn env (Resumes (length ws)) (mkPage s ws) = mkPage s ws.
Proof.
  cbn [turn st waiting]. rewrite lookup_ge_None_2 by lia. done.
Qed.

Lemma createInstance_begin_waits port s w s' :
  createInstance_begin port s = (Ok w, s') →
  (∃ cp bp tabId frameId, w = ContentAwaitsBridge cp bp tabId frameId)
  ∨ (∃ cp bp, w = BackgroundAwaitsBridge cp bp).
Proof.
  unfold createInstance_begin, createInstanceFromBackground_begin,
    createInstanceFromContent_begin.
  run_monad. destruct (kind (portInfo port s)).
  - destruct (senderTabId (portInfo port s)) as [tabId|]; [|done].
    destruct (senderFrameId (portInfo port s)) as [frameId|]; [|done].
    run_monad. destruct (disconnectExisting tabId frameId s) as [[[]|e] s1]; [|done].
    rewrite bridge_connect_run. intros [= <- _]. left. by eexists _, _, _, _.
  - rewrite bridge_connect_run. intros [= <- _]. right. by eexists _, _.
Qed.

Lemma createInstanceFromContent_rest_returns cp bp tabId frameId s :
  ∃ s', createInstanceFromContent_rest cp bp tabId frameId s = (Ok (nextRef s), s').
Proof. eexists. reflexivity. Qed.

Lemma createInstanceFromBackground_rest_returns cp bp s :
  ∃ s', createInstanceFromBackground_rest cp bp s = (Ok (nextRef s), s').
Proof. eexists. reflexivity. Qed.

Lemma createInstance_add_waits i s w s' :
  createInstance_add i s = (Ok w, s') → ∃ cp, w = AwaitsInfo i cp.
Proof.
  unfold createInstance_add, getObj. run_monad.
  destruct (heap s !! i) as [instance|]; [|done].
  intros [= <- _]. by eexists.
Qed.

(** The rest of a call after it has begun to wait, with no other handler in
    between: three resumptions of the call, which is the last one that
    waits. *)
Lemma resumed_at_once env (ws : list Waiting) (w : Waiting) (s : State) :
  (∃ cp bp tabId frameId, w = ContentAwaitsBridge cp bp tabId frameId)
  ∨ (∃ cp bp, w = BackgroundAwaitsBridge cp bp) →
  let n := length ws in
  turn env (Resumes n) (turn env (Resumes n) (turn env (Resumes n)
    (mkPage s (ws ++ [w] ++ []))))
  = mkPage
      (exec (i ← match w with
                 | ContentAwaitsBridge cp bp tabId frameId =>
                     createInstanceFromContent_rest cp bp tabId frameId
                 | BackgroundAwaitsBridge cp bp => createInstanceFromBackground_rest cp bp
                 | _ => throw "no such stage"
                 end;
             w ← createInstance_add i;
             match w with
             | AwaitsInfo i cp => createInstance_finish env i cp
             | _ => throw "no such stage"
             end) s)
      ws.
Proof.
  intros Hw n. subst n. rewrite resumes_last.
  assert (∀ i s1,
            turn env (Resumes (length ws)) (turn env (Resumes (length ws))
              (mkPage s1 (ws ++ [AwaitsInstance i] ++ [])))
            = mkPage (exec (w ← createInstance_add i;
                            match w with
                            | AwaitsInfo i cp => createInstance_finish env i cp
                            | _ => throw "no such stage"
                            end) s1) ws) as Hrest.
  { intros i s1. rewrite resumes_last. cbn [resume].
    unfold settle, exec, mbind, M_bind, bind.
    destruct (createInstance_add i s1) as [[w1|e] s2] eqn:Hadd; cbn [snd mret M_ret ret].
    - destruct (createInstance_add_waits i s1 w1 s2 Hadd) as [cp ->].
      rewrite resumes_last. cbn [resume]. unfold settle, mbind, M_bind, bind.
      destruct (createInstance_finish env i cp s2) as [[j|e] s3]; cbn;
        by rewrite ?app_nil_r.
    - rewrite !app_nil_r. by rewrite resumes_nobody. }
  destruct Hw as [(cp & bp & tabId & frameId & ->) | (cp & bp & ->)]; cbn [resume].
  - destruct (createInstanceFromContent_rest_returns cp bp tabId frameId s) as [s1 Hrun].
    unfold settle at 1. unfold mbind at 1, M_bind at 1, bind at 1. rewrite Hrun.
    cbn [mret M_ret ret]. rewrite Hrest.
    unfold exec, mbind, M_bind, bind. by rewrite Hrun.
  - destruct (createInstanceFromBackground_rest_returns cp bp s) as [s1 Hrun].
    unfold settle at 1. unfold mbind at 1, M_bind at 1, bind at 1. rewrite Hrun.
    cbn [mret M_ret ret]. rewrite Hrest.
    unfold exec, mbind, M_bind, bind. by rewrite Hrun.
Qed.

Lemma begun_at_once env (ws : list Waiting) (port : PortId) (s : State) :
  let n := length ws in
  turn env (Resumes n) (turn env (Resumes n) (turn env (Resumes n)
    (settle (w ← createInstance_begin port; mret [w]) ws [] s)))
  = mkPage (exec (createInstance env port) s) ws.
Proof.
  cbv zeta. unfold exec. rewrite createInstance_stages.
  unfold settle at 1. unfold mbind, M_bind, bind.
  destruct (createInstance_begin port s) as [[w|e] s2] eqn:Hbegin;
    cbn [snd mret M_ret ret].
  - pose proof (resumed_at_once env ws w s2 (createInstance_begin_waits _ _ _ _ Hbegin))
      as Hrest.
    cbv zeta in Hrest. unfold exec, mbind, M_bind, bind in Hrest. exact Hrest.
  - rewrite !app_nil_r. by rewrite !resumes_nobody.
Qed.

(** An incoming connection that is handled in one piece is the arrival of
    the connection followed by the three resumptions of its call. *)
Lemma connection_without_interleaving env nm tab frame pg :
  let n := length (waiting pg) in
  turn env (Handles (IncomingConnection nm tab frame)) pg
  = turn env (Resumes n) (turn env (Resumes n) (turn env (Resumes n)
      (turn env (ConnectionArrives nm tab frame) pg))).
Proof.
  destruct pg as [s ws]. cbn [st waiting]. cbv zeta.
  set (s1 := port_added (mkPort RuntimePort nm tab frame true [] []) s).
  assert (turn env (Handles (IncomingConnection nm tab frame)) (mkPage s ws)
          = mkPage (if String.eqb nm "cast"
                    then exec (createInstance env (nextPort s)) s1 else s1) ws) as ->.
  { cbn [turn st waiting]. f_equal. unfold exec, step.
    unfold mbind at 1, M_bind at 1, bind at 1. rewrite newPort_run. fold s1.
    unfold onConnect. run_monad. subst s1. rewrite portInfo_port_added_new. cbn.
    by destruct (String.eqb nm "cast"). }
  assert (turn env (ConnectionArrives nm tab frame) (mkPage s ws)
          = if String.eqb nm "cast"
            then settle (w ← createInstance_begin (nextPort s); mret [w]) ws [] s1
            else mkPage s1 (ws ++ [] ++ [])) as ->.
  { cbn [turn st waiting]. unfold settle.
    unfold mbind at 1, M_bind at 1, bind at 1. rewrite newPort_run. fold s1.
    unfold onConnect_begin. run_monad. subst s1. rewrite portInfo_port_added_new. cbn.
    by destruct (String.eqb nm "cast"). }
  destruct (String.eqb nm "cast").
  - by rewrite begun_at_once.
  - rewrite !app_nil_r. by rewrite !resumes_nobody.
Qed.

Lemma background_without_interleaving env pg :
  let n := length (waiting pg) in
  turn env (Handles BackgroundInstance) pg
  = turn env (Resumes n) (turn env (Resumes n) (turn env (Resumes n)
      (turn env BackgroundConnects pg))).
Proof.
  destruct pg as [s ws]. cbn [st waiting]. cbv zeta.
  set (s1 := port_added (mkPort MessagePort "" None None true [] []) s).
  assert (turn env (Handles BackgroundInstance) (mkPage s ws)
          = mkPage (exec (createInstance env (nextPort s)) s1) ws) as ->.
  { cbn [turn st waiting]. f_equal. }
  assert (turn env BackgroundConnects (mkPage s ws)
          = settle (w ← createInstance_begin (nextPort s); mret [w]) ws [] s1) as ->.
  { cbn [turn st waiting]. unfold settle.
    unfold mbind at 1, M_bind at 1, bind at 1. by rewrite newPort_run. }
  by rewrite begun_at_once.
Qed.

(** ** Every page that a run leads to *)

Lemma page_wf_turn env t pg : page_wf pg → page_wf (turn env t pg).
Proof.
  intros Hpg. destruct t as [ev | nm tab frame | | n].
  - destruct ev as [| nm tab frame | | p m | p | t].
    + apply (page_wf_carried pg); [done|]. apply init_deviceManager_carries_on.
    + rewrite connection_without_interleaving. cbv zeta.
      by do 3 apply page_wf_resumes; apply page_wf_connection_arrives.
    + rewrite background_without_interleaving. cbv zeta.
      by do 3 apply page_wf_resumes; apply page_wf_background_connects.
    + apply (page_wf_carried pg); [done|].
      apply (frames_carries_on _ (frames_deliverMessage env p m)).
    + apply (page_wf_carried pg); [done|].
      apply (frames_carries_on _ (frames_deliverDisconnect p)).
    + apply (page_wf_carried pg); [done|]. apply advanceTo_carries_on.
  - by apply page_wf_connection_arrives.
  - by apply page_wf_background_connects.
  - by apply page_wf_resumes.
Qed.

Lemma page_wf_initial : page_wf (mkPage initialState []).
Proof.
  split; cbn.
  - apply wf_initialState.
  - by intros w H%elem_of_nil.
  - by intros p H%elem_of_nil.
  - constructor.
  - by intros p i instance H%elem_of_nil.
Qed.

Lemma interleaved_page_wf pg : interleaved pg → page_wf pg.
Proof.
  induction 1 as [|env t pg _ IH]; [apply page_wf_initial | by apply page_wf_turn].
Qed.

Lemma reachable_interleaved s : reachable s → interleaved (mkPage s []).
Proof.
  induction 1 as [|env ev s _ IH]; [constructor|].
  apply (interleaved_turn env (Handles ev) _ IH).
Qed.

(** ** What a resumption does not do *)

Global Instance keeps_live_preorder : PreOrder keeps_live.
Proof.
  split.
  - by intros s i.
  - intros s1 s2 s3 H12 H23 i Hi. by apply H23, H12.
Qed.

Lemma resume_makes_no_disconnect env w :
  respects (grows_by is_no_disconnect) (resume env w).
Proof.
  destruct w as [cp bp tabId frameId | cp bp | i | i cp]; cbn [resume];
    unfold createInstanceFromContent_rest, createInstanceFromBackground_rest,
      createInstance_add, createInstance_finish, newObj, getObj,
      onDisconnect_addListener, onMessage_addListener, alterPort, postMessage.
  all: respects_auto; try (apply silent_grows_by; by intros s).
  apply emit_grows_by. by intros p.
Qed.

Lemma resume_keeps_live env w : respects keeps_live (resume env w).
Proof.
  assert (∀ f : State → State,
            (∀ s, activeInstances (f s) = activeInstances s) →
            respects keeps_live (modify f)) as Hsame.
  { intros f Hf s i Hi. cbn. by rewrite Hf. }
  destruct w as [cp bp tabId frameId | cp bp | i | i cp]; cbn [resume];
    unfold createInstanceFromContent_rest, createInstanceFromBackground_rest,
      createInstance_add, createInstance_finish, newObj, getObj,
      onDisconnect_addListener, onMessage_addListener, alterPort, postMessage, emit.
  all: respects_auto; try (apply Hsame; by intros s).
  intros s j Hj. cbn. by apply elem_of_Set_add_old.
Qed.

Lemma interleaved_turns env ts pg : interleaved pg → interleaved (turns env ts pg).
Proof.
  revert pg. induction ts as [|t ts IH]; intros pg Hpg; [done|].
  cbn. apply IH. by constructor.
Qed.

(** ** A connection that arrives while others wait *)

(** C3, amended: on every page that a run leads to, whether calls of
    [createInstance] wait or not, when a content script connects from tab
    [tabId], frame [frameId], [disconnect] is called on the bridge port of
    every instance that is live and recorded at that tab and frame at that
    moment, before the bridge port of the new instance is asked for, and
    these bridge ports are disconnected in the resulting state.  The
    connection itself makes no instance and leaves the live set as it is:
    its call waits for the bridge port.  When a waiting call goes on,
    whichever it is, it calls [disconnect] on no port and takes nobody out of
    the live set; so an instance that joins the live set while a connection
    from its tab and frame waits is not disconnected by that connection.
    When the call of the connection goes on to its end with nothing else in
    between, the new instance has joined the live set behind the instances
    that were in it, and [cast:initialized] is posted on its content port
    when [bridge.getInfo] has answered. *)
Theorem arriving_connection_disconnects_occupants
    (env : Env) (pg : Page) (tabId : TabId) (frameId : FrameId) :
  interleaved pg →
  let s := st pg in
  let pg' := turn env (ConnectionArrives "cast" (Some tabId) (Some frameId)) pg in
  let s' := st pg' in
  let cp := nextPort s in
  let bp := S (nextPort s) in
  log s' = log s
           ++ map (λ old, EDisconnect (bridgePort old)) (occupants s tabId frameId)
           ++ [EConnect bp]
  ∧ (∀ old, old ∈ occupants s tabId frameId →
            connected (portInfo (bridgePort old) s') = false)
  ∧ heap s' = heap s
  ∧ activeInstances s' = activeInstances s
  ∧ waiting pg' = waiting pg ++ [ContentAwaitsBridge cp bp tabId frameId]
  ∧ (∀ n, let later := st (turn env (Resumes n) pg) in
          (∃ calls, log later = log s ++ calls ∧ ∀ p, EDisconnect p ∉ calls)
          ∧ (∀ i, i ∈ activeInstances s → i ∈ activeInstances later))
  ∧ (let n := length (waiting pg) in
     let finished := turn env (Resumes n) (turn env (Resumes n) (turn env (Resumes n) pg')) in
     heap (st finished)
     = <[nextRef s := mkInstance bp cp (Some tabId) (Some frameId) None]> (heap s)
     ∧ activeInstances (st finished) = activeInstances s ++ [nextRef s]
     ∧ waiting finished = waiting pg
     ∧ log (st finished)
       = log s' ++ match getInfo env with
                   | Fulfilled info =>
                       [EPostMessage cp (mkMessage "cast:initialized" (BridgeInfoData info))]
                   | Rejected => []
                   end).
Proof.
  intros Hrun s pg' s' cp bp.
  pose proof (pw_state pg (interleaved_page_wf pg Hrun)) as Hwf. fold s in Hwf.
  assert (pg' = mkPage (arrived tabId frameId s)
                  (waiting pg ++ [ContentAwaitsBridge cp bp tabId frameId] ++ [])) as Hpg'.
  { subst pg'. cbn [turn]. apply settle_ok, connection_arrives_run. }
  assert (s' = arrived tabId frameId s) as Hs' by (subst s'; by rewrite Hpg').
  destruct (arrived_frame tabId frameId s) as (Hheap & Hact & _ & _ & Hlog).
  split_and!.
  - by rewrite Hs'.
  - intros old Hold. rewrite Hs'.
    set (s1 := port_added (mkPort RuntimePort "cast" (Some tabId) (Some frameId) true [] [])
                 s).
    set (s2 := all_disconnected (occupants s1 tabId frameId) s1).
    assert (ports (arrived tabId frameId s)
            = <[nextPort s2 := mkPort RuntimePort "bridge" None None true [] []]> (ports s2))
      as Hports by reflexivity.
    pose proof (all_disconnected_frame (occupants s1 tabId frameId) s1) as Hfr.
    cbv zeta in Hfr. destruct Hfr as (_ & _ & _ & _ & _ & Hport & _). fold s2 in Hport.
    assert (bridgePort old < nextPort s) as Hlt.
    { apply list_elem_of_filter in Hold as [_ Hold].
      apply list_elem_of_omap in Hold as (i & _ & Hi).
      by destruct (wf_instance_ports s Hwf i old Hi). }
    pose proof (all_disconnected_portInfo (occupants s1 tabId frameId) s1 (bridgePort old))
      as Hinfo.
    rewrite decide_True in Hinfo by (by apply list_elem_of_fmap_2).
    fold s2 in Hinfo. unfold portInfo in Hinfo |- *.
    rewrite Hports, Hport. rewrite lookup_insert_ne by (subst s1; cbn; lia).
    rewrite Hinfo. by destruct (default _ _).
  - by rewrite Hs'.
  - by rewrite Hs'.
  - rewrite Hpg'. cbn [waiting]. by rewrite app_nil_r.
  - intros n later. subst later. cbn [turn].
    destruct (waiting pg !! n) as [w|] eqn:Hw.
    + unfold settle.
      pose proof (resume_makes_no_disconnect env w s) as (calls & Hcalls & Hquiet).
      pose proof (resume_keeps_live env w s) as Hlive.
      fold s. destruct (resume env w s) as [[ws|e] s1]; cbn [st fst snd] in *.
      * split; [|done]. exists calls. split; [done|]. intros p Hp. by apply (Hquiet _ Hp p).
      * split; [|done]. exists calls. split; [done|]. intros p Hp. by apply (Hquiet _ Hp p).
    + split; [|done]. exists []. split; [by rewrite app_nil_r|].
      by intros p H%elem_of_nil.
  - intros n finished. subst finished n pg'.
    pose proof (connection_without_interleaving env "cast" (Some tabId) (Some frameId) pg)
      as Hseq.
    cbv zeta in Hseq. rewrite <- Hseq. cbn [turn st waiting]. fold s.
    set (s1 := port_added (mkPort RuntimePort "cast" (Some tabId) (Some frameId) true [] [])
                 s).
    assert (portInfo cp s1
            = mkPort RuntimePort "cast" (Some tabId) (Some frameId) true [] []) as Hinfo
      by apply portInfo_port_added_new.
    assert (exec (step env (IncomingConnection "cast" (Some tabId) (Some frameId))) s
            = exec (createInstance env cp) s1) as ->.
    { unfold exec, step. unfold mbind, M_bind, bind.
      rewrite newPort_run. fold s1. unfold onConnect. run_monad. fold cp.
      by rewrite Hinfo. }
    destruct (createInstance_at_occupied_frame env s1 cp tabId frameId)
      as (Hlog1 & Hheap1 & Hact1 & _); try (by rewrite Hinfo).
    split_and!.
    + exact Hheap1.
    + rewrite Hact1. cbn. unfold Set_add. rewrite decide_False; [done|].
      intros Hin. destruct (wf_live s Hwf _ Hin) as [instance Hsome].
      rewrite (wf_heap_fresh s Hwf) in Hsome by lia. done.
    + done.
    + rewrite Hlog1, Hs', Hlog. cbn. rewrite <- !app_assoc. reflexivity.
Qed.

Lemma arriving_connection_disconnects_occupants_witness :
  let pg' := turn quiet_env (ConnectionArrives "cast" (Some 1) (Some 5))
               page_with_a_waiting_call in
  log (st pg') = log (st page_with_a_waiting_call) ++ [EDisconnect 1; EConnect 5]
  ∧ activeInstances (st pg') = [0]
  ∧ waiting pg' = [ContentAwaitsBridge 2 3 2 0; ContentAwaitsBridge 4 5 1 5].
Proof.
  destruct (arriving_connection_disconnects_occupants quiet_env page_with_a_waiting_call 1 5)
    as (Hlog & _ & _ & Hact & Hwait & _).
  { exact (interleaved_turn _ _ _ (interleaved_turn _ _ _ interleaved_init)). }
  split_and!; [exact Hlog | exact Hact | exact Hwait].
Defined.

(** C3, as stated, fails: two content scripts connect from tab 1, frame 0,
    the second one before the bridge port of the first one has come.  When
    both calls have run to their end, the live set holds two instances
    recorded at that tab and frame, and [disconnect] was called on no port. *)
Lemma two_live_instances_in_one_frame :
  interleaved overlapping_connections
  ∧ activeInstances (st overlapping_connections) = [0; 1]
  ∧ occupies (st overlapping_connections) 1 0 0
  ∧ occupies (st overlapping_connections) 1 0 1
  ∧ ¬ one_instance_per_frame (st overlapping_connections)
  ∧ (∀ p, EDisconnect p ∉ log (st overlapping_connections)).
Proof.
  assert (occupies (st overlapping_connections) 1 0 0) as H0.
  { eexists. vm_compute. split_and!; reflexivity. }
  assert (occupies (st overlapping_connections) 1 0 1) as H1.
  { eexists. vm_compute. split_and!; reflexivity. }
  split_and!; try done.
  - apply interleaved_turns, interleaved_init.
  - intros Hone. specialize (Hone 0 1 1 0).
    assert (0 = 1) as Habs; [|discriminate Habs].
    apply Hone; [vm_compute; by left | vm_compute; right; by left | done | done].
  - intros p Hp. vm_compute in Hp. not_listed Hp.
Qed.
